(** * Quill: release orchestration and changelog state

    A shallow embedding of the TypeScript sources of quill
    (src/types, src/prompts/interactive, src/services/{config,git,ai},
    src/utils/version, src/cli/commands/{changelog,config,release},
    src/index) and the properties of its specification.

    Conventions of the embedding.
    - A JSON document is kept by the value [JSON.parse] gives for it
      ([json]); [undefined], which no document contains, is added by
      [jsvalue].  Number literals are integer valued ([Z]); strings are
      sequences of 8-bit characters.
    - Asynchronous functions run sequentially (every call is awaited), so
      they are functions in a monad [M] over the state of the world: the
      files of the working directory, the git repository, the answers the
      user will give at the terminal, the generation backend and the lines
      printed so far.  A computation returns, throws or ends the process.
    - The git executable and the generation backend are collaborators
      (interfaces [SimpleGit] and [Backend]). *)

From Stdlib Require Import String Ascii List ZArith Lia Bool Arith DecimalString.
Import ListNotations.
Open Scope string_scope.

Set Implicit Arguments.
Set Warnings "-register-all".

(** ** JavaScript values that come out of [JSON.parse] *)

Inductive json : Type :=
| JNull
| JBool (b : bool)
| JNum (n : Z)
| JStr (s : string)
| JArr (items : list json)
| JObj (fields : list (string * json)).

Inductive jsvalue : Type :=
| VUndefined
| VJson (j : json).

Coercion VJson : json >-> jsvalue.

(** Thrown values.  All of them are instances of [Error]; [QuillError] is
    the subclass of src/types.  The message of a [TypeError] is the
    runtime's and only paraphrased here. *)
Inductive exn : Type :=
| QuillError (message : string)
| Error (message : string)
| TypeError (message : string)
| SyntaxError (message : string).

Definition exn_message (e : exn) : string :=
  match e with
  | QuillError m | Error m | TypeError m | SyntaxError m => m
  end.

Definition result (A : Type) : Type := (exn + A)%type.

Definition dq : string := String (ascii_of_nat 34) "".
Definition nl : string := String (ascii_of_nat 10) "".

Definition Z_to_string (n : Z) : string := NilZero.string_of_int (Z.to_int n).
Definition nat_to_string (n : nat) : string := NilZero.string_of_uint (Nat.to_uint n).

(** Own properties of an object, in insertion order. *)
Fixpoint assoc_get {A : Type} (k : string) (fs : list (string * A)) : option A :=
  match fs with
  | [] => None
  | (k', v) :: rest => if String.eqb k k' then Some v else assoc_get k rest
  end.

Fixpoint assoc_set {A : Type} (k : string) (v : A) (fs : list (string * A))
  : list (string * A) :=
  match fs with
  | [] => [(k, v)]
  | (k', v') :: rest =>
      if String.eqb k k' then (k, v) :: rest else (k', v') :: assoc_set k v rest
  end.

(** [ToBoolean]. *)
Definition truthy (v : jsvalue) : bool :=
  match v with
  | VUndefined => false
  | VJson JNull => false
  | VJson (JBool b) => b
  | VJson (JNum n) => negb (Z.eqb n 0)
  | VJson (JStr s) => negb (String.eqb s "")
  | VJson (JArr _) => true
  | VJson (JObj _) => true
  end.

Definition str_truthy (s : option string) : bool :=
  match s with
  | Some s => negb (String.eqb s "")
  | None => false
  end.

(** [a || null] *)
Definition or_null (v : jsvalue) : json :=
  match v with
  | VJson j => if truthy v then j else JNull
  | VUndefined => JNull
  end.

Fixpoint chars_of (s : string) : list json :=
  match s with
  | EmptyString => []
  | String c rest => JStr (String c "") :: chars_of rest
  end.

Fixpoint index_from {A : Type} (i : nat) (l : list A) : list (string * A) :=
  match l with
  | [] => []
  | x :: rest => (nat_to_string i, x) :: index_from (S i) rest
  end.

(** [v.k] for a data property [k].  Reading a property of [null] or
    [undefined] throws; a primitive or an array has none but [length]
    (the names read by the program are data names, never the names of
    inherited built-ins). *)
Definition get_prop (v : jsvalue) (k : string) : result jsvalue :=
  match v with
  | VUndefined =>
      inl (TypeError ("Cannot read properties of undefined (reading '" ++ k ++ "')"))
  | VJson JNull =>
      inl (TypeError ("Cannot read properties of null (reading '" ++ k ++ "')"))
  | VJson (JObj fs) =>
      inr (match assoc_get k fs with Some x => VJson x | None => VUndefined end)
  | VJson (JArr l) =>
      inr (if String.eqb k "length" then VJson (JNum (Z.of_nat (List.length l)))
           else VUndefined)
  | VJson (JStr s) =>
      inr (if String.eqb k "length" then VJson (JNum (Z.of_nat (String.length s)))
           else VUndefined)
  | VJson (JNum _) | VJson (JBool _) => inr VUndefined
  end.

(** [v[i]] *)
Definition get_index (v : jsvalue) (i : nat) : result jsvalue :=
  match v with
  | VUndefined =>
      inl (TypeError ("Cannot read properties of undefined (reading '"
                        ++ nat_to_string i ++ "')"))
  | VJson JNull =>
      inl (TypeError ("Cannot read properties of null (reading '"
                        ++ nat_to_string i ++ "')"))
  | VJson (JObj fs) =>
      inr (match assoc_get (nat_to_string i) fs with
           | Some x => VJson x | None => VUndefined end)
  | VJson (JArr l) =>
      inr (match nth_error l i with Some x => VJson x | None => VUndefined end)
  | VJson (JStr s) =>
      inr (match nth_error (chars_of s) i with
           | Some x => VJson x | None => VUndefined end)
  | VJson (JNum _) | VJson (JBool _) => inr VUndefined
  end.

(** [o.k = x] on a value that holds an object. *)
Definition set_prop (o : json) (k : string) (x : json) : json :=
  match o with
  | JObj fs => JObj (assoc_set k x fs)
  | other => other
  end.

(** The properties an object spread [{...v}] copies. *)
Definition own_props (v : json) : list (string * json) :=
  match v with
  | JObj fs => fs
  | JArr l => index_from 0 l
  | JStr s => index_from 0 (chars_of s)
  | JNull | JBool _ | JNum _ => []
  end.

(** [{...a, ...b}] for an object [a] with fields [fs]. *)
Definition spread (fs : list (string * json)) (b : json) : json :=
  JObj (fold_left (fun acc kv => assoc_set (fst kv) (snd kv) acc) (own_props b) fs).

(** [a.unshift(x)]: only an array has the method. *)
Definition array_unshift (a : jsvalue) (x : json) : result (list json) :=
  match a with
  | VJson (JArr l) => inr (x :: l)
  | VUndefined =>
      inl (TypeError "Cannot read properties of undefined (reading 'unshift')")
  | VJson JNull =>
      inl (TypeError "Cannot read properties of null (reading 'unshift')")
  | VJson _ => inl (TypeError "unshift is not a function")
  end.

(** [String(v)], as a template literal converts. *)
Fixpoint to_string (j : json) : string :=
  match j with
  | JNull => "null"
  | JBool true => "true"
  | JBool false => "false"
  | JNum n => Z_to_string n
  | JStr s => s
  | JArr l =>
      (fix join (l : list json) : string :=
         match l with
         | [] => ""
         | x :: rest =>
             let sx := match x with JNull => "" | _ => to_string x end in
             match rest with
             | [] => sx
             | _ :: _ => sx ++ "," ++ join rest
             end
         end) l
  | JObj _ => "[object Object]"
  end.

Definition value_to_string (v : jsvalue) : string :=
  match v with
  | VUndefined => "undefined"
  | VJson j => to_string j
  end.

(** [a === b] where [a] and [b] were built by separate evaluations:
    primitives compare by value, two arrays or two objects are distinct
    references. *)
Definition strict_eq (a b : jsvalue) : bool :=
  match a, b with
  | VUndefined, VUndefined => true
  | VJson JNull, VJson JNull => true
  | VJson (JBool x), VJson (JBool y) => Bool.eqb x y
  | VJson (JNum x), VJson (JNum y) => Z.eqb x y
  | VJson (JStr x), VJson (JStr y) => String.eqb x y
  | _, _ => false
  end.

(** ** Strings *)

(** [s.startsWith(p)] *)
Definition startsWith (p s : string) : bool := String.prefix p s.

(** [s.slice(1)] *)
Definition slice1 (s : string) : string :=
  match s with
  | EmptyString => EmptyString
  | String _ rest => rest
  end.

(** [s.slice(0, n)] *)
Definition slice0 (n : nat) (s : string) : string := substring 0 n s.

(** [s.split(c)] for a separator of one character. *)
Fixpoint split_on (c : ascii) (s : string) : list string :=
  match s with
  | EmptyString => [EmptyString]
  | String a rest =>
      if Ascii.eqb a c then EmptyString :: split_on c rest
      else match split_on c rest with
           | [] => [String a EmptyString]
           | w :: ws => String a w :: ws
           end
  end.

(** [l.join(sep)] *)
Fixpoint join (sep : string) (l : list string) : string :=
  match l with
  | [] => ""
  | [x] => x
  | x :: rest => x ++ sep ++ join sep rest
  end.

Definition is_space (a : ascii) : bool :=
  let n := nat_of_ascii a in
  (((9 <=? n) && (n <=? 13)) || (n =? 32))%nat.

Fixpoint trimStart (s : string) : string :=
  match s with
  | EmptyString => EmptyString
  | String a rest => if is_space a then trimStart rest else s
  end.

Fixpoint rev_string (s acc : string) : string :=
  match s with
  | EmptyString => acc
  | String a rest => rev_string rest (String a acc)
  end.

(** [s.trim()] on the white space of ASCII. *)
Definition trim (s : string) : string :=
  rev_string (trimStart (rev_string (trimStart s) "")) "".

(** ** Regular expressions

    The patterns of the program are anchored at both ends and use no
    back-references, so [pattern.test(s)] is membership of [s] in a
    regular language; it is decided with derivatives. *)

Inductive cset : Type :=
| CLit (a : ascii)
| CDigit
| CWord
| CUnion (x y : cset).

Definition is_digit (a : ascii) : bool :=
  let n := nat_of_ascii a in ((48 <=? n) && (n <=? 57))%nat.

Definition is_word (a : ascii) : bool :=
  let n := nat_of_ascii a in
  (is_digit a || ((65 <=? n) && (n <=? 90)) || ((97 <=? n) && (n <=? 122))
   || (n =? 95))%nat.

Fixpoint cset_mem (cs : cset) (a : ascii) : bool :=
  match cs with
  | CLit b => Ascii.eqb a b
  | CDigit => is_digit a
  | CWord => is_word a
  | CUnion x y => cset_mem x a || cset_mem y a
  end.

Inductive regex : Type :=
| RNone
| REps
| RSet (cs : cset)
| RSeq (r1 r2 : regex)
| RAlt (r1 r2 : regex)
| RStar (r : regex).

Definition RPlus (r : regex) : regex := RSeq r (RStar r).
Definition ROpt (r : regex) : regex := RAlt r REps.

Fixpoint nullable (r : regex) : bool :=
  match r with
  | RNone => false
  | REps => true
  | RSet _ => false
  | RSeq r1 r2 => nullable r1 && nullable r2
  | RAlt r1 r2 => nullable r1 || nullable r2
  | RStar _ => true
  end.

Fixpoint deriv (a : ascii) (r : regex) : regex :=
  match r with
  | RNone => RNone
  | REps => RNone
  | RSet cs => if cset_mem cs a then REps else RNone
  | RSeq r1 r2 =>
      if nullable r1 then RAlt (RSeq (deriv a r1) r2) (deriv a r2)
      else RSeq (deriv a r1) r2
  | RAlt r1 r2 => RAlt (deriv a r1) (deriv a r2)
  | RStar r1 => RSeq (deriv a r1) (RStar r1)
  end.

(** [/^r$/.test(s)] *)
Fixpoint regex_test (r : regex) (s : string) : bool :=
  match s with
  | EmptyString => nullable r
  | String a rest => regex_test (deriv a r) rest
  end.

(** The strings of a regular expression. *)
Inductive matches : regex -> string -> Prop :=
| MEps : matches REps ""
| MSet cs a : cset_mem cs a = true -> matches (RSet cs) (String a "")
| MSeq r1 r2 s1 s2 :
    matches r1 s1 -> matches r2 s2 -> matches (RSeq r1 r2) (s1 ++ s2)
| MAltL r1 r2 s : matches r1 s -> matches (RAlt r1 r2) s
| MAltR r1 r2 s : matches r2 s -> matches (RAlt r1 r2) s
| MStarNil r : matches (RStar r) ""
| MStarApp r s1 s2 :
    matches r s1 -> matches (RStar r) s2 -> matches (RStar r) (s1 ++ s2).

(** ** src/utils/version.ts (the functions that need no repository) *)

Definition formatVersion (version : string) : string :=
  if startsWith "v" version then version else "v" ++ version.

Definition stripVersionPrefix (version : string) : string :=
  if startsWith "v" version then slice1 version else version.

(** [/^\d+\.\d+\.\d+(-[\w.]+)?(\+[\w.]+)?$/] *)
Definition semverPattern : regex :=
  let dot := RSet (CLit ".") in
  let digits := RPlus (RSet CDigit) in
  let ident := RPlus (RSet (CUnion CWord (CLit "."))) in
  RSeq digits (RSeq dot (RSeq digits (RSeq dot (RSeq digits
    (RSeq (ROpt (RSeq (RSet (CLit "-")) ident))
          (ROpt (RSeq (RSet (CLit "+")) ident))))))).

Definition isValidVersion (version : string) : bool :=
  let stripped := stripVersionPrefix version in
  regex_test semverPattern stripped.

(** [version.replace(/^v/, "")]: a method of strings only. *)
Definition replace_leading_v (version : json) : result string :=
  match version with
  | JStr s => inr (if startsWith "v" s then slice1 s else s)
  | _ => inl (TypeError "version.replace is not a function")
  end.

(** ** Text that is read with [JSON.parse]

    Such a text is kept with what [JSON.parse] makes of it: a malformed
    text (a [SyntaxError]), or a well-formed one and its value.
    [JSON.stringify v] writes a well-formed text whose value is [v]. *)

Inductive document : Type :=
| Malformed (raw : string)
| Wellformed (v : json).

Definition JSON_parse (d : document) : result json :=
  match d with
  | Malformed _ => inl (SyntaxError "Unexpected token in JSON")
  | Wellformed v => inr v
  end.

Definition JSON_stringify (v : json) : document := Wellformed v.

(** A text is falsy when it is the empty string. *)
Definition document_truthy (d : document) : bool :=
  match d with
  | Malformed raw => negb (String.eqb raw "")
  | Wellformed _ => true
  end.

(** ** src/types/index.ts *)

Record GitStatus : Type := {
  staged : list string;
  unstaged : list string;
  untracked : list string;
  isClean : bool }.

Record GitCommit : Type := {
  commit_hash : string;
  commit_shortHash : string;
  commit_message : string;
  commit_author : string;
  commit_date : string }.

Record GitTag : Type := {
  tag_name : string;
  tag_hash : string }.

Record ChangelogHistoryEntry : Type := {
  timestamp : string;
  fromRef : string;
  toRef : string;
  toCommitHash : string;
  commitsIncluded : nat }.

(** The object literal of an entry. *)
Definition entry_json (e : ChangelogHistoryEntry) : json :=
  JObj [("timestamp", JStr (timestamp e));
        ("fromRef", JStr (fromRef e));
        ("toRef", JStr (toRef e));
        ("toCommitHash", JStr (toCommitHash e));
        ("commitsIncluded", JNum (Z.of_nat (commitsIncluded e)))].

(** [oldVersion] and [newVersion] hold [JNull] for [null]. *)
Record VersionChange : Type := {
  oldVersion : json;
  newVersion : json;
  changed : bool }.

Record ChangelogOptions : Type := {
  cl_from : option string;
  cl_to : option string }.

Record ReleaseOptions : Type := {
  rel_from : option string;
  rel_version : option string;
  rel_tag : bool;
  rel_push : bool;
  rel_yes : bool }.

Record ConfigOptions : Type := {
  commitModel : option string;
  changelogModel : option string;
  listModels : bool }.

Definition default_model : json :=
  JObj [("provider", JStr "openai"); ("model", JStr "gpt-5.1-codex-mini")].

Definition DEFAULT_CONFIG_fields : list (string * json) :=
  [("models", JObj [("commit", default_model); ("changelog", default_model)])].

Definition DEFAULT_CONFIG : json := JObj DEFAULT_CONFIG_fields.

Definition MAX_HISTORY_ENTRIES : nat := 50.

(** ** The world *)

(** The files of [CONFIG_DIR] and [CHANGELOG.md]; [None] is a file that
    does not exist. *)
Record FileSystem : Type := {
  configDir : bool;
  configFile : option document;
  commitPromptFile : option string;
  changelogPromptFile : option string;
  historyFile : option document;
  changelogFile : option string }.

(** What the user will answer, per kind of prompt and in order; [None] is
    a cancelled prompt, and a user who has no answer left cancels.  A
    selection is the number of times the cursor is moved down from the
    first option. *)
Record User : Type := {
  confirms : list (option bool);
  selects : list (option nat);
  texts : list (option string) }.

Record Provider : Type := {
  provider_id : string;
  provider_name : string;
  provider_models : list string }.

(** The generation backend: whether a session with the server can be
    opened ([getClient] and [session.create] in src/services/ai.ts), the
    text that [prompt] returns for a text, a provider and a model (the
    response of the server, cleaned up), and the answer of
    [listProviders]. *)
Record Backend : Type := {
  session_reply : result unit;
  prompt_reply : string -> jsvalue -> jsvalue -> result string;
  providers_reply : result (list Provider) }.

(** Lines on the terminal. *)
Inductive line : Type :=
| LIntro
| LOutro (s : string)
| LSuccess (s : string)
| LWarn (s : string)
| LError (s : string)
| LInfo (s : string)
| LStep (s : string)
| LMessage (s : string)
| LCancel (s : string)
| LAsk (s : string)
| LSpinnerStart (s : string)
| LSpinnerStop (s : string)
| LConsole (s : string)
| LRule.

(** ** The git collaborator (the calls made on [simple-git]) *)

Record StatusResult : Type := {
  st_staged : list string;
  st_modified : list string;
  st_not_added : list string;
  st_isClean : bool }.

Record LogEntry : Type := {
  log_hash : string;
  log_message : string;
  log_author_name : string;
  log_date : string }.

Class SimpleGit (Repo : Type) : Type := {
  git_checkIsRepo : Repo -> result bool;
  git_status : Repo -> result StatusResult;
  git_diff : list string -> Repo -> result string;
  git_add : string -> Repo -> result Repo;
  git_commit : string -> Repo -> result Repo;
  git_log : list string -> Repo -> result (list LogEntry);
  git_tags : list string -> Repo -> result (list string);
  git_revparse : list string -> Repo -> result string;
  git_show : list string -> Repo -> result document;
  git_addTag : string -> Repo -> result Repo;
  git_push : list string -> Repo -> result Repo;
  git_raw : list string -> Repo -> result string;
  git_getRemotes : Repo -> result nat }.

(** A computation returns a value, throws, or ends the process with an
    exit code. *)
Inductive outcome (A : Type) : Type :=
| Returned (a : A)
| Thrown (e : exn)
| Exited (code : Z).

Arguments Returned {A} a.
Arguments Thrown {A} e.
Arguments Exited {A} code.

Section Quill.

Context {Repo : Type} {git : SimpleGit Repo}.

Record World : Type := {
  files : FileSystem;
  repo : Repo;
  user : User;
  backend : Backend;
  clock : string;
  clipboard : bool;
  printed : list line }.

(** ** Computations *)

Definition M (A : Type) : Type := World -> outcome A * World.

Definition ret {A : Type} (a : A) : M A := fun w => (Returned a, w).

Definition bind {A B : Type} (m : M A) (k : A -> M B) : M B :=
  fun w =>
    match m w with
    | (Returned a, w') => k a w'
    | (Thrown e, w') => (Thrown e, w')
    | (Exited c, w') => (Exited c, w')
    end.

Definition throw {A : Type} (e : exn) : M A := fun w => (Thrown e, w).

(** [process.exit(code)] *)
Definition process_exit {A : Type} (code : Z) : M A := fun w => (Exited code, w).

(** [try { m } catch (err) { h err }] *)
Definition try_catch {A : Type} (m : M A) (h : exn -> M A) : M A :=
  fun w =>
    match m w with
    | (Thrown e, w') => h e w'
    | other => other
    end.

Definition lift {A : Type} (r : result A) : M A :=
  match r with
  | inl e => throw e
  | inr a => ret a
  end.

Definition gets {A : Type} (f : World -> A) : M A := fun w => (Returned (f w), w).

Definition modify (f : World -> World) : M unit := fun w => (Returned tt, f w).

Notation "x <- c1 ;; c2" := (bind c1 (fun x => c2))
  (at level 61, c1 at next level, right associativity).
Notation "c1 ;; c2" := (bind c1 (fun _ => c2))
  (at level 61, right associativity).

Definition set_files (f : FileSystem) (w : World) : World :=
  {| files := f; repo := repo w; user := user w; backend := backend w;
     clock := clock w; clipboard := clipboard w; printed := printed w |}.

Definition set_repo (r : Repo) (w : World) : World :=
  {| files := files w; repo := r; user := user w; backend := backend w;
     clock := clock w; clipboard := clipboard w; printed := printed w |}.

Definition set_user (u : User) (w : World) : World :=
  {| files := files w; repo := repo w; user := u; backend := backend w;
     clock := clock w; clipboard := clipboard w; printed := printed w |}.

Definition print (l : line) (w : World) : World :=
  {| files := files w; repo := repo w; user := user w; backend := backend w;
     clock := clock w; clipboard := clipboard w; printed := printed w ++ [l] |}.

Definition say (l : line) : M unit := modify (print l).

(** A query of the repository. *)
Definition git_query {A : Type} (f : Repo -> result A) : M A :=
  fun w => lift (f (repo w)) w.

(** A command that changes the repository. *)
Definition git_update (f : Repo -> result Repo) : M unit :=
  fun w =>
    match f (repo w) with
    | inl e => (Thrown e, w)
    | inr r => (Returned tt, set_repo r w)
    end.

(** ** src/prompts/interactive.ts *)

Definition intro : M unit := say LIntro.
Definition outro (message : string) : M unit := say (LOutro message).
Definition success (message : string) : M unit := say (LSuccess message).
Definition warn (message : string) : M unit := say (LWarn message).
Definition error (message : string) : M unit := say (LError message).
Definition info (message : string) : M unit := say (LInfo message).
Definition step (message : string) : M unit := say (LStep message).
Definition message (text : string) : M unit := say (LMessage text).
Definition console_log (text : string) : M unit := say (LConsole text).

Definition handleCancel {A : Type} (answer : option A) : M A :=
  match answer with
  | None => say (LCancel "Operation cancelled.") ;; process_exit 0
  | Some a => ret a
  end.

Definition next_confirm : M (option bool) :=
  fun w =>
    match confirms (user w) with
    | [] => (Returned None, w)
    | a :: rest =>
        (Returned a,
         set_user {| confirms := rest; selects := selects (user w);
                     texts := texts (user w) |} w)
    end.

Definition next_select : M (option nat) :=
  fun w =>
    match selects (user w) with
    | [] => (Returned None, w)
    | a :: rest =>
        (Returned a,
         set_user {| confirms := confirms (user w); selects := rest;
                     texts := texts (user w) |} w)
    end.

Definition next_text : M (option string) :=
  fun w =>
    match texts (user w) with
    | [] => (Returned None, w)
    | a :: rest =>
        (Returned a,
         set_user {| confirms := confirms (user w); selects := selects (user w);
                     texts := rest |} w)
    end.

Definition confirm (msg : string) : M bool :=
  say (LAsk msg) ;;
  answer <- next_confirm ;;
  handleCancel answer.

(** [options] are the values of the options. *)
Definition select (msg : string) (options : list string) : M string :=
  say (LAsk msg) ;;
  answer <- next_select ;;
  handleCancel
    (match answer with
     | None => None
     | Some n => nth_error options (Nat.modulo n (List.length options))
     end).

Definition text (msg : string) : M string :=
  say (LAsk msg) ;;
  answer <- next_text ;;
  handleCancel answer.

Definition withSpinner {A : Type} (msg : string) (fn : M A) (successMsg : string)
  : M A :=
  say (LSpinnerStart msg) ;;
  try_catch
    (result <- fn ;;
     say (LSpinnerStop (if String.eqb successMsg "" then msg else successMsg)) ;;
     ret result)
    (fun err => say (LSpinnerStop "Failed") ;; throw err).

Definition displayError (err : exn) : M unit := error (exn_message err).

Definition displayCommitMessage (msg : string) : M unit :=
  console_log "" ;; say LRule ;; console_log msg ;; say LRule ;; console_log "".

Definition displayChangelog (content : string) : M unit :=
  console_log "" ;; say LRule ;; console_log content ;; say LRule ;; console_log "".


(** ** src/services/config.ts *)

Definition DEFAULT_COMMIT_PROMPT : string :=
"# Commit Message Guidelines

Generate commit messages following the Conventional Commits specification.

## Format
<type>: <description>
[optional body]

## Types
- feat: A new feature
- fix: A bug fix
- docs: Documentation only changes
- style: Changes that do not affect the meaning of the code
- refactor: A code change that neither fixes a bug nor adds a feature
- perf: A code change that improves performance
- test: Adding missing tests or correcting existing tests
- chore: Changes to the build process or auxiliary tools

## Rules
1. Use lowercase for the type
2. No scope (use " ++ dq ++ "feat:" ++ dq ++ " not " ++ dq ++ "feat(api):" ++ dq ++ ")
3. Use imperative mood (" ++ dq ++ "add" ++ dq ++ " not " ++ dq ++ "added" ++ dq ++ ")
4. Keep the first line under 72 characters
5. Do not end the description with a period
6. Only return the commit message, no explanations
".

Definition DEFAULT_CHANGELOG_PROMPT : string :=
"# Changelog Generation Guidelines

Use the " ++ dq ++ "Keep a Changelog" ++ dq ++ " format (https://keepachangelog.com/).

## Structure
## [Version] - YYYY-MM-DD

### Added, Changed, Deprecated, Removed, Fixed, Security

## Rules
1. Group commits by type (feat -> Added, fix -> Fixed, etc.)
2. Write in past tense
3. Include commit hash in parentheses
4. Skip empty sections
5. Only return changelog content, no explanations
".

Definition update_files (f : FileSystem -> FileSystem) : M unit :=
  modify (fun w => set_files (f (files w)) w).

Definition ensureConfigDir : M unit :=
  update_files (fun f =>
    {| configDir := true; configFile := configFile f;
       commitPromptFile := commitPromptFile f;
       changelogPromptFile := changelogPromptFile f;
       historyFile := historyFile f; changelogFile := changelogFile f |}).

Definition write_config (d : document) : M unit :=
  update_files (fun f =>
    {| configDir := configDir f; configFile := Some d;
       commitPromptFile := commitPromptFile f;
       changelogPromptFile := changelogPromptFile f;
       historyFile := historyFile f; changelogFile := changelogFile f |}).

Definition write_commitPrompt (s : string) : M unit :=
  update_files (fun f =>
    {| configDir := configDir f; configFile := configFile f;
       commitPromptFile := Some s;
       changelogPromptFile := changelogPromptFile f;
       historyFile := historyFile f; changelogFile := changelogFile f |}).

Definition write_changelogPrompt (s : string) : M unit :=
  update_files (fun f =>
    {| configDir := configDir f; configFile := configFile f;
       commitPromptFile := commitPromptFile f;
       changelogPromptFile := Some s;
       historyFile := historyFile f; changelogFile := changelogFile f |}).

Definition write_history (d : document) : M unit :=
  update_files (fun f =>
    {| configDir := configDir f; configFile := configFile f;
       commitPromptFile := commitPromptFile f;
       changelogPromptFile := changelogPromptFile f;
       historyFile := Some d; changelogFile := changelogFile f |}).

Definition saveConfig (config : json) : M unit :=
  ensureConfigDir ;;
  write_config (JSON_stringify config).

Definition getConfig : M json :=
  ensureConfigDir ;;
  configPath <- gets (fun w => configFile (files w)) ;;
  match configPath with
  | None => saveConfig DEFAULT_CONFIG ;; ret DEFAULT_CONFIG
  | Some content =>
      try_catch
        (config <- lift (JSON_parse content) ;;
         ret (spread DEFAULT_CONFIG_fields config))
        (fun _ => ret DEFAULT_CONFIG)
  end.

Definition getCommitPrompt : M string :=
  ensureConfigDir ;;
  promptPath <- gets (fun w => commitPromptFile (files w)) ;;
  match promptPath with
  | None => write_commitPrompt DEFAULT_COMMIT_PROMPT ;; ret DEFAULT_COMMIT_PROMPT
  | Some content => ret content
  end.

Definition getChangelogPrompt : M string :=
  ensureConfigDir ;;
  promptPath <- gets (fun w => changelogPromptFile (files w)) ;;
  match promptPath with
  | None => write_changelogPrompt DEFAULT_CHANGELOG_PROMPT ;; ret DEFAULT_CHANGELOG_PROMPT
  | Some content => ret content
  end.

Definition getHistory : M json :=
  ensureConfigDir ;;
  historyPath <- gets (fun w => historyFile (files w)) ;;
  match historyPath with
  | None => ret (JObj [("entries", JArr [])])
  | Some content =>
      try_catch
        (lift (JSON_parse content))
        (fun _ => ret (JObj [("entries", JArr [])]))
  end.

Definition addHistoryEntry (entry : ChangelogHistoryEntry) : M unit :=
  ensureConfigDir ;;
  history <- getHistory ;;
  entries <- lift (get_prop history "entries") ;;
  unshifted <- lift (array_unshift entries (entry_json entry)) ;;
  let history' :=
    if (MAX_HISTORY_ENTRIES <? List.length unshifted)%nat
    then set_prop history "entries" (JArr (firstn MAX_HISTORY_ENTRIES unshifted))
    else set_prop history "entries" (JArr unshifted) in
  write_history (JSON_stringify history').

Definition getLastChangelogRef : M jsvalue :=
  history <- getHistory ;;
  entries <- lift (get_prop history "entries") ;;
  len <- lift (get_prop entries "length") ;;
  if strict_eq len (JNum 0) then ret (VJson JNull)
  else
    first <- lift (get_index entries 0) ;;
    lift (get_prop first "toCommitHash").

Definition changelogExists : M bool :=
  gets (fun w => match changelogFile (files w) with Some _ => true | None => false end).

Definition readChangelog : M (option string) :=
  gets (fun w => changelogFile (files w)).

Definition writeChangelog (content : string) : M unit :=
  update_files (fun f =>
    {| configDir := configDir f; configFile := configFile f;
       commitPromptFile := commitPromptFile f;
       changelogPromptFile := changelogPromptFile f;
       historyFile := historyFile f; changelogFile := Some content |}).


(** ** src/services/git.ts *)

Definition isGitRepo : M bool :=
  try_catch (git_query git_checkIsRepo) (fun _ => ret false).

Definition ensureGitRepo : M unit :=
  isRepo <- isGitRepo ;;
  if negb isRepo then
    throw (QuillError ("Not a git repository." ++ nl
                       ++ "Please run this command from within a git repository."))
  else ret tt.

Definition getStatus : M GitStatus :=
  status <- git_query git_status ;;
  ret {| staged := st_staged status;
         unstaged := filter (fun f => negb (existsb (String.eqb f) (st_staged status)))
                            (st_modified status);
         untracked := st_not_added status;
         isClean := st_isClean status |}.

Definition getStagedDiff : M string := git_query (git_diff ["--cached"]).

Definition stageAll : M unit := git_update (git_add "-A").

Definition commit (message : string) : M unit := git_update (git_commit message).

Definition to_GitCommit (entry : LogEntry) : GitCommit :=
  {| commit_hash := log_hash entry;
     commit_shortHash := slice0 7 (log_hash entry);
     commit_message := log_message entry;
     commit_author := log_author_name entry;
     commit_date := log_date entry |}.

Definition getRecentCommits (count : nat) : M (list GitCommit) :=
  log <- git_query (git_log ["-n"; nat_to_string count]) ;;
  ret (map to_GitCommit log).

Definition getCommitsBetween (from to : string) : M (list GitCommit) :=
  log <- git_query (git_log [from ++ ".." ++ to]) ;;
  ret (map to_GitCommit log).

Fixpoint resolve_tags (names : list string) : M (list GitTag) :=
  match names with
  | [] => ret []
  | name :: rest =>
      tag <- try_catch
               (hash <- git_query (git_revparse [name]) ;;
                ret {| tag_name := name; tag_hash := trim hash |})
               (fun _ => ret {| tag_name := name; tag_hash := "" |}) ;;
      others <- resolve_tags rest ;;
      ret (tag :: others)
  end.

Definition getTags : M (list GitTag) :=
  tags <- git_query (git_tags ["--sort=-creatordate"]) ;;
  resolve_tags tags.

Definition getLatestTag : M (option GitTag) :=
  tags <- getTags ;;
  ret (match tags with
       | [] => None
       | first :: _ => Some first
       end).

Definition resolveRef (ref : string) : M string :=
  hash <- git_query (git_revparse [ref]) ;;
  ret (trim hash).

Definition getFileAtRef (ref filePath : string) : M (option document) :=
  try_catch
    (content <- git_query (git_show [ref ++ ":" ++ filePath]) ;;
     ret (Some content))
    (fun _ => ret None).

(** The block that reads [version] out of the manifest text, written
    twice in [detectVersionChange]. *)
Definition manifest_version (content : option document) : M json :=
  match content with
  | Some text =>
      if document_truthy text then
        try_catch
          (pkg <- lift (JSON_parse text) ;;
           version <- lift (get_prop pkg "version") ;;
           ret (or_null version))
          (fun _ => ret JNull)
      else ret JNull
  | None => ret JNull
  end.

Definition detectVersionChange (fromRef toRef : string) : M VersionChange :=
  oldContent <- getFileAtRef fromRef "package.json" ;;
  newContent <- getFileAtRef toRef "package.json" ;;
  oldVersion <- manifest_version oldContent ;;
  newVersion <- manifest_version newContent ;;
  ret {| oldVersion := oldVersion;
         newVersion := newVersion;
         changed := negb (strict_eq oldVersion newVersion)
                    && negb (strict_eq newVersion JNull) |}.

Definition createTag (tagName : string) : M unit := git_update (git_addTag tagName).

Definition push (includeTags : bool) : M unit :=
  if includeTags then git_update (git_push ["origin"; "HEAD"; "--tags"])
  else git_update (git_push ["origin"; "HEAD"]).

Definition getFirstCommit : M (option string) :=
  try_catch
    (result <- git_query (git_raw ["rev-list"; "--max-parents=0"; "HEAD"]) ;;
     let hash := hd "" (split_on (ascii_of_nat 10) (trim result)) in
     ret (if String.eqb hash "" then None else Some hash))
    (fun _ => ret None).

Definition hasRemote : M bool :=
  try_catch
    (remotes <- git_query git_getRemotes ;;
     ret (0 <? remotes)%nat)
    (fun _ => ret false).

(** ** src/services/ai.ts *)

(** [prompt]: the session with the server is the backend's; reading the
    provider and the model off [modelConfig] is the program's. *)
Definition prompt (text : string) (modelConfig : jsvalue) : M string :=
  session <- gets (fun w => session_reply (backend w)) ;;
  lift session ;;
  provider <- lift (get_prop modelConfig "provider") ;;
  model <- lift (get_prop modelConfig "model") ;;
  reply <- gets (fun w => prompt_reply (backend w) text provider model) ;;
  lift reply.

Definition model_for (config : json) (purpose : string) : M jsvalue :=
  models <- lift (get_prop config "models") ;;
  lift (get_prop models purpose).

Definition generateCommitMessage (diff : string) : M string :=
  config <- getConfig ;;
  promptTemplate <- getCommitPrompt ;;
  let fullPrompt :=
    promptTemplate ++ nl ++ nl ++ "---" ++ nl ++ nl
    ++ "Generate a commit message for the following diff:" ++ nl ++ nl
    ++ "```diff" ++ nl ++ diff ++ nl ++ "```" in
  try_catch
    (modelConfig <- model_for config "commit" ;;
     prompt fullPrompt modelConfig)
    (fun err =>
       throw (QuillError
         ("AI generation failed: " ++ exn_message err ++ nl ++ nl
          ++ "Try again or provide a manual commit message:" ++ nl
          ++ "  quill commit " ++ dq ++ "your message here" ++ dq))).

Definition generateChangelog (commits : list (string * string)) (version : json)
  (fromRef toRef : string) : M string :=
  config <- getConfig ;;
  promptTemplate <- getChangelogPrompt ;;
  let commitList :=
    join nl (map (fun c => "- " ++ fst c ++ ": " ++ snd c) commits) in
  let versionInstruction :=
    if truthy version
    then "Use version " ++ dq ++ to_string version ++ dq ++ " for this changelog entry."
    else "Use " ++ dq ++ "[Unreleased]" ++ dq ++ " as the version header." in
  let fullPrompt :=
    promptTemplate ++ nl ++ nl ++ "---" ++ nl ++ nl
    ++ "Generate a changelog for the following commits (from " ++ fromRef
    ++ " to " ++ toRef ++ "):" ++ nl ++ nl
    ++ "IMPORTANT: " ++ versionInstruction ++ nl ++ nl ++ commitList in
  try_catch
    (modelConfig <- model_for config "changelog" ;;
     prompt fullPrompt modelConfig)
    (fun err =>
       throw (QuillError ("AI changelog generation failed: " ++ exn_message err))).

Definition mergeChangelog (existing newEntry : string) : M string :=
  config <- getConfig ;;
  let fullPrompt :=
    "Merge the following new changelog entry into the existing CHANGELOG.md." ++ nl
    ++ nl ++ "Rules:" ++ nl
    ++ "1. Preserve the existing structure and header" ++ nl
    ++ "2. Add the new entry in the correct chronological position (newest at top, after header)" ++ nl
    ++ "3. Avoid duplicate entries" ++ nl
    ++ "4. If the new entry is " ++ dq ++ "[Unreleased]" ++ dq
    ++ ", replace any existing " ++ dq ++ "[Unreleased]" ++ dq ++ " section" ++ nl
    ++ "5. Return only the merged changelog content, no explanations" ++ nl ++ nl
    ++ "Existing CHANGELOG.md:" ++ nl ++ "```markdown" ++ nl ++ existing ++ nl
    ++ "```" ++ nl ++ nl
    ++ "New entry to add:" ++ nl ++ "```markdown" ++ nl ++ newEntry ++ nl ++ "```" in
  try_catch
    (modelConfig <- model_for config "changelog" ;;
     prompt fullPrompt modelConfig)
    (fun err =>
       throw (QuillError ("AI changelog merge failed: " ++ exn_message err))).

Definition listProviders : M (list Provider) :=
  reply <- gets (fun w => providers_reply (backend w)) ;;
  lift reply.

(** ** src/utils/version.ts (continued) *)

Definition detectTagPrefix : M string :=
  tags <- getTags ;;
  match tags with
  | [] => ret "v"
  | _ :: _ =>
      let withV := List.length (filter (fun t => startsWith "v" (tag_name t)) tags) in
      let withoutV :=
        List.length (filter (fun t => negb (startsWith "v" (tag_name t))) tags) in
      ret (if (withoutV <=? withV)%nat then "v" else "")
  end.


(** ** src/cli/commands/changelog.ts *)

(** [lastRef.slice(0, 7)]: strings and arrays have the method. *)
Definition slice_hint (lastRef : jsvalue) : result unit :=
  match lastRef with
  | VJson (JStr _) | VJson (JArr _) => inr tt
  | VUndefined => inl (TypeError "Cannot read properties of undefined (reading 'slice')")
  | VJson JNull => inl (TypeError "Cannot read properties of null (reading 'slice')")
  | VJson _ => inl (TypeError "lastRef.slice is not a function")
  end.

(** Returns [None] for [undefined]. *)
Definition selectFromRef : M (option string) :=
  lastRef <- getLastChangelogRef ;;
  tags <- getTags ;;
  recentCommits <- getRecentCommits 20 ;;
  sinceLast <- (if truthy lastRef then
                  lift (slice_hint lastRef) ;;
                  ret ["commit:" ++ value_to_string lastRef]
                else ret []) ;;
  let options :=
    (sinceLast
     ++ map (fun tag => "tag:" ++ tag_name tag)%string (firstn 10 tags)
     ++ map (fun c => "commit:" ++ commit_hash c)%string (firstn 10 recentCommits))%list in
  match options with
  | [] => getFirstCommit
  | _ :: _ =>
      selected <- select "Select starting reference:" options ;;
      ret (nth_error (split_on ":" selected) 1)
  end.

Definition saveChangelog (newContent : string) : M unit :=
  existing <- readChangelog ;;
  if str_truthy existing then
    shouldMerge <- confirm "CHANGELOG.md exists. Merge new content?" ;;
    if shouldMerge then
      merged <- withSpinner "Merging changelog..."
                  (mergeChangelog (match existing with Some e => e | None => "" end)
                                  newContent)
                  "Merged changelog" ;;
      writeChangelog merged ;;
      success "Saved to CHANGELOG.md (merged)"
    else
      overwrite <- confirm "Overwrite existing file?" ;;
      if overwrite then
        writeChangelog newContent ;;
        success "Saved to CHANGELOG.md (overwritten)"
      else warn "Changelog not saved."
  else
    writeChangelog newContent ;;
    success "Saved to CHANGELOG.md".

Definition recordHistory (fromRef toRef : string) (count : nat) : M unit :=
  toHash <- resolveRef toRef ;;
  now <- gets clock ;;
  addHistoryEntry {| timestamp := now; fromRef := fromRef; toRef := toRef;
                     toCommitHash := toHash; commitsIncluded := count |}.

(** [copyToClipboard] of src/utils/clipboard: whether the copy works is a
    fact of the machine. *)
Definition copyToClipboard (content : string) : M bool := gets clipboard.

(** The menu [while (!done)].  Every turn takes one answer of the user,
    and a user without answers cancels, so [fuel] turns are enough when
    [fuel] is the number of answers left. *)
Fixpoint changelog_menu (fuel : nat) (changelog fromRef toRef : string)
  (count : nat) : M unit :=
  action <- select "What would you like to do?" ["save"; "copy"; "done"] ;;
  let again :=
    match fuel with
    | O => ret tt
    | S fuel' => changelog_menu fuel' changelog fromRef toRef count
    end in
  if String.eqb action "save" then
    saveChangelog changelog ;;
    recordHistory fromRef toRef count
  else if String.eqb action "copy" then
    copied <- copyToClipboard changelog ;;
    (if copied then success "Copied to clipboard!"
     else warn "Failed to copy to clipboard.") ;;
    again
  else if String.eqb action "done" then ret tt
  else again.

Definition changelog_toRef (options : ChangelogOptions) : string :=
  if str_truthy (cl_to options)
  then match cl_to options with Some t => t | None => "HEAD" end
  else "HEAD".

(** Lines 36 to 49 of [changelogCommand]: the starting reference, or
    [None] when the command has returned for want of one. *)
Definition changelogCommand_fromRef (options : ChangelogOptions)
  : M (option string) :=
  intro ;;
  ensureGitRepo ;;
  if negb (str_truthy (cl_from options)) then
    selected <- selectFromRef ;;
    if negb (str_truthy selected) then
      warn "No starting reference selected." ;; ret None
    else ret selected
  else ret (cl_from options).

(** Lines 51 to 114 of [changelogCommand]. *)
Definition changelogCommand_range (fromRef toRef : string) : M unit :=
  info ("Generating changelog from " ++ fromRef ++ " to " ++ toRef) ;;
  commits <- getCommitsBetween fromRef toRef ;;
  match commits with
  | [] => warn "No commits found in the specified range."
  | _ :: _ =>
      info ("Found " ++ nat_to_string (List.length commits) ++ " commits") ;;
      versionChange <- detectVersionChange fromRef toRef ;;
      let version :=
        if changed versionChange then newVersion versionChange else JNull in
      changelog <- withSpinner "Generating changelog..."
                     (generateChangelog
                        (map (fun c => (commit_shortHash c, commit_message c)) commits)
                        version fromRef toRef)
                     "Generated changelog" ;;
      displayChangelog changelog ;;
      answers <- gets (fun w => List.length (selects (user w))) ;;
      changelog_menu answers changelog fromRef toRef (List.length commits) ;;
      outro "Done!"
  end.

Definition changelogCommand (options : ChangelogOptions) : M unit :=
  fromRef <- changelogCommand_fromRef options ;;
  match fromRef with
  | None => ret tt
  | Some fromRef => changelogCommand_range fromRef (changelog_toRef options)
  end.

Definition generateAndSaveChangelog (fromRef toRef : string) (version : json)
  : M string :=
  commits <- getCommitsBetween fromRef toRef ;;
  match commits with
  | [] => ret ""
  | _ :: _ =>
      changelog <- generateChangelog
                     (map (fun c => (commit_shortHash c, commit_message c)) commits)
                     version fromRef toRef ;;
      existing <- readChangelog ;;
      (if str_truthy existing then
         merged <- mergeChangelog (match existing with Some e => e | None => "" end)
                                  changelog ;;
         writeChangelog merged
       else writeChangelog changelog) ;;
      toHash <- resolveRef toRef ;;
      now <- gets clock ;;
      addHistoryEntry {| timestamp := now; fromRef := fromRef; toRef := toRef;
                         toCommitHash := toHash;
                         commitsIncluded := List.length commits |} ;;
      ret changelog
  end.

(** ** src/cli/commands/config.ts *)

Definition showCurrentConfig : M unit :=
  config <- getConfig ;;
  info "Current configuration:" ;;
  console_log "" ;;
  commitModel' <- model_for config "commit" ;;
  commitProvider <- lift (get_prop commitModel' "provider") ;;
  commitName <- lift (get_prop commitModel' "model") ;;
  console_log ("  Commit model:    " ++ value_to_string commitProvider ++ "/"
               ++ value_to_string commitName) ;;
  changelogModel' <- model_for config "changelog" ;;
  changelogProvider <- lift (get_prop changelogModel' "provider") ;;
  changelogName <- lift (get_prop changelogModel' "model") ;;
  console_log ("  Changelog model: " ++ value_to_string changelogProvider ++ "/"
               ++ value_to_string changelogName) ;;
  console_log "" ;;
  message "Use --commit-model or --changelog-model to change settings." ;;
  message "Use --list-models to see available providers and models.".

Fixpoint print_lines (lines : list string) : M unit :=
  match lines with
  | [] => ret tt
  | l :: rest => console_log l ;; print_lines rest
  end.

Definition provider_lines (provider : Provider) : list string :=
  (["  " ++ provider_name provider ++ " (" ++ provider_id provider ++ "):"]%string
   ++ (match provider_models provider with
       | [] => ["    No models available"]
       | models =>
           map (fun model => "    - " ++ provider_id provider ++ "/" ++ model)%string
               (firstn 10 models)
           ++ (if (10 <? List.length models)%nat
               then ["    ... and " ++ nat_to_string (List.length models - 10)
                     ++ " more"]%string
               else [])
       end)
   ++ [""])%list.

Definition showAvailableModels : M unit :=
  providers <- withSpinner "Fetching available providers..." listProviders
                 "Fetched providers" ;;
  match providers with
  | [] => warn "No providers available. Make sure OpenCode is configured."
  | _ :: _ =>
      info "Available providers and models:" ;;
      console_log "" ;;
      print_lines (flat_map provider_lines providers)
  end.

Definition parseModelString (modelString : string) : option (string * string) :=
  let parts := split_on "/" modelString in
  if (List.length parts <? 2)%nat then None
  else Some (hd "" parts, join "/" (tl parts)).

Definition model_json (parsed : string * string) : json :=
  JObj [("provider", JStr (fst parsed)); ("model", JStr (snd parsed))].

(** [config.models.k = parsed] (the module is strict code: assigning to a
    property of a primitive throws).  Returns the configuration as
    [JSON.stringify] will see it. *)
Definition assign_model (config : json) (k : string) (parsed : string * string)
  : result json :=
  match get_prop config "models" with
  | inl e => inl e
  | inr VUndefined =>
      inl (TypeError ("Cannot set properties of undefined (setting '" ++ k ++ "')"))
  | inr (VJson JNull) =>
      inl (TypeError ("Cannot set properties of null (setting '" ++ k ++ "')"))
  | inr (VJson (JObj fs)) =>
      inr (set_prop config "models" (JObj (assoc_set k (model_json parsed) fs)))
  | inr (VJson (JArr _)) => inr config
  | inr (VJson _) => inl (TypeError ("Cannot create property '" ++ k ++ "'"))
  end.

(** One [if (options.xModel) { ... }] block of [updateModels]; [None] when
    the function has returned. *)
Definition update_model (label k : string) (option' : option string) (config : json)
  : M (option json) :=
  if str_truthy option' then
    let modelString := match option' with Some m => m | None => "" end in
    match parseModelString modelString with
    | None =>
        error ("Invalid model format: " ++ dq ++ modelString ++ dq) ;;
        info "Expected format: provider/model (e.g., anthropic/claude-sonnet-4-5)" ;;
        ret None
    | Some parsed =>
        config' <- lift (assign_model config k parsed) ;;
        success (label ++ " model set to: " ++ fst parsed ++ "/" ++ snd parsed) ;;
        ret (Some config')
    end
  else ret (Some config).

Definition updateModels (options : ConfigOptions) : M unit :=
  config <- getConfig ;;
  config1 <- update_model "Commit" "commit" (commitModel options) config ;;
  match config1 with
  | None => ret tt
  | Some config1 =>
      config2 <- update_model "Changelog" "changelog" (changelogModel options)
                   config1 ;;
      match config2 with
      | None => ret tt
      | Some config2 =>
          saveConfig config2 ;;
          info "Configuration saved to .quill/config.json"
      end
  end.

Definition configCommand (options : ConfigOptions) : M unit :=
  intro ;;
  if listModels options then
    showAvailableModels ;; outro "Done!"
  else if str_truthy (commitModel options) || str_truthy (changelogModel options) then
    updateModels options ;; outro "Done!"
  else
    showCurrentConfig ;; outro "Done!".


(** ** src/cli/commands/release.ts *)

Definition handleCommit (options : ReleaseOptions) : M unit :=
  status <- getStatus ;;
  if isClean status then info "Working tree clean, skipping commit step."
  else
    let hasUnstaged :=
      (0 <? List.length (unstaged status))%nat
      || (0 <? List.length (untracked status))%nat in
    let hasStaged := (0 <? List.length (staged status))%nat in
    (** [None]: the function has returned. *)
    status' <-
      (if hasUnstaged && negb hasStaged then
         shouldStage <- (if rel_yes options then ret true
                         else confirm "Stage all changes?") ;;
         if shouldStage then
           stageAll ;; status1 <- getStatus ;; ret (Some status1)
         else
           warn "Skipping commit (no staged changes)." ;; ret None
       else if hasUnstaged && hasStaged then
         stageRest <- (if rel_yes options then ret true
                       else confirm "Stage remaining unstaged changes?") ;;
         if stageRest then
           stageAll ;; status1 <- getStatus ;; ret (Some status1)
         else ret (Some status)
       else ret (Some status)) ;;
    match status' with
    | None => ret tt
    | Some status =>
        if (List.length (staged status) =? 0)%nat then info "Nothing to commit."
        else
          diff <- getStagedDiff ;;
          commitMessage <- withSpinner "Generating commit message..."
                             (generateCommitMessage diff)
                             "Generated commit message" ;;
          displayCommitMessage commitMessage ;;
          shouldCommit <- (if rel_yes options then ret true
                           else confirm "Commit with this message?") ;;
          if shouldCommit then
            commit commitMessage ;;
            success "Changes committed."
          else warn "Commit skipped."
    end.

(** Lines 118 to 134 of [handleChangelog]: the starting reference. *)
Definition handleChangelog_fromRef (options : ReleaseOptions) : M string :=
  if negb (str_truthy (rel_from options)) then
    latestTag <- getLatestTag ;;
    match latestTag with
    | Some latestTag =>
        info ("Using latest tag as starting point: " ++ tag_name latestTag) ;;
        ret (tag_name latestTag)
    | None =>
        first <- getFirstCommit ;;
        if str_truthy first then
          info "No tags found, using first commit." ;;
          ret (match first with Some f => f | None => "" end)
        else throw (Error "Could not determine starting reference.")
    end
  else ret (match rel_from options with Some f => f | None => "" end).

(** Lines 138 to 157 of [handleChangelog]: the version. *)
Definition handleChangelog_version (options : ReleaseOptions) (fromRef toRef : string)
  : M json :=
  if negb (str_truthy (rel_version options)) then
    versionChange <- detectVersionChange fromRef toRef ;;
    if changed versionChange && truthy (newVersion versionChange) then
      info ("Detected version from package.json: "
            ++ to_string (newVersion versionChange)) ;;
      ret (newVersion versionChange)
    else
      version <- text "Enter version for this release:" ;;
      (if negb (isValidVersion version) then
         warn (dq ++ version ++ dq ++ " doesn't look like a valid semver version.") ;;
         proceed <- confirm "Continue anyway?" ;;
         if negb proceed then throw (Error "Release cancelled.") else ret tt
       else ret tt) ;;
      ret (JStr version)
  else ret (JStr (match rel_version options with Some v => v | None => "" end)).

(** Lines 159 to 175 of [handleChangelog]. *)
Definition handleChangelog_save (fromRef toRef : string) (version : json)
  : M (string * json) :=
  info ("Generating changelog for version " ++ to_string version) ;;
  changelog <- withSpinner "Generating and saving changelog..."
                 (generateAndSaveChangelog fromRef toRef version)
                 "Changelog saved to CHANGELOG.md" ;;
  (if negb (String.eqb changelog "") then
     stageAll ;;
     stripped <- lift (replace_leading_v version) ;;
     let releaseMessage := "chore(release): v" ++ stripped in
     commit releaseMessage ;;
     success ("Committed changelog: " ++ releaseMessage)
   else ret tt) ;;
  ret (fromRef, version).

Definition handleChangelog (options : ReleaseOptions) : M (string * json) :=
  fromRef <- handleChangelog_fromRef options ;;
  let toRef := "HEAD" in
  version <- handleChangelog_version options fromRef toRef ;;
  handleChangelog_save fromRef toRef version.

Definition handleTag (version : json) (options : ReleaseOptions) : M unit :=
  prefix <- detectTagPrefix ;;
  stripped <- lift (replace_leading_v version) ;;
  let tagName := prefix ++ stripped in
  shouldTag <- (if rel_tag options || rel_yes options then ret true
                else confirm ("Create tag " ++ dq ++ tagName ++ dq ++ "?")) ;;
  if shouldTag then
    createTag tagName ;;
    success ("Created tag: " ++ tagName)
  else warn "Tag creation skipped.".

Definition handlePush (options : ReleaseOptions) : M unit :=
  hasOrigin <- hasRemote ;;
  if negb hasOrigin then warn "No remote configured. Skipping push."
  else
    shouldPush <- (if rel_push options || rel_yes options then ret true
                   else confirm "Push to remote (with tags)?") ;;
    if shouldPush then
      withSpinner "Pushing to remote..." (push true) "Pushed to remote" ;;
      success "Pushed commits and tags to remote."
    else warn "Push skipped.".

Definition releaseCommand (options : ReleaseOptions) : M unit :=
  intro ;;
  ensureGitRepo ;;
  step "Step 1: Commit pending changes" ;;
  handleCommit options ;;
  step "Step 2: Generate changelog" ;;
  released <- handleChangelog options ;;
  let version := snd released in
  step "Step 3: Create release tag" ;;
  handleTag version options ;;
  step "Step 4: Push to remote" ;;
  handlePush options ;;
  outro ("Released " ++ to_string version ++ "!").

(** ** src/cli/program.ts and src/index.ts *)

(** The sub-commands embedded here ([commit] is not). *)
Inductive Command : Type :=
| Changelog (options : ChangelogOptions)
| Release (options : ReleaseOptions)
| Config (options : ConfigOptions).

Definition parseAsync (argv : Command) : M unit :=
  match argv with
  | Changelog options => changelogCommand options
  | Release options => releaseCommand options
  | Config options => configCommand options
  end.

Definition main (argv : Command) : M unit :=
  try_catch (parseAsync argv)
    (fun err => displayError err ;; process_exit 1).

(** The exit code of the process: that of [process.exit], and 0 when
    [main] returns. *)
Definition exit_code (o : outcome unit) : Z :=
  match o with
  | Returned _ => 0
  | Exited code => code
  | Thrown _ => 1
  end.

End Quill.

(** ** A repository given by its answers

    An instance of the git collaborator for concrete runs: every query is
    answered from a table, and the commands that change the repository are
    written to a journal. *)

Record Scripted : Type := {
  s_isRepo : bool;
  s_status : StatusResult;
  s_diff : string;
  s_log : list (string * list LogEntry);
  s_tags : list string;
  s_revparse : list (string * string);
  s_show : list (string * document);
  s_roots : option string;
  s_remotes : nat;
  s_journal : list string }.

Definition journal (entry : string) (r : Scripted) : Scripted :=
  {| s_isRepo := s_isRepo r; s_status := s_status r; s_diff := s_diff r;
     s_log := s_log r; s_tags := s_tags r; s_revparse := s_revparse r;
     s_show := s_show r; s_roots := s_roots r; s_remotes := s_remotes r;
     s_journal := (s_journal r ++ [entry])%list |}.

Definition table_get {A : Type} (what : string) (args : list string)
  (table : list (string * A)) : result A :=
  match assoc_get (join " " args) table with
  | Some a => inr a
  | None => inl (Error ("fatal: " ++ what ++ " " ++ join " " args))
  end.

#[global] Instance Scripted_git : SimpleGit Scripted := {
  git_checkIsRepo r := inr (s_isRepo r);
  git_status r := inr (s_status r);
  git_diff _ r := inr (s_diff r);
  git_add arg r := inr (journal ("add " ++ arg) r);
  git_commit message r := inr (journal ("commit " ++ message) r);
  git_log args r := table_get "bad revision" args (s_log r);
  git_tags _ r := inr (s_tags r);
  git_revparse args r := table_get "bad revision" args (s_revparse r);
  git_show args r := table_get "path does not exist" args (s_show r);
  git_addTag name r := inr (journal ("tag " ++ name) r);
  git_push args r := inr (journal ("push " ++ join " " args) r);
  git_raw args r :=
    match s_roots r with
    | Some root => inr root
    | None => inl (Error "fatal: bad revision 'HEAD'")
    end;
  git_getRemotes r := inr (s_remotes r) }.

Definition empty_files : FileSystem :=
  {| configDir := false; configFile := None; commitPromptFile := None;
     changelogPromptFile := None; historyFile := None; changelogFile := None |}.

Definition silent_backend : Backend :=
  {| session_reply := inr tt;
     prompt_reply := fun text _ _ => inr "## [Unreleased]";
     providers_reply := inr [] |}.

Definition no_answers : User := {| confirms := []; selects := []; texts := [] |}.

Definition clean_status : StatusResult :=
  {| st_staged := []; st_modified := []; st_not_added := []; st_isClean := true |}.

Definition empty_repo : Scripted :=
  {| s_isRepo := true; s_status := clean_status; s_diff := ""; s_log := [];
     s_tags := []; s_revparse := [("HEAD", "abc1234def")]; s_show := [];
     s_roots := None; s_remotes := 0; s_journal := [] |}.

Definition world_of (f : FileSystem) (r : Scripted) (u : User) : World :=
  {| files := f; repo := r; user := u; backend := silent_backend;
     clock := "2026-01-01T00:00:00.000Z"; clipboard := true; printed := [] |}.

(** Concrete inputs for the examples. *)

Definition sample_world : World := world_of empty_files empty_repo no_answers.

Definition sample_entry (fromRef' hash : string) : ChangelogHistoryEntry :=
  {| timestamp := "2026-01-01T00:00:00.000Z"; fromRef := fromRef'; toRef := "HEAD";
     toCommitHash := hash; commitsIncluded := 2 |}.

(** The history file holds [{}]. *)
Definition files_history_object : FileSystem :=
  {| configDir := true; configFile := None; commitPromptFile := None;
     changelogPromptFile := None; historyFile := Some (Wellformed (JObj []));
     changelogFile := None |}.

(** The configuration file holds [{"models": {"commit": {...}}}]. *)
Definition partial_config : json :=
  JObj [("models",
         JObj [("commit",
                JObj [("provider", JStr "anthropic");
                      ("model", JStr "claude-sonnet-4-5")])])].

Definition files_partial_config : FileSystem :=
  {| configDir := true; configFile := Some (Wellformed partial_config);
     commitPromptFile := None; changelogPromptFile := None; historyFile := None;
     changelogFile := None |}.

Definition manifest (version : string) : document :=
  Wellformed (JObj [("name", JStr "quill"); ("version", JStr version)]).

(** Tags [v1.0.0] and [1.0.0]: the manifest of the first declares
    [v1.0.0], that of the second [1.0.0]; the manifest of [HEAD] declares
    [1.1.0], and the commit [old] has no manifest. *)
Definition tagged_repo : Scripted :=
  {| s_isRepo := true; s_status := clean_status; s_diff := "";
     s_log := [("v1.0.0..HEAD",
                [{| log_hash := "1111111aaaa"; log_message := "feat: x";
                    log_author_name := "a"; log_date := "d" |}])];
     s_tags := ["1.0.0"; "v1.0.0"];
     s_revparse := [("HEAD", "abc1234def"); ("v1.0.0", "0000000"); ("1.0.0", "0000001")];
     s_show := [("v1.0.0:package.json", manifest "v1.0.0");
                ("1.0.0:package.json", manifest "1.0.0");
                ("HEAD:package.json", manifest "1.1.0")];
     s_roots := Some "root0000"; s_remotes := 1; s_journal := [] |}.

Definition tagged_world : World := world_of empty_files tagged_repo no_answers.

Definition release_plain : ReleaseOptions :=
  {| rel_from := None; rel_version := None; rel_tag := false; rel_push := false;
     rel_yes := false |}.

(** The user types a version, and says yes once. *)
Definition typing_world (version : string) : World :=
  world_of empty_files empty_repo
    {| confirms := [Some true]; selects := []; texts := [Some version] |}.

Definition changelog_from_abc123 : ChangelogOptions :=
  {| cl_from := Some "abc123"; cl_to := Some "HEAD" |}.

(** A repository where [abc123] is the commit of [HEAD]: the range from
    one to the other has no commit. *)
Definition idle_repo : Scripted :=
  {| s_isRepo := true; s_status := clean_status; s_diff := "";
     s_log := [("abc123..HEAD", [])]; s_tags := [];
     s_revparse := [("HEAD", "abc1234def"); ("abc123", "abc1234def")];
     s_show := []; s_roots := Some "0000000aaa"; s_remotes := 0; s_journal := [] |}.

Definition idle_world : World := world_of empty_files idle_repo no_answers.

Definition config_commit_model (model : string) : ConfigOptions :=
  {| commitModel := Some model; changelogModel := None; listModels := false |}.

(** One tag [v1.0.0] and two commits after it; the manifest went from
    [1.0.0] to [1.1.0]; there is a remote. *)
Definition bumped_repo : Scripted :=
  {| s_isRepo := true; s_status := clean_status; s_diff := "";
     s_log := [("v1.0.0..HEAD",
                [{| log_hash := "2222222bbbb"; log_message := "chore: bump version";
                    log_author_name := "dev"; log_date := "2026-01-02" |};
                 {| log_hash := "1111111aaaa"; log_message := "feat: add picker";
                    log_author_name := "dev"; log_date := "2026-01-01" |}])];
     s_tags := ["v1.0.0"];
     s_revparse := [("HEAD", "2222222bbbb"); ("v1.0.0", "0000000aaaa")];
     s_show := [("v1.0.0:package.json", manifest "1.0.0");
                ("HEAD:package.json", manifest "1.1.0")];
     s_roots := Some "0000000aaaa"; s_remotes := 1; s_journal := [] |}.

(** The user accepts the tag and the push. *)
Definition bumped_world : World :=
  world_of empty_files bumped_repo
    {| confirms := [Some true; Some true]; selects := []; texts := [] |}.

(** ** Observations used by the properties *)

Section Observations.

Context {Repo : Type} {git : SimpleGit Repo}.

(** The entries a load of the history finds, when the persisted history
    is absent, unparseable, or an object whose [entries] is an array. *)
Definition stored_entries (w : @World Repo) : option (list json) :=
  match historyFile (files w) with
  | None => Some []
  | Some (Malformed _) => Some []
  | Some (Wellformed (JObj fs)) =>
      match assoc_get "entries" fs with
      | Some (JArr l) => Some l
      | _ => None
      end
  | Some (Wellformed _) => None
  end.


(** The manifest of a reference, as [git show] gives it. *)
Definition file_at (r : Repo) (ref path : string) : option document :=
  match git_show [ref ++ ":" ++ path] r with
  | inr content => Some content
  | inl _ => None
  end.

(** The version a manifest text declares: the truthy [version] property
    of the parsed text, and [JNull] when there is no text, it does not
    parse, or it has no such property. *)
Definition version_of (content : option document) : json :=
  match content with
  | Some text =>
      if document_truthy text then
        match JSON_parse text with
        | inr pkg =>
            match get_prop pkg "version" with
            | inr version => or_null version
            | inl _ => JNull
            end
        | inl _ => JNull
        end
      else JNull
  | None => JNull
  end.

Definition declared_version (r : Repo) (ref : string) : json :=
  version_of (file_at r ref "package.json").

(** Numbers, strings, booleans and [null]: the values [===] compares by
    what they are. *)
Definition primitive (j : json) : bool :=
  match j with
  | JArr _ | JObj _ => false
  | _ => true
  end.

(** The tags of the repository, newest first, as [getTags] resolves them. *)
Definition tags_of (r : Repo) : result (list GitTag) :=
  match git_tags ["--sort=-creatordate"] r with
  | inl e => inl e
  | inr names =>
      inr (map (fun name =>
                  {| tag_name := name;
                     tag_hash := match git_revparse [name] r with
                                 | inr hash => trim hash
                                 | inl _ => ""
                                 end |})
               names)
  end.

(** The root commit of the repository, if it has one. *)
Definition first_commit (r : Repo) : option string :=
  match git_raw ["rev-list"; "--max-parents=0"; "HEAD"] r with
  | inr out =>
      let hash := hd "" (split_on (ascii_of_nat 10) (trim out)) in
      if String.eqb hash "" then None else Some hash
  | inl _ => None
  end.

(** The starting reference in the words of the specification: the
    explicit option, else the latest tag, else the first commit of the
    repository, else none (the hard failure). *)
Definition starting_reference (from latestTag firstCommit : option string)
  : option string :=
  if str_truthy from then from
  else match latestTag with
       | Some name => Some name
       | None => firstCommit
       end.

(** The version that [handleChangelog] detects between two references,
    if it detects one. *)
Definition detected_version (r : Repo) (fromRef toRef : string) : option json :=
  let old := declared_version r fromRef in
  let new := declared_version r toRef in
  if negb (strict_eq old new) && negb (strict_eq new JNull) && truthy new
  then Some new else None.

(** The lines printed between two states of the world. *)
Definition printed_since (w w' : @World Repo) : list line :=
  skipn (List.length (printed w)) (printed w').

Definition answered_text (rest : list (option string)) (w : @World Repo)
  : @World Repo :=
  set_user {| confirms := confirms (user w); selects := selects (user w);
              texts := rest |} w.

Definition answered_confirm (rest : list (option bool)) (w : @World Repo)
  : @World Repo :=
  set_user {| confirms := rest; selects := selects (user w);
              texts := texts (user w) |} w.

(** Whether a model string has the separator of provider and model. *)
Fixpoint has_slash (s : string) : bool :=
  match s with
  | EmptyString => false
  | String a rest => Ascii.eqb a "/" || has_slash rest
  end.

(** The configuration a load gives for the files [f], and the files after
    the load (which makes the directory, and the default configuration
    when there is none). *)
Definition loaded_config (f : FileSystem) : json :=
  match configFile f with
  | None => DEFAULT_CONFIG
  | Some content =>
      match JSON_parse content with
      | inr config => spread DEFAULT_CONFIG_fields config
      | inl _ => DEFAULT_CONFIG
      end
  end.

Definition after_getConfig (f : FileSystem) : FileSystem :=
  {| configDir := true;
     configFile := match configFile f with
                   | None => Some (Wellformed DEFAULT_CONFIG)
                   | Some content => Some content
                   end;
     commitPromptFile := commitPromptFile f;
     changelogPromptFile := changelogPromptFile f;
     historyFile := historyFile f;
     changelogFile := changelogFile f |}.

(** A computation that leaves [CHANGELOG.md] and the history file as they
    are, however it ends. *)
Definition keeps_documents {A : Type} (m : @M Repo A) : Prop :=
  forall w,
    changelogFile (files (snd (m w))) = changelogFile (files w) /\
    historyFile (files (snd (m w))) = historyFile (files w).

(** [releaseCommand] up to the call of [handleChangelog]. *)
Definition release_until_changelog (options : ReleaseOptions) : @M Repo unit :=
  bind intro (fun _ =>
  bind ensureGitRepo (fun _ =>
  bind (step "Step 1: Commit pending changes") (fun _ =>
  bind (handleCommit options) (fun _ =>
  step "Step 2: Generate changelog")))).

End Observations.

(** ** src/services/ai.ts: the clean-up of a response *)

Definition string_rev (s : string) : string := rev_string s "".

Fixpoint drop_word (s : string) : string :=
  match s with
  | EmptyString => EmptyString
  | String a rest => if is_word a then drop_word rest else s
  end.

Definition drop_newline (s : string) : string :=
  match s with
  | EmptyString => EmptyString
  | String a rest => if Ascii.eqb a (ascii_of_nat 10) then rest else s
  end.

Definition drop3 (s : string) : string := slice1 (slice1 (slice1 s)).

(** [text.replace(/^```[\w]*\n?/, "")] *)
Definition strip_fence_open (text : string) : string :=
  if startsWith "```" text then drop_newline (drop_word (drop3 text)) else text.

(** [text.replace(/\n?```$/, "")]: the pattern is looked for at the end
    of the text, so the text is read from its end. *)
Definition strip_fence_close (text : string) : string :=
  let backwards := string_rev text in
  if startsWith "```" backwards
  then string_rev (drop_newline (drop3 backwards))
  else text.

Definition cleanupResponse (text : string) : string :=
  trim (strip_fence_close (strip_fence_open text)).

(** ** src/cli/commands/commit.ts *)

Record CommitOptions : Type := {
  commit_all : bool;
  commit_yes : bool }.

Section QuillCommit.

Context {Repo : Type} {git : SimpleGit Repo}.

Notation "x <- c1 ;; c2" := (bind c1 (fun x => c2))
  (at level 61, c1 at next level, right associativity).
Notation "c1 ;; c2" := (bind c1 (fun _ => c2))
  (at level 61, right associativity).

(** [message.split("\n")[0]] *)
Definition first_line (message : string) : string :=
  hd "" (split_on (ascii_of_nat 10) message).

(** The menu [while (!done)] of [commitCommand], with the message that
    will be committed.  As in the menu of the changelog command, every
    turn takes one answer of the user. *)
Fixpoint commit_menu (fuel : nat) (finalMessage : string) : @M Repo unit :=
  action <- select "What would you like to do?"
              ["commit"; "edit"; "regenerate"; "cancel"] ;;
  let again (message : string) :=
    match fuel with
    | O => ret tt
    | S fuel' => commit_menu fuel' message
    end in
  if String.eqb action "commit" then
    commit finalMessage ;;
    success ("Committed: " ++ first_line finalMessage)
  else if String.eqb action "edit" then
    edited <- text "Edit commit message:" ;;
    displayCommitMessage edited ;;
    again edited
  else if String.eqb action "regenerate" then
    diff <- getStagedDiff ;;
    regenerated <- withSpinner "Regenerating commit message..."
                     (generateCommitMessage diff)
                     "Regenerated commit message" ;;
    displayCommitMessage regenerated ;;
    again regenerated
  else if String.eqb action "cancel" then warn "Commit cancelled."
  else again finalMessage.

(** Lines 27 to 58 of [commitCommand]: the status with which the command
    goes on, or [None] when it has returned. *)
Definition commitCommand_staged (options : CommitOptions)
  : @M Repo (option GitStatus) :=
  intro ;;
  ensureGitRepo ;;
  status0 <- getStatus ;;
  status <- (if commit_all options then stageAll ;; getStatus else ret status0) ;;
  if (List.length (staged status) =? 0)%nat then
    let hasUnstaged :=
      (0 <? List.length (unstaged status))%nat
      || (0 <? List.length (untracked status))%nat in
    if hasUnstaged then
      shouldStage <- (if commit_yes options then ret true
                      else confirm "No staged changes. Stage all changes?") ;;
      if shouldStage then
        stageAll ;; status1 <- getStatus ;; ret (Some status1)
      else
        warn "Nothing to commit." ;; ret None
    else
      info "Nothing to commit, working tree clean." ;; ret None
  else ret (Some status).

(** Lines 60 to 79 of [commitCommand]: the message, or [None] when the
    command has returned. *)
Definition commitCommand_message (message : option string) (status : GitStatus)
  : @M Repo (option string) :=
  info ("Staged files: " ++ nat_to_string (List.length (staged status))) ;;
  if str_truthy message then ret message
  else
    diff <- getStagedDiff ;;
    if String.eqb (trim diff) "" then
      warn "No diff content found for staged files." ;; ret None
    else
      generated <- withSpinner "Generating commit message..."
                     (generateCommitMessage diff)
                     "Generated commit message" ;;
      ret (Some generated).

(** Lines 81 to 135 of [commitCommand]. *)
Definition commitCommand_commit (options : CommitOptions) (commitMessage : string)
  : @M Repo unit :=
  displayCommitMessage commitMessage ;;
  if commit_yes options then
    commit commitMessage ;;
    success ("Committed: " ++ first_line commitMessage) ;;
    outro "Done!"
  else
    answers <- gets (fun w => List.length (selects (user w))) ;;
    commit_menu answers commitMessage ;;
    outro "Done!".

Definition commitCommand (message : option string) (options : CommitOptions)
  : @M Repo unit :=
  status <- commitCommand_staged options ;;
  match status with
  | None => ret tt
  | Some status =>
      commitMessage <- commitCommand_message message status ;;
      match commitMessage with
      | None => ret tt
      | Some commitMessage => commitCommand_commit options commitMessage
      end
  end.

(** [main] when the arguments are those of the [commit] sub-command (or
    of the default action, which is the same). *)
Definition main_commit (message : option string) (options : CommitOptions)
  : @M Repo unit :=
  try_catch (commitCommand message options)
    (fun err => displayError err ;; process_exit 1).

End QuillCommit.

(** ** Further observations *)

Section FurtherObservations.

Context {Repo : Type} {git : SimpleGit Repo}.

(** Every character of a string is in a class. *)
Fixpoint all_chars (p : ascii -> bool) (s : string) : bool :=
  match s with
  | EmptyString => true
  | String a rest => p a && all_chars p rest
  end.

Fixpoint has_char (c : ascii) (s : string) : bool :=
  match s with
  | EmptyString => false
  | String a rest => Ascii.eqb a c || has_char c rest
  end.

(** A non-empty run of digits, and a non-empty run of word characters
    and dots. *)
Definition numeric (s : string) : Prop := s <> "" /\ all_chars is_digit s = true.

Definition identifier (s : string) : Prop :=
  s <> "" /\ all_chars (fun a => is_word a || Ascii.eqb a ".") s = true.

Definition starts_with_space (s : string) : bool :=
  match s with
  | EmptyString => false
  | String a _ => is_space a
  end.

(** A computation that, however it ends, leaves an observation of the
    world as it was. *)
Definition preserves {A X : Type} (obs : @World Repo -> X) (m : @M Repo A) : Prop :=
  forall w, obs (snd (m w)) = obs w.

(** The answers that choose an action other than the first of a menu of
    [n] actions (or cancel). *)
Definition avoids_first (n : nat) (answers : list (option nat)) : Prop :=
  Forall (fun answer => match answer with
                        | Some k => Nat.modulo k n <> 0%nat
                        | None => True
                        end) answers.

End FurtherObservations.

(** Further concrete inputs. *)

(** A directory that is not a repository. *)
Definition outside_repo : Scripted :=
  {| s_isRepo := false; s_status := clean_status; s_diff := ""; s_log := [];
     s_tags := []; s_revparse := []; s_show := []; s_roots := None;
     s_remotes := 0; s_journal := [] |}.

Definition outside_world : World := world_of empty_files outside_repo no_answers.

(** One file staged; it was modified again since, with a second file, and
    a third one is not tracked. *)
Definition staged_status : StatusResult :=
  {| st_staged := ["src/index.ts"];
     st_modified := ["src/index.ts"; "README.md"];
     st_not_added := ["notes.txt"];
     st_isClean := false |}.

Definition staged_repo : Scripted :=
  {| s_isRepo := true; s_status := staged_status; s_diff := "+ picker";
     s_log := []; s_tags := []; s_revparse := [("HEAD", "abc1234def")];
     s_show := []; s_roots := Some "0000000aaa"; s_remotes := 0;
     s_journal := [] |}.

Definition staged_world (u : User) : World := world_of empty_files staged_repo u.

Definition commit_yes_only : CommitOptions :=
  {| commit_all := false; commit_yes := true |}.

Definition commit_plain : CommitOptions :=
  {| commit_all := false; commit_yes := false |}.

Definition release_yes_version (version : string) : ReleaseOptions :=
  {| rel_from := None; rel_version := Some version; rel_tag := false;
     rel_push := false; rel_yes := true |}.

(** Two tags and one recent commit; the user takes the second option. *)
Definition picking_repo : Scripted :=
  {| s_isRepo := true; s_status := clean_status; s_diff := "";
     s_log := [("-n 20",
                [{| log_hash := "1111111aaaa"; log_message := "feat: add picker";
                    log_author_name := "dev"; log_date := "2026-01-01" |}])];
     s_tags := ["v1.0.0"; "v0.9.0"];
     s_revparse := [("HEAD", "1111111aaaa"); ("v1.0.0", "0000001");
                    ("v0.9.0", "0000000")];
     s_show := []; s_roots := Some "0000000aaa"; s_remotes := 0;
     s_journal := [] |}.

Definition picking_world : World :=
  world_of empty_files picking_repo
    {| confirms := []; selects := [Some 1%nat]; texts := [] |}.

(** There is a changelog already, and the user accepts the merge. *)
Definition files_with_changelog (existing : string) : FileSystem :=
  {| configDir := false; configFile := None; commitPromptFile := None;
     changelogPromptFile := None; historyFile := None;
     changelogFile := Some existing |}.

Definition merging_world : World :=
  world_of (files_with_changelog "# Changelog") empty_repo
    {| confirms := [Some true]; selects := []; texts := [] |}.

(** The answers to a menu, and to the question for a text. *)
Definition menu_world (choices : list nat) (typed : list string) : World :=
  staged_world {| confirms := []; selects := map Some choices;
                  texts := map Some typed |}.

(** ** Properties *)

(** *** The test of a pattern *)

Lemma append_empty (s1 s2 : string) : s1 ++ s2 = "" -> s1 = "" /\ s2 = "".
Proof. destruct s1; cbn; [auto|discriminate]. Qed.

Lemma nullable_matches r : nullable r = true <-> matches r "".
Proof.
  split.
  - induction r; cbn; intros H; try discriminate.
    + constructor.
    + apply andb_true_iff in H as [H1 H2].
      change "" with ("" ++ ""). constructor; auto.
    + apply orb_true_iff in H as [H|H]; [apply MAltL|apply MAltR]; auto.
    + constructor.
  - intros H. remember "" as s eqn:E.
    induction H; cbn; try discriminate; auto.
    + apply append_empty in E as [-> ->]. rewrite IHmatches1, IHmatches2; auto.
    + rewrite IHmatches; auto.
    + rewrite IHmatches; auto using orb_true_r.
Qed.

Lemma deriv_sound a r : forall s, matches (deriv a r) s -> matches r (String a s).
Proof.
  induction r; cbn; intros s H.
  - inversion H.
  - inversion H.
  - destruct (cset_mem cs a) eqn:E; inversion H; subst. now constructor.
  - destruct (nullable r1) eqn:E.
    + inversion H as [| | | ? ? ? H1 | ? ? ? H1 | |]; subst.
      * inversion H1; subst.
        change (String a (s1 ++ s2)) with (String a s1 ++ s2).
        constructor; auto.
      * change (String a s) with ("" ++ String a s).
        constructor; auto. now apply nullable_matches.
    + inversion H; subst.
      change (String a (s1 ++ s2)) with (String a s1 ++ s2).
      constructor; auto.
  - inversion H; subst; [apply MAltL|apply MAltR]; auto.
  - inversion H; subst.
    change (String a (s1 ++ s2)) with (String a s1 ++ s2).
    constructor; auto.
Qed.

Lemma deriv_complete a r t :
  matches r t -> forall s, t = String a s -> matches (deriv a r) s.
Proof.
  induction 1 as [|cs b Hb|r1 r2 s1 s2 H1 IH1 H2 IH2|r1 r2 t H1 IH1|r1 r2 t H1 IH1
                 | |r s1 s2 H1 IH1 H2 IH2]; intros s E; cbn.
  - discriminate.
  - injection E as -> <-. rewrite Hb. constructor.
  - destruct s1 as [|c s1]; cbn in E.
    + subst s2. apply nullable_matches in H1. rewrite H1.
      apply MAltR. now apply IH2.
    + injection E as -> <-.
      assert (matches (RSeq (deriv a r1) r2) (s1 ++ s2))
        by (constructor; auto).
      destruct (nullable r1); [now apply MAltL|assumption].
  - apply MAltL. auto.
  - apply MAltR. auto.
  - discriminate.
  - destruct s1 as [|c s1]; cbn in E.
    + now apply IH2.
    + injection E as -> <-. constructor; auto.
Qed.

(** [regex_test] decides the language of the pattern. *)
Lemma regex_test_matches s : forall r, regex_test r s = true <-> matches r s.
Proof.
  induction s as [|a s IH]; intros r; cbn.
  - apply nullable_matches.
  - rewrite IH. split; [apply deriv_sound|].
    intros H. now apply (deriv_complete H).
Qed.

Section Properties.

Context {Repo : Type} {git : SimpleGit Repo}.

Implicit Types (w : @World Repo).

Ltac run :=
  cbv beta iota delta
    [bind ret throw process_exit try_catch lift gets modify say update_files
     git_query git_update ensureConfigDir write_history write_config
     write_commitPrompt write_changelogPrompt writeChangelog readChangelog
     JSON_stringify info warn error success step intro outro message
     console_log];
  cbn [fst snd files repo user backend clock clipboard printed set_files
       set_repo set_user print configDir configFile commitPromptFile
       changelogPromptFile historyFile changelogFile confirms selects texts].

Lemma assoc_get_set_same {A : Type} (k : string) (v : A) fs :
  assoc_get k (assoc_set k v fs) = Some v.
Proof.
  induction fs as [|[k' v'] fs IH]; simpl.
  - now rewrite String.eqb_refl.
  - destruct (String.eqb k k') eqn:E; simpl; rewrite ?String.eqb_refl, ?E; auto.
Qed.

Lemma assoc_get_set_other {A : Type} (k k0 : string) (v : A) fs :
  k0 <> k -> assoc_get k0 (assoc_set k v fs) = assoc_get k0 fs.
Proof.
  intros Hne. induction fs as [|[k' v'] fs IH]; simpl.
  - destruct (String.eqb_spec k0 k); congruence.
  - destruct (String.eqb_spec k k'); simpl.
    + subst k'. destruct (String.eqb_spec k0 k); congruence.
    + destruct (String.eqb_spec k0 k'); auto.
Qed.

Lemma firstn_cons_firstn {A : Type} (n : nat) (x : A) l :
  firstn n (x :: firstn n l) = firstn n (x :: l).
Proof.
  destruct n as [|n]; [reflexivity|].
  rewrite !firstn_cons. f_equal. rewrite firstn_firstn. f_equal. lia.
Qed.

(** One append on a loadable history: the new entry goes first and the
    list is cut at the cap. *)
Lemma addHistoryEntry_stored w l e :
  stored_entries w = Some l ->
  exists w',
    addHistoryEntry e w = (Returned tt, w') /\
    stored_entries w' = Some (firstn MAX_HISTORY_ENTRIES (entry_json e :: l)).
Proof.
  unfold stored_entries, addHistoryEntry, getHistory. intros H. run.
  destruct (historyFile (files w)) as [[raw|v]|] eqn:Hh.
  - injection H as <-. simpl. eexists. split; [reflexivity|]. reflexivity.
  - destruct v as [| | | | |fs]; try discriminate.
    destruct (assoc_get "entries" fs) as [[| | | |old|]|] eqn:He; try discriminate.
    injection H as <-. cbn [JSON_parse get_prop]. rewrite He.
    cbn [array_unshift].
    destruct (MAX_HISTORY_ENTRIES <? List.length (entry_json e :: old))%nat eqn:Hlen;
      eexists; (split; [reflexivity|]);
      cbn [historyFile files set_files set_prop]; rewrite assoc_get_set_same.
    + reflexivity.
    + apply Nat.ltb_ge in Hlen. now rewrite firstn_all2.
  - injection H as <-. simpl. eexists. split; [reflexivity|]. reflexivity.
Qed.




Lemma bind_assoc {A B C : Type} (m : @M Repo A) (f : A -> M B) (g : B -> M C) w :
  bind (bind m f) g w = bind m (fun x => bind (f x) g) w.
Proof. unfold bind. destruct (m w) as [[a|e|c] w1]; reflexivity. Qed.

Lemma bind_ext {A B : Type} (m : @M Repo A) (f g : A -> M B) w :
  (forall a w1, f a w1 = g a w1) -> bind m f w = bind m g w.
Proof. intros H. unfold bind. destruct (m w) as [[a|e|c] w1]; auto. Qed.





(** *** Loading the history *)

(** A load never throws: an absent or unparseable history is the empty
    one, a parseable text is returned as parsed. *)
Lemma getHistory_returns w :
  fst (getHistory w) =
    Returned (match historyFile (files w) with
              | Some (Wellformed v) => v
              | Some (Malformed _) | None => JObj [("entries", JArr [])]
              end).
Proof.
  unfold getHistory. run.
  destruct (historyFile (files w)) as [[raw|v]|]; reflexivity.
Qed.

(** An append returns only on a loadable history: on any other content
    that parses, it throws a [TypeError] and writes nothing. *)
Lemma addHistoryEntry_throws w e :
  stored_entries w = None ->
  (exists m, fst (addHistoryEntry e w) = Thrown (TypeError m)) /\
  historyFile (files (snd (addHistoryEntry e w))) = historyFile (files w).
Proof.
  unfold stored_entries, addHistoryEntry, getHistory. intros H. run.
  destruct (historyFile (files w)) as [[raw|v]|] eqn:Hh; try discriminate.
  destruct v as [| | | | |fs]; cbn [JSON_parse get_prop];
    try (split; [eexists|]; reflexivity).
  destruct (assoc_get "entries" fs) as [[| | | |old|]|]; try discriminate;
    split; try eexists; reflexivity.
Qed.

(** C7.  The load itself returns for every persisted content, with the
    empty history for an absent or unparseable file.  On the file [{}],
    which parses, the load returns the object without [entries], and both
    [addHistoryEntry] and [getLastChangelogRef] throw a [TypeError]; the
    file is left as it was. *)
Theorem history_without_entries_crashes w e :
  historyFile (files w) = Some (Wellformed (JObj [])) ->
  (forall w0 : @World Repo,
      exists j, fst (getHistory w0) = Returned j /\
                (match historyFile (files w0) with
                 | Some (Wellformed _) => True
                 | _ => j = JObj [("entries", JArr [])]
                 end)) /\
  fst (getHistory w) = Returned (JObj []) /\
  fst (addHistoryEntry e w)
    = Thrown (TypeError "Cannot read properties of undefined (reading 'unshift')") /\
  fst (getLastChangelogRef w)
    = Thrown (TypeError "Cannot read properties of undefined (reading 'length')") /\
  historyFile (files (snd (addHistoryEntry e w))) = historyFile (files w).
Proof.
  intros H. split.
  { intros w0. eexists. split; [apply getHistory_returns|].
    destruct (historyFile (files w0)) as [[raw|v]|]; auto. }
  unfold addHistoryEntry, getLastChangelogRef, getHistory. run. rewrite H.
  repeat split; reflexivity.
Qed.

(** *** The configuration *)

Lemma assoc_get_absent {A : Type} (k : string) (fs : list (string * A)) :
  ~ In k (map fst fs) -> assoc_get k fs = None.
Proof.
  induction fs as [|[k' v] fs IH]; simpl; intros Hn; [reflexivity|].
  destruct (String.eqb_spec k k') as [->|Hne]; [tauto|]. apply IH. tauto.
Qed.

(** An object spread is a merge of the top-level properties: a property
    of the right operand wins, any other is the left operand's. *)
Lemma spread_fields_lookup (k : string) (doc : list (string * json)) :
  forall fs,
    NoDup (map fst doc) ->
    assoc_get k (fold_left (fun acc kv => assoc_set (fst kv) (snd kv) acc) doc fs)
    = match assoc_get k doc with
      | Some v => Some v
      | None => assoc_get k fs
      end.
Proof.
  induction doc as [|[k1 v1] doc IH]; intros fs Hnd; [reflexivity|].
  inversion Hnd as [|? ? Hnotin Hnd']; subst.
  cbn [fold_left fst snd assoc_get]. rewrite (IH _ Hnd').
  destruct (String.eqb_spec k k1) as [->|Hne].
  - rewrite (assoc_get_absent _ _ Hnotin). apply assoc_get_set_same.
  - destruct (assoc_get k doc); [reflexivity|].
    now apply assoc_get_set_other.
Qed.

(** C10.  A configuration document that parses is merged with the
    defaults by one spread: every top-level property of the document is
    taken whole.  So when the document has a [models] object that lacks an
    entry, that entry is [undefined] in the configuration, although the
    defaults have it. *)
Theorem getConfig_merges_top_level_only w doc :
  configFile (files w) = Some (Wellformed doc) ->
  fst (getConfig w) = Returned (spread DEFAULT_CONFIG_fields doc) /\
  (forall fields,
      doc = JObj fields -> NoDup (map fst fields) ->
      (forall k,
          get_prop (spread DEFAULT_CONFIG_fields doc) k
          = inr (match assoc_get k fields with
                 | Some v => VJson v
                 | None => match assoc_get k DEFAULT_CONFIG_fields with
                           | Some d => VJson d
                           | None => VUndefined
                           end
                 end)) /\
      (forall models entry,
          assoc_get "models" fields = Some (JObj models) ->
          assoc_get entry models = None ->
          fst (model_for (spread DEFAULT_CONFIG_fields doc) entry w)
          = Returned VUndefined)) /\
  fst (model_for DEFAULT_CONFIG "commit" w) = Returned (VJson default_model) /\
  fst (model_for DEFAULT_CONFIG "changelog" w) = Returned (VJson default_model).
Proof.
  intros H. split.
  { unfold getConfig. run. rewrite H. reflexivity. }
  split; [|split; reflexivity].
  intros fields -> Hnd.
  assert (Hk : forall k,
    get_prop (spread DEFAULT_CONFIG_fields (JObj fields)) k
    = inr (match assoc_get k fields with
           | Some v => VJson v
           | None => match assoc_get k DEFAULT_CONFIG_fields with
                     | Some d => VJson d
                     | None => VUndefined
                     end
           end)).
  { intros k. unfold spread. cbn [get_prop own_props].
    rewrite (@spread_fields_lookup k fields DEFAULT_CONFIG_fields Hnd).
    destruct (assoc_get k fields); reflexivity. }
  split; [exact Hk|].
  intros models entry Hm He. unfold model_for. run.
  rewrite Hk, Hm. cbn [get_prop]. rewrite He. reflexivity.
Qed.


(** *** Version detection *)

Lemma getFileAtRef_run ref path w :
  getFileAtRef ref path w = (Returned (file_at (repo w) ref path), w).
Proof.
  unfold getFileAtRef, file_at. run.
  destruct (git_show [ref ++ ":" ++ path] (repo w)); reflexivity.
Qed.

Lemma manifest_version_run content w :
  manifest_version content w = (Returned (version_of content), w).
Proof.
  unfold manifest_version, version_of.
  destruct content as [text|]; [|reflexivity].
  destruct (document_truthy text); [|reflexivity]. run.
  destruct (JSON_parse text) as [err|pkg]; [reflexivity|]. cbv beta iota.
  destruct (get_prop pkg "version"); reflexivity.
Qed.

(** Version detection always returns, and leaves the world as it is. *)
Lemma detectVersionChange_run fromRef toRef w :
  detectVersionChange fromRef toRef w
  = (Returned {| oldVersion := declared_version (repo w) fromRef;
                 newVersion := declared_version (repo w) toRef;
                 changed :=
                   negb (strict_eq (declared_version (repo w) fromRef)
                                   (declared_version (repo w) toRef))
                   && negb (strict_eq (declared_version (repo w) toRef) JNull) |},
     w).
Proof.
  unfold detectVersionChange, declared_version.
  unfold bind at 1. rewrite getFileAtRef_run.
  unfold bind at 1. rewrite getFileAtRef_run.
  unfold bind at 1. rewrite manifest_version_run.
  unfold bind at 1. rewrite manifest_version_run.
  reflexivity.
Qed.

(** C2 (amended).  When both manifests declare a version string, the two
    strings are compared as they are, without removing a leading [v]:
    [changed] is false exactly when the raw strings are equal, and the
    returned versions are the strings of the manifests. *)
Theorem detectVersionChange_compares_raw_strings fromRef toRef w so sn :
  declared_version (repo w) fromRef = JStr so ->
  declared_version (repo w) toRef = JStr sn ->
  exists vc,
    detectVersionChange fromRef toRef w = (Returned vc, w) /\
    oldVersion vc = JStr so /\
    newVersion vc = JStr sn /\
    (changed vc = false <-> so = sn).
Proof.
  intros Ho Hn. eexists. split; [apply detectVersionChange_run|].
  cbn [oldVersion newVersion changed]. rewrite Ho, Hn.
  repeat split; cbn [strict_eq].
  - rewrite andb_true_r. intros H. apply negb_false_iff in H.
    now apply String.eqb_eq.
  - intros ->. now rewrite String.eqb_refl.
Qed.

Lemma strict_eq_primitive (a b : json) :
  primitive a = true -> primitive b = true ->
  (strict_eq a b = true <-> a = b).
Proof.
  destruct a, b; cbn; intros Ha Hb; try discriminate;
    try (split; [discriminate|congruence]); try tauto.
  - rewrite Bool.eqb_true_iff. split; congruence.
  - rewrite Z.eqb_eq. split; congruence.
  - rewrite String.eqb_eq. split; congruence.
Qed.

(** C5.  Whatever the two manifests declare (a version or none),
    [changed] is true exactly when the two differ and the new one is
    present; a version that disappears is not a change. *)
Theorem detectVersionChange_changed_iff fromRef toRef w :
  primitive (declared_version (repo w) fromRef) = true ->
  primitive (declared_version (repo w) toRef) = true ->
  exists vc,
    detectVersionChange fromRef toRef w = (Returned vc, w) /\
    oldVersion vc = declared_version (repo w) fromRef /\
    newVersion vc = declared_version (repo w) toRef /\
    (changed vc = true <-> oldVersion vc <> newVersion vc /\ newVersion vc <> JNull) /\
    (newVersion vc = JNull -> changed vc = false).
Proof.
  intros Ho Hn. eexists. split; [apply detectVersionChange_run|].
  cbn [oldVersion newVersion changed].
  split; [reflexivity|]. split; [reflexivity|].
  pose proof (strict_eq_primitive _ _ Ho Hn) as H1.
  pose proof (strict_eq_primitive _ JNull Hn eq_refl) as H2.
  split.
  - destruct (strict_eq (declared_version (repo w) fromRef)
                        (declared_version (repo w) toRef)),
             (strict_eq (declared_version (repo w) toRef) JNull);
      cbn [negb andb]; intuition congruence.
  - intros E. rewrite (proj2 H2 E). apply andb_false_r.
Qed.


(** *** Tags and the first commit *)

Lemma resolve_tags_run names : forall w,
  resolve_tags names w
  = (Returned (map (fun name =>
                      {| tag_name := name;
                         tag_hash := match git_revparse [name] (repo w) with
                                     | inr hash => trim hash
                                     | inl _ => ""
                                     end |})
                   names), w).
Proof.
  induction names as [|name names IH]; intros w; [reflexivity|].
  cbn [resolve_tags map]. run.
  destruct (git_revparse [name] (repo w)); cbv beta iota; rewrite IH; reflexivity.
Qed.

Lemma getTags_run w :
  getTags w = (match tags_of (repo w) with
               | inl e => Thrown e
               | inr tags => Returned tags
               end, w).
Proof.
  unfold getTags, tags_of. run.
  destruct (git_tags ["--sort=-creatordate"] (repo w)); cbv beta iota;
    [reflexivity|apply resolve_tags_run].
Qed.

Lemma getLatestTag_run w :
  getLatestTag w = (match tags_of (repo w) with
                    | inl e => Thrown e
                    | inr tags => Returned (hd_error tags)
                    end, w).
Proof.
  unfold getLatestTag. unfold bind. rewrite getTags_run.
  destruct (tags_of (repo w)) as [e|[|t ts]]; reflexivity.
Qed.

Lemma getFirstCommit_run w :
  getFirstCommit w = (Returned (first_commit (repo w)), w).
Proof.
  unfold getFirstCommit, first_commit. run.
  destruct (git_raw ["rev-list"; "--max-parents=0"; "HEAD"] (repo w));
    reflexivity.
Qed.

Lemma tags_of_names r names :
  git_tags ["--sort=-creatordate"] r = inr names ->
  exists tags, tags_of r = inr tags /\ map tag_name tags = names.
Proof.
  intros H. unfold tags_of. rewrite H. eexists. split; [reflexivity|].
  rewrite map_map. cbn [tag_name]. apply map_id.
Qed.

Lemma filter_map_length {A B : Type} (f : A -> B) (p : B -> bool) (l : list A) :
  List.length (filter (fun x => p (f x)) l) = List.length (filter p (map f l)).
Proof.
  induction l as [|x l IH]; [reflexivity|].
  cbn [filter map]. destruct (p (f x)); cbn [List.length]; congruence.
Qed.

(** C4.  For every list of tag names of the repository:
    [detectTagPrefix] returns ["v"] when there is no tag, ["v"] when as
    many names start with [v] as do not, ["v"] when those that start with
    [v] are more, and [""] when they are fewer. *)
Theorem detectTagPrefix_majority w names :
  git_tags ["--sort=-creatordate"] (repo w) = inr names ->
  exists p,
    detectTagPrefix w = (Returned p, w) /\
    (names = [] -> p = "v") /\
    (List.length (filter (startsWith "v") names)
       = List.length (filter (fun n => negb (startsWith "v" n)) names) -> p = "v") /\
    (List.length (filter (fun n => negb (startsWith "v" n)) names)
       < List.length (filter (startsWith "v") names) -> p = "v")%nat /\
    (List.length (filter (startsWith "v") names)
       < List.length (filter (fun n => negb (startsWith "v" n)) names) -> p = "")%nat.
Proof.
  intros H. destruct (tags_of_names _ H) as (tags & Ht & Hn).
  unfold detectTagPrefix. unfold bind. rewrite getTags_run, Ht.
  destruct tags as [|t ts].
  - subst names. exists "v". split; [reflexivity|]. cbn. repeat split; auto; lia.
  - rewrite (filter_map_length tag_name (startsWith "v")).
    rewrite (filter_map_length tag_name (fun n => negb (startsWith "v" n))).
    rewrite Hn. eexists. split; [reflexivity|].
    split; [intros ->; discriminate|].
    destruct (Nat.leb_spec
                (List.length (filter (fun n => negb (startsWith "v" n)) names))
                (List.length (filter (startsWith "v") names)));
      repeat split; intros; try reflexivity; lia.
Qed.

(** *** The starting reference of a release *)

Lemma release_reaches_changelog options w0 w :
  release_until_changelog options w0 = (Returned tt, w) ->
  releaseCommand options w0
  = bind (handleChangelog options)
      (fun released =>
         bind (step "Step 3: Create release tag") (fun _ =>
         bind (handleTag (snd released) options) (fun _ =>
         bind (step "Step 4: Push to remote") (fun _ =>
         bind (handlePush options) (fun _ =>
         outro ("Released " ++ to_string (snd released) ++ "!")))))) w.
Proof.
  unfold release_until_changelog, releaseCommand. intros H.
  set (K := fun released : string * json => _).
  transitivity
    (bind (bind intro (fun _ =>
           bind ensureGitRepo (fun _ =>
           bind (step "Step 1: Commit pending changes") (fun _ =>
           bind (handleCommit options) (fun _ =>
           step "Step 2: Generate changelog")))))
          (fun _ => bind (handleChangelog options) K) w0).
  - rewrite bind_assoc. apply bind_ext. intros _ w1.
    rewrite bind_assoc. apply bind_ext. intros _ w2.
    rewrite bind_assoc. apply bind_ext. intros _ w3.
    rewrite bind_assoc. reflexivity.
  - unfold bind at 1. rewrite H. reflexivity.
Qed.

(** C3.  The starting reference of the changelog step is the [from]
    option when it is given; else the name of the latest tag when there
    is a tag; else the first commit when there is one; and it is the
    reference passed on to the rest of the step.  When there is none of
    them the step throws, the release command throws with it without
    running the later steps, and the process exits with code 1. *)
Theorem release_starting_reference options w :
  (str_truthy (rel_from options) = true ->
   exists ref,
     rel_from options = Some ref /\
     handleChangelog_fromRef options w = (Returned ref, w) /\
     handleChangelog options w
     = bind (handleChangelog_version options ref "HEAD")
            (handleChangelog_save ref "HEAD") w) /\
  (forall tags,
      str_truthy (rel_from options) = false ->
      tags_of (repo w) = inr tags ->
      match starting_reference (rel_from options)
              (option_map tag_name (hd_error tags)) (first_commit (repo w)) with
      | Some ref =>
          exists w',
            handleChangelog_fromRef options w = (Returned ref, w') /\
            files w' = files w /\ repo w' = repo w /\ user w' = user w /\
            handleChangelog options w
            = bind (handleChangelog_version options ref "HEAD")
                   (handleChangelog_save ref "HEAD") w'
      | None =>
          handleChangelog_fromRef options w
          = (Thrown (Error "Could not determine starting reference."), w) /\
          handleChangelog options w
          = (Thrown (Error "Could not determine starting reference."), w) /\
          forall w0,
            release_until_changelog options w0 = (Returned tt, w) ->
            releaseCommand options w0
            = (Thrown (Error "Could not determine starting reference."), w) /\
            main (Release options) w0
            = (Exited 1, print (LError "Could not determine starting reference.") w)
      end).
Proof.
  split.
  - intros Hg.
    assert (Hfrom : forall ref, rel_from options = Some ref ->
              handleChangelog_fromRef options w = (Returned ref, w)).
    { intros ref E. unfold handleChangelog_fromRef. rewrite Hg, E. reflexivity. }
    destruct (rel_from options) as [ref|] eqn:E; [|discriminate].
    exists ref. split; [reflexivity|]. split; [now apply Hfrom|].
    unfold handleChangelog. unfold bind at 1. rewrite (Hfrom ref eq_refl).
    reflexivity.
  - intros tags Hg Ht. unfold starting_reference. rewrite Hg.
    assert (Hfrom : handleChangelog_fromRef options w
      = match hd_error tags with
        | Some latestTag =>
            (Returned (tag_name latestTag),
             print (LInfo ("Using latest tag as starting point: "
                           ++ tag_name latestTag)) w)
        | None =>
            match first_commit (repo w) with
            | Some c => (Returned c, print (LInfo "No tags found, using first commit.") w)
            | None => (Thrown (Error "Could not determine starting reference."), w)
            end
        end).
    { unfold handleChangelog_fromRef. rewrite Hg. cbn [negb].
      unfold bind at 1. rewrite getLatestTag_run, Ht.
      destruct (hd_error tags) as [t|]; [reflexivity|].
      unfold bind at 1. rewrite getFirstCommit_run.
      pose proof (first_commit (repo w)) as fc.
      unfold first_commit.
      destruct (git_raw ["rev-list"; "--max-parents=0"; "HEAD"] (repo w)) as [e|out];
        [reflexivity|].
      cbv zeta.
      destruct (String.eqb_spec (hd "" (split_on (ascii_of_nat 10) (trim out))) "")
        as [E|E]; [reflexivity|].
      cbn [str_truthy]. apply String.eqb_neq in E. rewrite E. reflexivity. }
    destruct (hd_error tags) as [t|]; cbn [option_map].
    + eexists. split; [exact Hfrom|]. repeat split.
      unfold handleChangelog. unfold bind at 1. rewrite Hfrom. reflexivity.
    + destruct (first_commit (repo w)) as [c|].
      * eexists. split; [exact Hfrom|]. repeat split.
        unfold handleChangelog. unfold bind at 1. rewrite Hfrom. reflexivity.
      * split; [exact Hfrom|].
        assert (Hc : handleChangelog options w
                     = (Thrown (Error "Could not determine starting reference."), w)).
        { unfold handleChangelog. unfold bind at 1. rewrite Hfrom. reflexivity. }
        split; [exact Hc|]. intros w0 Hpre.
        assert (Hr : releaseCommand options w0
                     = (Thrown (Error "Could not determine starting reference."), w)).
        { rewrite (release_reaches_changelog _ _ Hpre).
          unfold bind at 1. rewrite Hc. reflexivity. }
        split; [exact Hr|].
        unfold main, parseAsync, try_catch. rewrite Hr. reflexivity.
Qed.


(** *** The version entered at the prompt *)

Lemma skipn_length_app {A : Type} (l x : list A) :
  skipn (List.length l) (l ++ x) = x.
Proof. induction l; [reflexivity|assumption]. Qed.

(** C6 (amended).  When no version is given or detected and the user
    types one, the warning is printed exactly when the typed string,
    after the removal of one leading [v], is not in the language of the
    pattern (the check is [isValidVersion], which strips the prefix before
    it tests the pattern).  After the warning the user is asked whether to
    continue: on yes the typed version is returned, on no the release is
    cancelled by an error. *)
Theorem manual_version_soft_warning options fromRef toRef w entered rest :
  str_truthy (rel_version options) = false ->
  detected_version (repo w) fromRef toRef = None ->
  texts (user w) = Some entered :: rest ->
  let run := handleChangelog_version options fromRef toRef w in
  let asked := print (LAsk "Enter version for this release:") (answered_text rest w) in
  let warning :=
    LWarn (dq ++ entered ++ dq ++ " doesn't look like a valid semver version.") in
  let warned := print (LAsk "Continue anyway?") (print warning asked) in
  (isValidVersion entered = true
   <-> matches semverPattern (stripVersionPrefix entered)) /\
  (In warning (printed_since w (snd run)) <-> isValidVersion entered = false) /\
  (isValidVersion entered = true -> run = (Returned (JStr entered), asked)) /\
  (isValidVersion entered = false ->
   forall answer more,
     confirms (user w) = answer :: more ->
     run = match answer with
           | Some true => (Returned (JStr entered), answered_confirm more warned)
           | Some false =>
               (Thrown (Error "Release cancelled."), answered_confirm more warned)
           | None =>
               (Exited 0,
                print (LCancel "Operation cancelled.") (answered_confirm more warned))
           end).
Proof.
  intros Hv Hd Ht run asked warning warned.
  assert (Hrun : run =
    if isValidVersion entered then (Returned (JStr entered), asked)
    else match confirms (user w) with
         | [] => (Exited 0, print (LCancel "Operation cancelled.") warned)
         | Some true :: more => (Returned (JStr entered), answered_confirm more warned)
         | Some false :: more =>
             (Thrown (Error "Release cancelled."), answered_confirm more warned)
         | None :: more =>
             (Exited 0,
              print (LCancel "Operation cancelled.") (answered_confirm more warned))
         end).
  { subst run warned asked. unfold answered_confirm, answered_text.
    unfold handleChangelog_version. rewrite Hv. cbn [negb].
    unfold bind at 1. rewrite detectVersionChange_run. cbn [changed newVersion].
    unfold detected_version in Hd. cbv zeta in Hd.
    destruct (negb (strict_eq (declared_version (repo w) fromRef)
                              (declared_version (repo w) toRef))
              && negb (strict_eq (declared_version (repo w) toRef) JNull)
              && truthy (declared_version (repo w) toRef)); [discriminate|].
    unfold text, confirm, next_text, next_confirm, handleCancel. run.
    rewrite Ht. cbv beta iota.
    destruct (isValidVersion entered); cbn [negb]; [reflexivity|].
    run. destruct (confirms (user w)) as [|[[|]|] more]; reflexivity. }
  split; [apply regex_test_matches|]. split; [|split].
  - rewrite Hrun. unfold printed_since.
    destruct (isValidVersion entered).
    + cbn [snd asked printed print answered_text set_user].
      rewrite skipn_length_app. split; [|discriminate].
      intros [H|[]]. discriminate.
    + split; [reflexivity|]. intros _.
      destruct (confirms (user w)) as [|[[|]|] more];
        cbn [snd warned asked printed print answered_text answered_confirm set_user];
        rewrite <- ?app_assoc, skipn_length_app; cbn; auto.
  - intros E. rewrite Hrun, E. reflexivity.
  - intros E answer more Hc. rewrite Hrun, E, Hc.
    destruct answer as [[|]|]; reflexivity.
Qed.


(** *** Nothing is written for an empty range *)

Lemma keeps_unchanged {A : Type} (m : @M Repo A) :
  (forall w, snd (m w) = w) -> keeps_documents m.
Proof. intros H w. rewrite H. split; reflexivity. Qed.

Lemma keeps_ret {A : Type} (a : A) : keeps_documents (@ret Repo A a).
Proof. now apply keeps_unchanged. Qed.

Lemma keeps_throw {A : Type} (e : exn) : keeps_documents (@throw Repo A e).
Proof. now apply keeps_unchanged. Qed.

Lemma keeps_exit {A : Type} (c : Z) : keeps_documents (@process_exit Repo A c).
Proof. now apply keeps_unchanged. Qed.

Lemma keeps_lift {A : Type} (r : result A) : keeps_documents (@lift Repo A r).
Proof. destruct r; now apply keeps_unchanged. Qed.

Lemma keeps_gets {A : Type} (f : @World Repo -> A) : keeps_documents (gets f).
Proof. now apply keeps_unchanged. Qed.

Lemma keeps_git_query {A : Type} (f : Repo -> result A) :
  keeps_documents (git_query f).
Proof.
  apply keeps_unchanged. intros w. unfold git_query.
  destruct (f (repo w)); reflexivity.
Qed.

Lemma keeps_say (l : line) : keeps_documents (@say Repo l).
Proof. intros w. split; reflexivity. Qed.

Lemma keeps_ensureConfigDir : keeps_documents (@ensureConfigDir Repo).
Proof. intros w. split; reflexivity. Qed.

Lemma keeps_bind {A B : Type} (m : @M Repo A) (k : A -> M B) :
  keeps_documents m -> (forall a, keeps_documents (k a)) ->
  keeps_documents (bind m k).
Proof.
  intros Hm Hk w. unfold bind. specialize (Hm w).
  destruct (m w) as [[a|e|c] w1]; cbn [snd] in *; auto.
  destruct (Hk a w1) as [H1 H2]. destruct Hm as [H3 H4].
  split; congruence.
Qed.

Lemma keeps_try_catch {A : Type} (m : @M Repo A) (h : exn -> M A) :
  keeps_documents m -> (forall e, keeps_documents (h e)) ->
  keeps_documents (try_catch m h).
Proof.
  intros Hm Hh w. unfold try_catch. specialize (Hm w).
  destruct (m w) as [[a|e|c] w1]; cbn [snd] in *; auto.
  destruct (Hh e w1) as [H1 H2]. destruct Hm as [H3 H4].
  split; congruence.
Qed.

Lemma keeps_next_select : keeps_documents (@next_select Repo).
Proof.
  intros w. unfold next_select. destruct (selects (user w)); split; reflexivity.
Qed.

Create HintDb keeps.

#[local] Hint Resolve keeps_ret keeps_throw keeps_exit keeps_lift keeps_gets
  keeps_git_query keeps_say keeps_ensureConfigDir keeps_next_select : keeps.

Ltac keeps :=
  repeat first
    [ progress auto with keeps
    | apply keeps_bind; [|intros]
    | apply keeps_try_catch; [|intros]
    | match goal with
      | |- keeps_documents (if ?b then _ else _) => destruct b
      | |- keeps_documents (match ?x with _ => _ end) => destruct x
      end ].

Lemma keeps_getLastChangelogRef : keeps_documents (@getLastChangelogRef Repo).
Proof. unfold getLastChangelogRef, getHistory. keeps. Qed.

Lemma keeps_getTags : keeps_documents getTags.
Proof. apply keeps_unchanged. intros w. now rewrite getTags_run. Qed.

Lemma keeps_getFirstCommit : keeps_documents getFirstCommit.
Proof. apply keeps_unchanged. intros w. now rewrite getFirstCommit_run. Qed.

Lemma keeps_select msg options : keeps_documents (@select Repo msg options).
Proof. unfold select, handleCancel. keeps. Qed.

#[local] Hint Resolve keeps_getLastChangelogRef keeps_getTags keeps_getFirstCommit
  keeps_select : keeps.

Lemma keeps_selectFromRef : keeps_documents selectFromRef.
Proof. unfold selectFromRef, getRecentCommits. keeps. Qed.

Lemma keeps_changelogCommand_fromRef options :
  keeps_documents (changelogCommand_fromRef options).
Proof.
  unfold changelogCommand_fromRef, ensureGitRepo, isGitRepo, intro, warn.
  pose proof keeps_selectFromRef. keeps.
Qed.

Lemma getCommitsBetween_empty from to w :
  git_log [from ++ ".." ++ to] (repo w) = inr [] ->
  getCommitsBetween from to w = (Returned [], w).
Proof. intros H. unfold getCommitsBetween. run. rewrite H. reflexivity. Qed.

(** C8.  When the range from the starting reference to the ending one
    has no commit, the changelog command prints the warning and returns,
    and neither [CHANGELOG.md] nor the history file has changed since the
    command began; with [--from] the world is the same but for the lines
    printed.  On such a range the release workflow's
    [generateAndSaveChangelog] returns the empty string with the world as
    it was, and the rest of the step stages and commits nothing. *)
Theorem empty_range_writes_nothing :
  (forall options w fromRef w1,
      changelogCommand_fromRef options w = (Returned (Some fromRef), w1) ->
      git_log [fromRef ++ ".." ++ changelog_toRef options] (repo w1) = inr [] ->
      exists w',
        changelogCommand options w = (Returned tt, w') /\
        last (printed w') LIntro = LWarn "No commits found in the specified range." /\
        changelogFile (files w') = changelogFile (files w) /\
        historyFile (files w') = historyFile (files w)) /\
  (forall options w fromRef,
      cl_from options = Some fromRef ->
      fromRef <> "" ->
      git_checkIsRepo (repo w) = inr true ->
      git_log [fromRef ++ ".." ++ changelog_toRef options] (repo w) = inr [] ->
      changelogCommand options w
      = (Returned tt,
         print (LWarn "No commits found in the specified range.")
           (print (LInfo ("Generating changelog from " ++ fromRef ++ " to "
                          ++ changelog_toRef options))
              (print LIntro w)))) /\
  (forall fromRef toRef version w,
      git_log [fromRef ++ ".." ++ toRef] (repo w) = inr [] ->
      generateAndSaveChangelog fromRef toRef version w = (Returned "", w) /\
      handleChangelog_save fromRef toRef version w
      = (Returned (fromRef, version),
         print (LSpinnerStop "Changelog saved to CHANGELOG.md")
           (print (LSpinnerStart "Generating and saving changelog...")
              (print (LInfo ("Generating changelog for version " ++ to_string version))
                 w)))).
Proof.
  assert (Hrange : forall fromRef toRef (w : @World Repo),
    git_log [fromRef ++ ".." ++ toRef] (repo w) = inr [] ->
    changelogCommand_range fromRef toRef w
    = (Returned tt,
       print (LWarn "No commits found in the specified range.")
         (print (LInfo ("Generating changelog from " ++ fromRef ++ " to " ++ toRef))
            w))).
  { intros fromRef toRef w H. unfold changelogCommand_range.
    unfold bind at 1. unfold info, say, modify. cbv beta iota.
    unfold bind at 1. rewrite getCommitsBetween_empty by exact H. reflexivity. }
  split; [|split].
  - intros options w fromRef w1 Hfrom Hlog.
    eexists. split.
    { unfold changelogCommand. unfold bind at 1. rewrite Hfrom.
      apply Hrange. exact Hlog. }
    split.
    { cbn [printed print]. apply last_last. }
    pose proof (keeps_changelogCommand_fromRef options w) as [H1 H2].
    rewrite Hfrom in H1, H2. exact (conj H1 H2).
  - intros options w fromRef Hfrom Hne Hrepo Hlog.
    assert (Hpre : changelogCommand_fromRef options w
                   = (Returned (Some fromRef), print LIntro w)).
    { unfold changelogCommand_fromRef, ensureGitRepo, isGitRepo. rewrite Hfrom.
      cbn [str_truthy]. apply String.eqb_neq in Hne. rewrite Hne. run.
      rewrite Hrepo. reflexivity. }
    unfold changelogCommand. unfold bind at 1. rewrite Hpre.
    apply Hrange. exact Hlog.
  - intros fromRef toRef version w Hlog.
    assert (Hgen : forall w0 : @World Repo,
              repo w0 = repo w ->
              generateAndSaveChangelog fromRef toRef version w0 = (Returned "", w0)).
    { intros w0 E. unfold generateAndSaveChangelog. unfold bind at 1.
      rewrite getCommitsBetween_empty by (rewrite E; exact Hlog). reflexivity. }
    split; [now apply Hgen|].
    unfold handleChangelog_save, withSpinner. run.
    rewrite Hgen by reflexivity. reflexivity.
Qed.


(** *** The menu of the changelog command *)

Lemma select_run msg options w :
  select msg options w
  = match selects (user w) with
    | [] => (Exited 0, print (LCancel "Operation cancelled.") (print (LAsk msg) w))
    | answer :: more =>
        let w1 := set_user {| confirms := confirms (user w); selects := more;
                              texts := texts (user w) |} (print (LAsk msg) w) in
        match match answer with
              | None => None
              | Some n => nth_error options (Nat.modulo n (List.length options))
              end with
        | None => (Exited 0, print (LCancel "Operation cancelled.") w1)
        | Some value => (Returned value, w1)
        end
    end.
Proof.
  unfold select, next_select, handleCancel. run.
  destruct (selects (user w)) as [|answer more]; [reflexivity|].
  cbv beta iota zeta.
  destruct (match answer with
            | None => None
            | Some n => nth_error options (Nat.modulo n (List.length options))
            end); reflexivity.
Qed.

Lemma bind_ext_run {A B : Type} (m : @M Repo A) (f g : A -> M B) w :
  (forall a w1, m w = (Returned a, w1) -> f a w1 = g a w1) ->
  bind m f w = bind m g w.
Proof. intros H. unfold bind. destruct (m w) as [[a|e|c] w1]; auto. Qed.

Lemma select_takes_answer msg options w value w1 :
  select msg options w = (Returned value, w1) ->
  (S (List.length (selects (user w1))) = List.length (selects (user w)))%nat.
Proof.
  rewrite select_run. destruct (selects (user w)) as [|answer more]; [discriminate|].
  cbv zeta.
  destruct (match answer with
            | None => None
            | Some n => nth_error options (Nat.modulo n (List.length options))
            end); [|discriminate].
  intros H. injection H as _ <-. reflexivity.
Qed.

Lemma changelog_menu_no_answer fuel changelog fromRef toRef count w :
  selects (user w) = [] ->
  changelog_menu fuel changelog fromRef toRef count w
  = (Exited 0,
     print (LCancel "Operation cancelled.")
       (print (LAsk "What would you like to do?") w)).
Proof.
  intros E. destruct fuel; cbn [changelog_menu]; unfold bind at 1;
    rewrite select_run, E; reflexivity.
Qed.

(** The fuel given to the menu is enough: with at least as many turns as
    the user has answers left, more turns change nothing. *)
Lemma changelog_menu_fuel changelog fromRef toRef count : forall n m w,
  (List.length (selects (user w)) <= n)%nat ->
  (List.length (selects (user w)) <= m)%nat ->
  changelog_menu n changelog fromRef toRef count w
  = changelog_menu m changelog fromRef toRef count w.
Proof.
  induction n as [|n IH]; intros m w Hn Hm.
  - destruct (selects (user w)) as [|a more] eqn:E; [|cbn in Hn; lia].
    now rewrite !changelog_menu_no_answer.
  - destruct m as [|m].
    + destruct (selects (user w)) as [|a more] eqn:E; [|cbn in Hm; lia].
      now rewrite !changelog_menu_no_answer.
    + cbn [changelog_menu]. apply bind_ext_run. intros action w1 Hsel.
      apply select_takes_answer in Hsel.
      destruct (String.eqb action "save"); [reflexivity|].
      destruct (String.eqb action "copy").
      * apply bind_ext_run. intros copied w2 Hc.
        unfold copyToClipboard, gets in Hc. inversion Hc; subst w2.
        apply bind_ext_run. intros u w3 Hp.
        assert (E : user w3 = user w1).
        { destruct (clipboard w1); unfold success, warn, say, modify in Hp;
            inversion Hp; reflexivity. }
        apply IH; rewrite E; lia.
      * destruct (String.eqb action "done"); [reflexivity|].
        apply IH; lia.
Qed.

(** *** A malformed model string *)

Lemma split_on_nonempty c s : split_on c s <> [].
Proof.
  destruct s as [|a rest]; cbn [split_on]; [discriminate|].
  destruct (Ascii.eqb a c); [discriminate|].
  destruct (split_on c rest); discriminate.
Qed.

Lemma split_on_slash_length s :
  (List.length (split_on "/" s) <? 2)%nat = negb (has_slash s).
Proof.
  induction s as [|a rest IH]; [reflexivity|].
  cbn [split_on has_slash]. destruct (Ascii.eqb a "/"); cbn [orb negb].
  - pose proof (split_on_nonempty "/" rest).
    destruct (split_on "/" rest); [congruence|reflexivity].
  - rewrite <- IH. pose proof (split_on_nonempty "/" rest).
    destruct (split_on "/" rest); [congruence|reflexivity].
Qed.

(** A model string is rejected exactly when it has no [/]. *)
Lemma parseModelString_None s : parseModelString s = None <-> has_slash s = false.
Proof.
  unfold parseModelString. cbv zeta. rewrite split_on_slash_length.
  destruct (has_slash s); cbn [negb]; split; congruence.
Qed.

Lemma getConfig_run w :
  getConfig w
  = (Returned (loaded_config (files w)), set_files (after_getConfig (files w)) w).
Proof.
  unfold getConfig, saveConfig, loaded_config, after_getConfig. run.
  destruct (configFile (files w)) as [[raw|v]|] eqn:E; reflexivity.
Qed.

(** [main] never throws: an error of the command is printed and the
    process exits with code 1. *)
Lemma main_exit_code argv w :
  fst (main argv w)
  = match fst (parseAsync argv w) with
    | Returned _ => Returned tt
    | Thrown _ => Exited 1
    | Exited code => Exited code
    end.
Proof.
  unfold main, try_catch.
  destruct (parseAsync argv w) as [[[]|e|c] w1]; reflexivity.
Qed.

(** C9 (amended).  A config invocation (without [--list-models]) that
    reaches a malformed model string, one without [/], prints the error
    [Invalid model format] and, right after it, the hint of the expected
    format, saves no selection (the files are as the load of the
    configuration left them), and returns normally: nothing is thrown and
    the exit code is 0.  The error, the hint and [Done!] are the last
    three lines printed. *)
Theorem config_malformed_model_returns options w bad :
  listModels options = false ->
  bad <> "" ->
  has_slash bad = false ->
  (commitModel options = Some bad \/
   (changelogModel options = Some bad /\
    (str_truthy (commitModel options) = false \/
     exists good parsed config1,
       commitModel options = Some good /\
       parseModelString good = Some parsed /\
       assign_model (loaded_config (files w)) "commit" parsed = inr config1))) ->
  parseModelString bad = None /\
  exists w',
    configCommand options w = (Returned tt, w') /\
    main (Config options) w = (Returned tt, w') /\
    exit_code (fst (main (Config options) w)) = 0%Z /\
    files w' = after_getConfig (files w) /\
    In (LError ("Invalid model format: " ++ dq ++ bad ++ dq)) (printed_since w w') /\
    last (printed w') LIntro = LOutro "Done!" /\
    exists before,
      printed_since w w'
      = (before
         ++ [LError ("Invalid model format: " ++ dq ++ bad ++ dq);
             LInfo "Expected format: provider/model (e.g., anthropic/claude-sonnet-4-5)";
             LOutro "Done!"])%list.
Proof.
  intros Hl Hne Hs Hcase.
  assert (Hp : parseModelString bad = None) by now apply parseModelString_None.
  split; [exact Hp|].
  assert (Hbad : str_truthy (Some bad) = true).
  { cbn. now apply negb_true_iff, String.eqb_neq. }
  assert (Hrun : exists w',
    configCommand options w = (Returned tt, w') /\
    files w' = after_getConfig (files w) /\
    In (LError ("Invalid model format: " ++ dq ++ bad ++ dq)) (printed_since w w') /\
    last (printed w') LIntro = LOutro "Done!" /\
    exists before,
      printed_since w w'
      = (before
         ++ [LError ("Invalid model format: " ++ dq ++ bad ++ dq);
             LInfo "Expected format: provider/model (e.g., anthropic/claude-sonnet-4-5)";
             LOutro "Done!"])%list).
  { unfold configCommand. rewrite Hl. unfold intro, say, modify.
    unfold bind at 1. cbv beta iota.
    unfold printed_since.
    destruct Hcase as [Hc|[Hg Hc]].
    - rewrite Hc, Hbad. cbn [orb]. unfold updateModels.
      unfold bind at 1. unfold bind at 1. rewrite getConfig_run.
      unfold update_model. rewrite Hc, Hbad, Hp. run.
      eexists. split; [reflexivity|]. cbn [files printed print set_files].
      split; [reflexivity|]. split; [|split].
      + rewrite <- !app_assoc, skipn_length_app. cbn [app In]. auto.
      + apply last_last.
      + rewrite <- !app_assoc, skipn_length_app. exists [LIntro]. reflexivity.
    - assert (Hany : str_truthy (commitModel options)
                     || str_truthy (changelogModel options) = true).
      { rewrite Hg, Hbad. apply orb_true_r. }
      rewrite Hany. unfold updateModels.
      unfold bind at 1. unfold bind at 1. rewrite getConfig_run.
      destruct Hc as [Hc|(good & parsed & config1 & Hc & Hpg & Ha)].
      + unfold update_model. rewrite Hc, Hg, Hbad, Hp. run.
        eexists. split; [reflexivity|]. cbn [files printed print set_files].
        split; [reflexivity|]. split; [|split].
        * rewrite <- !app_assoc, skipn_length_app. cbn [app In]. auto.
        * apply last_last.
        * rewrite <- !app_assoc, skipn_length_app. exists [LIntro]. reflexivity.
      + assert (Hgood : str_truthy (Some good) = true).
        { destruct good; [discriminate|reflexivity]. }
        unfold update_model. rewrite Hc, Hg, Hgood, Hbad, Hpg, Hp. run.
        rewrite Ha. run.
        eexists. split; [reflexivity|]. cbn [files printed print set_files].
        split; [reflexivity|]. split; [|split].
        * rewrite <- !app_assoc, skipn_length_app. cbn [app In]. auto.
        * apply last_last.
        * rewrite <- !app_assoc, skipn_length_app. eexists [_; _]. reflexivity. }
  destruct Hrun as (w' & Hcmd & Hfiles & Hin & Hlast & Hhint).
  assert (Hmain : main (Config options) w = (Returned tt, w')).
  { unfold main, parseAsync, try_catch. rewrite Hcmd. reflexivity. }
  exists w'. rewrite Hmain. repeat split; auto.
Qed.

End Properties.

(** ** Concrete runs *)

Example split_on_slash : split_on "/" "anthropic/claude/sonnet" = ["anthropic"; "claude"; "sonnet"].
Proof. reflexivity. Qed.

Example parseModelString_keeps_later_slashes :
  parseModelString "openrouter/anthropic/claude" = Some ("openrouter", "anthropic/claude").
Proof. reflexivity. Qed.

Example parseModelString_without_slash : parseModelString "gpt4" = None.
Proof. reflexivity. Qed.

Example isValidVersion_samples :
  map isValidVersion ["1.0.0"; "v1.0.0"; "1.2.3-rc.1+build.5"; "1.0"; "1.2.3-"; "vv1.2.3"; "1.2.3+a-b"]
  = [true; true; true; false; false; false; false].
Proof. reflexivity. Qed.

Example trim_sample : trim ("  abc1234 " ++ nl) = "abc1234".
Proof. reflexivity. Qed.

Example to_string_array : to_string (JArr [JNum 1; JNull; JStr "x"; JArr [JNum 2; JNum 3]]) = "1,,x,2,3".
Proof. reflexivity. Qed.

Example spread_replaces_models_whole :
  spread DEFAULT_CONFIG_fields partial_config = partial_config.
Proof. reflexivity. Qed.

Example get_prop_of_undefined :
  get_prop VUndefined "length"
  = inl (TypeError "Cannot read properties of undefined (reading 'length')").
Proof. reflexivity. Qed.

(** The release of the specification's example: the starting reference
    is the tag, the version is read from the manifest without a prompt,
    the tag is [v1.1.0], and the release commit and the tag are pushed. *)
Example release_of_a_bumped_manifest :
  let run := main (Release release_plain) bumped_world in
  fst run = Returned tt /\
  s_journal (repo (snd run))
  = ["add -A"; "commit chore(release): v1.1.0"; "tag v1.1.0";
     "push origin HEAD --tags"] /\
  In (LInfo "Using latest tag as starting point: v1.0.0") (printed (snd run)) /\
  In (LInfo "Detected version from package.json: 1.1.0") (printed (snd run)) /\
  last (printed (snd run)) LIntro = LOutro "Released 1.1.0!" /\
  fst (getLastChangelogRef (snd run)) = Returned (VJson (JStr "2222222bbbb")).
Proof. vm_compute. repeat split; auto 20. Qed.

(** ** The properties on concrete inputs *)


Lemma history_without_entries_crashes_witness :
  historyFile (files (world_of files_history_object empty_repo no_answers))
    = Some (Wellformed (JObj [])) /\
  fst (addHistoryEntry (sample_entry "v1.0.0" "aaa1111")
         (world_of files_history_object empty_repo no_answers))
    = Thrown (TypeError "Cannot read properties of undefined (reading 'unshift')").
Proof.
  split; [reflexivity|].
  apply (@history_without_entries_crashes Scripted
           (world_of files_history_object empty_repo no_answers)
           (sample_entry "v1.0.0" "aaa1111") eq_refl).
Defined.

Lemma getConfig_merges_top_level_only_witness :
  configFile (files (world_of files_partial_config empty_repo no_answers))
    = Some (Wellformed partial_config) /\
  fst (model_for (spread DEFAULT_CONFIG_fields partial_config) "changelog"
         (world_of files_partial_config empty_repo no_answers))
    = Returned VUndefined.
Proof.
  split; [reflexivity|].
  destruct (@getConfig_merges_top_level_only Scripted
              (world_of files_partial_config empty_repo no_answers)
              partial_config eq_refl) as (_ & H & _).
  destruct (H _ eq_refl) as [_ Hm].
  - repeat constructor. cbn. tauto.
  - eapply Hm; reflexivity.
Defined.

(** C2, as stated, fails: the manifests of the tags [v1.0.0] and [1.0.0]
    declare versions that are equal once the leading [v] is removed, and
    [changed] is true. *)
Lemma detectVersionChange_strips_prefix_counterexample :
  stripVersionPrefix "v1.0.0" = stripVersionPrefix "1.0.0" /\
  fst (detectVersionChange "v1.0.0" "1.0.0" tagged_world)
    = Returned {| oldVersion := JStr "v1.0.0"; newVersion := JStr "1.0.0";
                  changed := true |}.
Proof. split; reflexivity. Defined.

Lemma detectVersionChange_compares_raw_strings_witness :
  declared_version (repo tagged_world) "v1.0.0" = JStr "v1.0.0" /\
  declared_version (repo tagged_world) "1.0.0" = JStr "1.0.0" /\
  exists vc,
    detectVersionChange "v1.0.0" "1.0.0" tagged_world = (Returned vc, tagged_world) /\
    oldVersion vc = JStr "v1.0.0" /\
    newVersion vc = JStr "1.0.0" /\
    (changed vc = false <-> "v1.0.0" = "1.0.0").
Proof.
  split; [reflexivity|]. split; [reflexivity|].
  apply (@detectVersionChange_compares_raw_strings Scripted _ "v1.0.0" "1.0.0"
           tagged_world "v1.0.0" "1.0.0"); reflexivity.
Defined.

Lemma detectVersionChange_changed_iff_witness :
  primitive (declared_version (repo tagged_world) "HEAD") = true /\
  primitive (declared_version (repo tagged_world) "old") = true /\
  exists vc,
    detectVersionChange "HEAD" "old" tagged_world = (Returned vc, tagged_world) /\
    oldVersion vc = JStr "1.1.0" /\
    newVersion vc = JNull /\
    changed vc = false.
Proof.
  split; [reflexivity|]. split; [reflexivity|].
  destruct (@detectVersionChange_changed_iff Scripted _ "HEAD" "old" tagged_world)
    as (vc & H1 & H2 & H3 & H4 & H5); [reflexivity|reflexivity|].
  exists vc. split; [exact H1|]. split; [exact H2|]. split; [exact H3|].
  apply H5. exact H3.
Defined.

Lemma detectTagPrefix_majority_witness :
  git_tags ["--sort=-creatordate"] (repo tagged_world) = inr ["1.0.0"; "v1.0.0"] /\
  detectTagPrefix tagged_world = (Returned "v", tagged_world).
Proof.
  split; [reflexivity|].
  destruct (@detectTagPrefix_majority Scripted _ tagged_world ["1.0.0"; "v1.0.0"])
    as (p & H1 & _ & H3 & _); [reflexivity|].
  rewrite H1. rewrite (H3 eq_refl). reflexivity.
Defined.

Lemma release_starting_reference_witness :
  str_truthy (rel_from release_plain) = false /\
  tags_of (repo sample_world) = inr [] /\
  first_commit (repo sample_world) = None /\
  main (Release release_plain) sample_world
  = (Exited 1,
     print (LError "Could not determine starting reference.")
       (snd (release_until_changelog release_plain sample_world))) /\
  exists w',
    handleChangelog_fromRef release_plain tagged_world = (Returned "1.0.0", w') /\
    repo w' = repo tagged_world.
Proof.
  split; [reflexivity|]. split; [reflexivity|]. split; [reflexivity|]. split.
  - destruct (@release_starting_reference Scripted _ release_plain
                (snd (release_until_changelog release_plain sample_world)))
      as [_ H].
    specialize (H [] eq_refl eq_refl).
    change (starting_reference (rel_from release_plain)
              (option_map tag_name (hd_error []))
              (first_commit
                 (repo (snd (release_until_changelog release_plain sample_world)))))
      with (@None string) in H.
    cbv beta iota in H. destruct H as (_ & _ & H).
    apply (H sample_world). reflexivity.
  - destruct (@release_starting_reference Scripted _ release_plain tagged_world)
      as [_ H].
    specialize (H _ eq_refl eq_refl).
    change (starting_reference (rel_from release_plain)
              (option_map tag_name
                 (hd_error
                    [{| tag_name := "1.0.0"; tag_hash := "0000001" |};
                     {| tag_name := "v1.0.0"; tag_hash := "0000000" |}]))
              (first_commit (repo tagged_world)))
      with (Some "1.0.0") in H.
    cbv beta iota in H. destruct H as (w' & H & _ & Hr & _).
    exists w'. split; [exact H|exact Hr].
Defined.

(** C6, as stated, fails: the typed string [v1.0.0] does not match the
    pattern, and no warning is printed for it. *)
Lemma manual_version_pattern_counterexample :
  regex_test semverPattern "v1.0.0" = false /\
  isValidVersion "v1.0.0" = true /\
  handleChangelog_version release_plain "root0000" "HEAD" (typing_world "v1.0.0")
  = (Returned (JStr "v1.0.0"),
     print (LAsk "Enter version for this release:")
       (answered_text [] (typing_world "v1.0.0"))) /\
  printed_since (typing_world "v1.0.0")
    (snd (handleChangelog_version release_plain "root0000" "HEAD"
            (typing_world "v1.0.0")))
  = [LAsk "Enter version for this release:"].
Proof. repeat split; reflexivity. Defined.

Lemma manual_version_soft_warning_witness :
  str_truthy (rel_version release_plain) = false /\
  detected_version (repo (typing_world "1.0")) "root0000" "HEAD" = None /\
  texts (user (typing_world "1.0")) = [Some "1.0"] /\
  isValidVersion "1.0" = false /\
  fst (handleChangelog_version release_plain "root0000" "HEAD" (typing_world "1.0"))
  = Returned (JStr "1.0") /\
  In (LWarn (dq ++ "1.0" ++ dq ++ " doesn't look like a valid semver version."))
     (printed_since (typing_world "1.0")
        (snd (handleChangelog_version release_plain "root0000" "HEAD"
                (typing_world "1.0")))).
Proof.
  split; [reflexivity|]. split; [reflexivity|]. split; [reflexivity|].
  split; [reflexivity|].
  destruct (@manual_version_soft_warning Scripted _ release_plain "root0000" "HEAD"
              (typing_world "1.0") "1.0" [])
    as (_ & Hw & _ & Hno); [reflexivity|reflexivity|reflexivity|].
  split.
  - rewrite (Hno eq_refl (Some true) [] eq_refl). reflexivity.
  - apply Hw. reflexivity.
Defined.

Lemma empty_range_writes_nothing_witness :
  cl_from changelog_from_abc123 = Some "abc123" /\
  git_checkIsRepo (repo idle_world) = inr true /\
  git_log ["abc123" ++ ".." ++ changelog_toRef changelog_from_abc123]
          (repo idle_world) = inr [] /\
  changelogCommand changelog_from_abc123 idle_world
  = (Returned tt,
     print (LWarn "No commits found in the specified range.")
       (print (LInfo "Generating changelog from abc123 to HEAD")
          (print LIntro idle_world))) /\
  generateAndSaveChangelog "abc123" "HEAD" (JStr "1.0.0") idle_world
  = (Returned "", idle_world).
Proof.
  split; [reflexivity|]. split; [reflexivity|]. split; [reflexivity|].
  destruct (@empty_range_writes_nothing Scripted _) as (_ & Hfrom & Hgen).
  split.
  - apply (Hfrom changelog_from_abc123 idle_world "abc123");
      [reflexivity|discriminate|reflexivity|reflexivity].
  - apply (Hgen "abc123" "HEAD" (JStr "1.0.0") idle_world). reflexivity.
Defined.

(** C9, as stated, fails: for the model string [gpt4] the command
    returns, nothing is thrown, and the exit code is 0. *)
Lemma config_malformed_model_counterexample :
  has_slash "gpt4" = false /\
  fst (configCommand (config_commit_model "gpt4") sample_world) = Returned tt /\
  fst (main (Config (config_commit_model "gpt4")) sample_world) = Returned tt /\
  exit_code (fst (main (Config (config_commit_model "gpt4")) sample_world)) = 0%Z /\
  exit_code (fst (main (Config (config_commit_model "gpt4")) sample_world)) <> 1%Z.
Proof. repeat split; try reflexivity. discriminate. Defined.

Lemma config_malformed_model_returns_witness :
  listModels (config_commit_model "gpt4") = false /\
  "gpt4" <> "" /\
  has_slash "gpt4" = false /\
  commitModel (config_commit_model "gpt4") = Some "gpt4" /\
  exists w',
    main (Config (config_commit_model "gpt4")) sample_world = (Returned tt, w') /\
    files w' = after_getConfig (files sample_world) /\
    In (LError ("Invalid model format: " ++ dq ++ "gpt4" ++ dq))
       (printed_since sample_world w') /\
    exists before,
      printed_since sample_world w'
      = (before
         ++ [LError ("Invalid model format: " ++ dq ++ "gpt4" ++ dq);
             LInfo "Expected format: provider/model (e.g., anthropic/claude-sonnet-4-5)";
             LOutro "Done!"])%list.
Proof.
  split; [reflexivity|]. split; [discriminate|]. split; [reflexivity|].
  split; [reflexivity|].
  destruct (@config_malformed_model_returns Scripted _ (config_commit_model "gpt4")
              sample_world "gpt4")
    as (_ & w' & _ & H2 & _ & H4 & H5 & _ & H7);
    [reflexivity|discriminate|reflexivity|left; reflexivity|].
  exists w'. split; [exact H2|]. split; [exact H4|]. split; [exact H5|exact H7].
Defined.

(** ** Further properties of the code *)

(** *** Versions and model strings *)

Lemma startsWith_v_cons v : startsWith "v" ("v" ++ v) = true.
Proof. cbn. destruct v; reflexivity. Qed.

(** X1.  [formatVersion] only adds the prefix that is missing: it is
    idempotent, stripping its result gives what stripping the version
    gives, and a version is valid exactly when its formatted form is. *)
Theorem formatVersion_keeps_the_version v :
  formatVersion (formatVersion v) = formatVersion v /\
  stripVersionPrefix (formatVersion v) = stripVersionPrefix v /\
  isValidVersion (formatVersion v) = isValidVersion v.
Proof.
  assert (H : stripVersionPrefix (formatVersion v) = stripVersionPrefix v).
  { unfold stripVersionPrefix, formatVersion.
    destruct (startsWith "v" v) eqn:E; [now rewrite E|].
    now rewrite startsWith_v_cons. }
  split; [|split; [exact H|]].
  - unfold formatVersion. destruct (startsWith "v" v) eqn:E; [now rewrite E|].
    now rewrite startsWith_v_cons.
  - unfold isValidVersion. cbv zeta. now rewrite H.
Qed.

Lemma join_split_on_slash s : join "/" (split_on "/" s) = s.
Proof.
  induction s as [|a rest IH]; [reflexivity|].
  cbn [split_on]. pose proof (split_on_nonempty "/" rest) as Hne.
  destruct (Ascii.eqb_spec a "/") as [->|Hna].
  - destruct (split_on "/" rest) as [|w ws]; [congruence|].
    cbn [join]. cbn [join] in IH. now rewrite IH.
  - destruct (split_on "/" rest) as [|w ws]; [congruence|].
    destruct ws as [|w' ws]; cbn [join] in *; now rewrite <- IH.
Qed.

Lemma split_on_slash_head s : has_slash (hd "" (split_on "/" s)) = false.
Proof.
  induction s as [|a rest IH]; [reflexivity|].
  cbn [split_on]. pose proof (split_on_nonempty "/" rest) as Hne.
  destruct (Ascii.eqb a "/") eqn:E; [reflexivity|].
  destruct (split_on "/" rest) as [|w ws]; [congruence|].
  cbn [hd has_slash] in *. now rewrite E.
Qed.

Lemma split_on_slash_app p m :
  has_slash p = false ->
  split_on "/" (p ++ "/" ++ m) = p :: split_on "/" m.
Proof.
  induction p as [|a p IH]; intros H; [reflexivity|].
  cbn [has_slash] in H. apply orb_false_iff in H as [Ha Hp].
  cbn [append split_on]. rewrite Ha.
  change (p ++ String "/" m) with (p ++ "/" ++ m). now rewrite IH.
Qed.

(** X2.  [parseModelString] cuts a model string at its first [/]: it
    gives a provider and a model exactly when the string is the provider,
    a [/] and the model, where the provider has no [/] (the model may). *)
Theorem parseModelString_first_slash s provider model :
  parseModelString s = Some (provider, model)
  <-> has_slash provider = false /\ s = provider ++ "/" ++ model.
Proof.
  unfold parseModelString. cbv zeta. split.
  - pose proof (join_split_on_slash s) as Hj.
    pose proof (split_on_slash_head s) as Hh.
    destruct (split_on "/" s) as [|w [|w' ws]]; cbn [List.length Nat.ltb Nat.leb];
      try discriminate.
    intros H. injection H as <- <-. cbn [hd tl] in *.
    split; [exact Hh|]. symmetry. exact Hj.
  - intros [Hp ->]. rewrite split_on_slash_app by exact Hp.
    pose proof (split_on_nonempty "/" model) as Hne.
    pose proof (join_split_on_slash model) as Hj.
    destruct (split_on "/" model) as [|w ws]; [congruence|].
    cbn [List.length Nat.ltb Nat.leb hd tl]. now rewrite Hj.
Qed.

(** *** The shape of a valid version *)

Lemma matches_star_set cs s :
  matches (RStar (RSet cs)) s <-> all_chars (cset_mem cs) s = true.
Proof.
  split.
  - intros H. remember (RStar (RSet cs)) as r eqn:E.
    induction H; try discriminate; [reflexivity|].
    injection E as ->. specialize (IHmatches2 eq_refl).
    inversion H as [|? a Hm| | | | |]; subst. cbn. now rewrite Hm.
  - induction s as [|a s IH]; cbn; intros H; [constructor|].
    apply andb_true_iff in H as [Ha Hs].
    change (String a s) with (String a "" ++ s).
    constructor; [now constructor|auto].
Qed.

Lemma matches_plus_set cs s :
  matches (RPlus (RSet cs)) s <-> s <> "" /\ all_chars (cset_mem cs) s = true.
Proof.
  unfold RPlus. split.
  - intros H. inversion H as [| |? ? s1 s2 H1 H2| | | |]; subst.
    inversion H1 as [|? a Hm| | | | |]; subst. apply matches_star_set in H2.
    split; [discriminate|]. cbn. now rewrite Hm.
  - intros [Hne H]. destruct s as [|a s]; [congruence|].
    cbn in H. apply andb_true_iff in H as [Ha Hs].
    change (String a s) with (String a "" ++ s).
    constructor; [now constructor|now apply matches_star_set].
Qed.

Lemma matches_optional_part c s :
  matches (ROpt (RSeq (RSet (CLit c)) (RPlus (RSet (CUnion CWord (CLit "."))))))
          s
  <-> s = "" \/ exists id, s = String c id /\ identifier id.
Proof.
  unfold ROpt, identifier. split.
  - intros H. inversion H as [| | |? ? ? H1|? ? ? H1| |]; subst.
    + inversion H1 as [| |? ? s1 s2 Hc Hid| | | |]; subst.
      inversion Hc as [|? ? Hm| | | | |]; subst. cbn in Hm.
      apply Ascii.eqb_eq in Hm as ->.
      apply matches_plus_set in Hid. right. exists s2. split; [reflexivity|].
      exact Hid.
    + inversion H1; subst. now left.
  - intros [->|(id & -> & Hid)]; [apply MAltR; constructor|].
    apply MAltL. change (String c id) with (String c "" ++ id).
    constructor; [constructor; cbn; apply Ascii.eqb_refl|].
    now apply matches_plus_set.
Qed.

(** X3.  A version is valid exactly when, after the removal of one
    leading [v], it is three non-empty runs of digits separated by dots,
    then optionally [-] and a non-empty run of word characters and dots,
    then optionally [+] and such a run. *)
Theorem isValidVersion_shape v :
  isValidVersion v = true
  <-> exists major minor patch pre build,
        stripVersionPrefix v = major ++ "." ++ minor ++ "." ++ patch ++ pre ++ build /\
        numeric major /\ numeric minor /\ numeric patch /\
        (pre = "" \/ exists id, pre = "-" ++ id /\ identifier id) /\
        (build = "" \/ exists id, build = "+" ++ id /\ identifier id).
Proof.
  unfold isValidVersion. cbv zeta. rewrite regex_test_matches.
  unfold semverPattern. cbv zeta. unfold numeric. split.
  - intros H.
    inversion H as [| |? ? major r1 Hmajor K1 E1 E2| | | |]; subst.
    inversion K1 as [| |? ? d1 r2 Hd1 K2 E3 E4| | | |]; subst.
    inversion K2 as [| |? ? minor r3 Hminor K3 E5 E6| | | |]; subst.
    inversion K3 as [| |? ? d2 r4 Hd2 K4 E7 E8| | | |]; subst.
    inversion K4 as [| |? ? patch r5 Hpatch K5 E9 E10| | | |]; subst.
    inversion K5 as [| |? ? pre build Hpre Hbuild E11 E12| | | |]; subst.
    inversion Hd1 as [|? a1 Ha1| | | | |]; subst.
    inversion Hd2 as [|? a2 Ha2| | | | |]; subst.
    cbn in Ha1, Ha2. apply Ascii.eqb_eq in Ha1 as ->. apply Ascii.eqb_eq in Ha2 as ->.
    apply matches_plus_set in Hmajor, Hminor, Hpatch.
    apply matches_optional_part in Hpre, Hbuild.
    exists major, minor, patch, pre, build.
    split; [reflexivity|]. repeat split; try tauto.
  - intros (major & minor & patch & pre & build & -> & Hmajor & Hminor & Hpatch
            & Hpre & Hbuild).
    constructor; [now apply matches_plus_set|].
    change ("." ++ minor ++ "." ++ patch ++ pre ++ build)
      with (String "." "" ++ minor ++ "." ++ patch ++ pre ++ build).
    constructor; [constructor; reflexivity|].
    constructor; [now apply matches_plus_set|].
    change ("." ++ patch ++ pre ++ build)
      with (String "." "" ++ patch ++ pre ++ build).
    constructor; [constructor; reflexivity|].
    constructor; [now apply matches_plus_set|].
    constructor; now apply matches_optional_part.
Qed.

(** *** The clean-up of a response *)

Lemma append_assoc_s (a b c : string) : (a ++ b) ++ c = a ++ b ++ c.
Proof. induction a; cbn; congruence. Qed.

Lemma append_nil_r_s (a : string) : a ++ "" = a.
Proof. induction a; cbn; congruence. Qed.

Lemma rev_string_acc s : forall acc, rev_string s acc = string_rev s ++ acc.
Proof.
  unfold string_rev. induction s as [|a s IH]; intros acc; [reflexivity|].
  cbn [rev_string]. rewrite (IH (String a acc)), (IH (String a "")).
  now rewrite append_assoc_s.
Qed.

Lemma string_rev_app a b : string_rev (a ++ b) = string_rev b ++ string_rev a.
Proof.
  induction a as [|c a IH]; cbn [append].
  - now rewrite append_nil_r_s.
  - unfold string_rev at 1 3. cbn [rev_string].
    rewrite !rev_string_acc, IH. now rewrite append_assoc_s.
Qed.

Lemma string_rev_involutive s : string_rev (string_rev s) = s.
Proof.
  induction s as [|a s IH]; [reflexivity|].
  unfold string_rev at 2. cbn [rev_string]. rewrite rev_string_acc.
  rewrite string_rev_app, IH. reflexivity.
Qed.

Lemma drop_word_app lang c rest :
  all_chars is_word lang = true -> is_word c = false ->
  drop_word (lang ++ String c rest) = String c rest.
Proof.
  intros Hl Hc. induction lang as [|a lang IH]; cbn in *.
  - now rewrite Hc.
  - apply andb_true_iff in Hl as [Ha Hl]. rewrite Ha. auto.
Qed.

Lemma startsWith_fence x : startsWith "```" ("```" ++ x) = true.
Proof. cbn. destruct x; reflexivity. Qed.

Lemma drop3_fence x : drop3 ("```" ++ x) = x.
Proof. reflexivity. Qed.

(** X4.  A response that is one fenced block (the opening fence, a
    language tag of word characters, the body between two line breaks, the
    closing fence) is cleaned up to its body, trimmed. *)
Theorem cleanupResponse_fenced_block lang body :
  all_chars is_word lang = true ->
  cleanupResponse ("```" ++ lang ++ nl ++ body ++ nl ++ "```") = trim body.
Proof.
  intros Hl. unfold cleanupResponse. f_equal.
  assert (Ho : strip_fence_open ("```" ++ lang ++ nl ++ body ++ nl ++ "```")
               = body ++ nl ++ "```").
  { unfold strip_fence_open. rewrite startsWith_fence, drop3_fence.
    replace (nl ++ body ++ nl ++ "```")
      with (String (ascii_of_nat 10) (body ++ nl ++ "```")) by reflexivity.
    rewrite drop_word_app by (auto; reflexivity). reflexivity. }
  rewrite Ho. unfold strip_fence_close. cbv zeta.
  rewrite !string_rev_app.
  change (string_rev "```") with "```". change (string_rev nl) with nl.
  rewrite append_assoc_s, startsWith_fence, drop3_fence.
  replace (nl ++ string_rev body)
    with (String (ascii_of_nat 10) (string_rev body)) by reflexivity.
  cbn [drop_newline]. rewrite Ascii.eqb_refl.
  apply string_rev_involutive.
Qed.

Lemma trimStart_no_space s : starts_with_space (trimStart s) = false.
Proof.
  induction s as [|a s IH]; [reflexivity|]. cbn [trimStart].
  destruct (is_space a) eqn:E; [exact IH|]. cbn. exact E.
Qed.

Lemma trimStart_suffix s : exists p, s = p ++ trimStart s.
Proof.
  induction s as [|a s [p IH]]; [now exists ""|]. cbn [trimStart].
  destruct (is_space a); [|now exists ""].
  exists (String a p). cbn. now rewrite <- IH.
Qed.

Lemma trim_no_space s :
  starts_with_space (trim s) = false /\
  starts_with_space (string_rev (trim s)) = false.
Proof.
  unfold trim. fold (string_rev (trimStart s)).
  fold (string_rev (trimStart (string_rev (trimStart s)))).
  split.
  - destruct (trimStart_suffix (string_rev (trimStart s))) as [p Hp].
    apply (f_equal string_rev) in Hp.
    rewrite string_rev_involutive, string_rev_app in Hp.
    pose proof (trimStart_no_space s) as Hs. rewrite Hp in Hs.
    destruct (string_rev (trimStart (string_rev (trimStart s)))); [reflexivity|].
    exact Hs.
  - rewrite string_rev_involutive. apply trimStart_no_space.
Qed.

(** X5.  Whatever the backend answers, the cleaned-up response neither
    starts nor ends with white space. *)
Theorem cleanupResponse_is_trimmed text :
  starts_with_space (cleanupResponse text) = false /\
  starts_with_space (string_rev (cleanupResponse text)) = false.
Proof. unfold cleanupResponse. apply trim_no_space. Qed.

Section Further.

Context {Repo : Type} {git : SimpleGit Repo}.

Implicit Types (w : @World Repo).

Ltac run :=
  cbv beta iota delta
    [bind ret throw process_exit try_catch lift gets modify say update_files
     git_query git_update ensureConfigDir write_history write_config
     write_commitPrompt write_changelogPrompt writeChangelog readChangelog
     JSON_stringify info warn error success step intro outro message
     console_log];
  cbn [fst snd files repo user backend clock clipboard printed set_files
       set_repo set_user print configDir configFile commitPromptFile
       changelogPromptFile historyFile changelogFile confirms selects texts].

(** *** Queries of the repository *)

(** What [detectVersionChange] reads on one side, case by case of what
    [git show] gives for the manifest of the reference. *)
Lemma declared_version_cases (r : Repo) ref :
  (forall e, git_show [ref ++ ":" ++ "package.json"] r = inl e ->
     declared_version r ref = JNull) /\
  (forall raw, git_show [ref ++ ":" ++ "package.json"] r = inr (Malformed raw) ->
     declared_version r ref = JNull) /\
  (forall v, git_show [ref ++ ":" ++ "package.json"] r = inr (Wellformed v) ->
     (forall fields, v <> JObj fields) ->
     declared_version r ref = JNull) /\
  (forall fields, git_show [ref ++ ":" ++ "package.json"] r
                  = inr (Wellformed (JObj fields)) ->
     assoc_get "version" fields = None ->
     declared_version r ref = JNull) /\
  (forall fields version,
     git_show [ref ++ ":" ++ "package.json"] r = inr (Wellformed (JObj fields)) ->
     assoc_get "version" fields = Some version ->
     declared_version r ref
     = if truthy (VJson version) then version else JNull) /\
  (forall fields version,
     git_show [ref ++ ":" ++ "package.json"] r = inr (Wellformed (JObj fields)) ->
     assoc_get "version" fields = Some (JStr version) -> version <> "" ->
     declared_version r ref = JStr version).
Proof.
  unfold declared_version, file_at, version_of.
  repeat split.
  - intros e ->. reflexivity.
  - intros raw ->. cbn [document_truthy JSON_parse].
    destruct (negb (String.eqb raw "")); reflexivity.
  - intros v -> Hv. cbn [document_truthy JSON_parse].
    destruct v as [| | | | |fields];
      try (exfalso; apply (Hv fields); reflexivity); reflexivity.
  - intros fields -> Hv. cbn. rewrite Hv. reflexivity.
  - intros fields version -> Hv. cbn [document_truthy JSON_parse get_prop].
    rewrite Hv. reflexivity.
  - intros fields version -> Hv Hne. cbn. rewrite Hv. cbn.
    apply String.eqb_neq in Hne. now rewrite Hne.
Qed.

(** X6.  Version detection is best effort: whatever the repository holds
    at the two references, it returns and leaves the world as it is.  On
    either side, old or new: a manifest that is missing, that does not
    parse, that is not an object ([null], a number, a text, an array), or
    that has no [version], gives no version; a manifest with a [version]
    gives it when it is truthy and no version when it is not, so a
    non-empty version string is returned as it is.  Without a new version
    nothing has changed. *)
Theorem detectVersionChange_never_aborts fromRef toRef w :
  exists vc,
    detectVersionChange fromRef toRef w = (Returned vc, w) /\
    (forall ref found,
        (ref = fromRef /\ found = oldVersion vc) \/
        (ref = toRef /\ found = newVersion vc) ->
        (forall e, git_show [ref ++ ":" ++ "package.json"] (repo w) = inl e ->
           found = JNull) /\
        (forall raw,
           git_show [ref ++ ":" ++ "package.json"] (repo w) = inr (Malformed raw) ->
           found = JNull) /\
        (forall v,
           git_show [ref ++ ":" ++ "package.json"] (repo w) = inr (Wellformed v) ->
           (forall fields, v <> JObj fields) ->
           found = JNull) /\
        (forall fields,
           git_show [ref ++ ":" ++ "package.json"] (repo w)
           = inr (Wellformed (JObj fields)) ->
           assoc_get "version" fields = None ->
           found = JNull) /\
        (forall fields version,
           git_show [ref ++ ":" ++ "package.json"] (repo w)
           = inr (Wellformed (JObj fields)) ->
           assoc_get "version" fields = Some version ->
           found = if truthy (VJson version) then version else JNull) /\
        (forall fields version,
           git_show [ref ++ ":" ++ "package.json"] (repo w)
           = inr (Wellformed (JObj fields)) ->
           assoc_get "version" fields = Some (JStr version) -> version <> "" ->
           found = JStr version)) /\
    (newVersion vc = JNull -> changed vc = false) /\
    changed vc = negb (strict_eq (oldVersion vc) (newVersion vc))
                 && negb (strict_eq (newVersion vc) JNull).
Proof.
  eexists. split; [apply detectVersionChange_run|].
  cbn [oldVersion newVersion changed].
  split; [|split].
  - intros ref found [[-> ->]|[-> ->]]; apply declared_version_cases.
  - intros ->. apply andb_false_r.
  - reflexivity.
Qed.

(** X7.  [getTags] gives one tag per name that git lists, in the same
    order, and does not fail on a name that does not resolve: such a tag
    has the empty hash, any other the trimmed hash. *)
Theorem getTags_keeps_every_name w names :
  git_tags ["--sort=-creatordate"] (repo w) = inr names ->
  exists tags,
    getTags w = (Returned tags, w) /\
    map tag_name tags = names /\
    (forall t, In t tags ->
       match git_revparse [tag_name t] (repo w) with
       | inr hash => tag_hash t = trim hash
       | inl _ => tag_hash t = ""
       end).
Proof.
  intros H. rewrite getTags_run. unfold tags_of. rewrite H.
  eexists. split; [reflexivity|]. split.
  - rewrite map_map. cbn [tag_name]. apply map_id.
  - intros t Ht. apply in_map_iff in Ht as (name & <- & _). cbn [tag_name tag_hash].
    destruct (git_revparse [name] (repo w)); reflexivity.
Qed.

Lemma substring_0_prefix n : forall s, exists rest, s = substring 0 n s ++ rest.
Proof.
  induction n as [|n IH]; intros s.
  - exists s. destruct s; reflexivity.
  - destruct s as [|a s]; [now exists ""|].
    destruct (IH s) as [rest Hr]. exists rest. cbn. now rewrite <- Hr.
Qed.

Lemma substring_0_length n : forall s,
  String.length (substring 0 n s) = Nat.min n (String.length s).
Proof.
  induction n as [|n IH]; intros s.
  - destruct s; reflexivity.
  - destruct s as [|a s]; [reflexivity|]. cbn. now rewrite IH.
Qed.

(** X8.  [getCommitsBetween] gives one commit per entry of the log of the
    range [from..to], in the same order, with the hash and the message of
    the entry; its short hash is the first seven characters of the hash
    (the whole hash when that is shorter). *)
Theorem getCommitsBetween_short_hashes from to w log :
  git_log [from ++ ".." ++ to] (repo w) = inr log ->
  exists commits,
    getCommitsBetween from to w = (Returned commits, w) /\
    map commit_hash commits = map log_hash log /\
    map commit_message commits = map log_message log /\
    Forall (fun c =>
              (exists rest, commit_hash c = commit_shortHash c ++ rest) /\
              String.length (commit_shortHash c)
              = Nat.min 7 (String.length (commit_hash c)))
           commits.
Proof.
  intros H. unfold getCommitsBetween. run. rewrite H. cbv beta iota.
  eexists. split; [reflexivity|]. rewrite !map_map. cbn [commit_hash commit_message].
  repeat split. apply Forall_forall. intros c Hc.
  apply in_map_iff in Hc as (entry & <- & _).
  cbn [commit_hash commit_shortHash]. unfold slice0. split.
  - apply substring_0_prefix.
  - apply substring_0_length.
Qed.

(** X9.  In the status that [getStatus] gives, the unstaged files are
    exactly the modified files that are not staged: no file is both
    staged and unstaged. *)
Theorem getStatus_unstaged_not_staged w st :
  git_status (repo w) = inr st ->
  exists status,
    getStatus w = (Returned status, w) /\
    staged status = st_staged st /\
    untracked status = st_not_added st /\
    (forall f, In f (unstaged status)
               <-> In f (st_modified st) /\ ~ In f (staged status)).
Proof.
  intros H. unfold getStatus. run. rewrite H. cbv beta iota.
  eexists. split; [reflexivity|]. cbn [staged unstaged untracked].
  split; [reflexivity|]. split; [reflexivity|]. intros f. split.
  - intros Hf. apply filter_In in Hf as [Hm Hn]. split; [exact Hm|]. intros Hin.
    apply negb_true_iff in Hn.
    assert (existsb (String.eqb f) (st_staged st) = true); [|congruence].
    apply existsb_exists. exists f. split; [exact Hin|apply String.eqb_refl].
  - intros [Hm Hn]. apply filter_In. split; [exact Hm|].
    apply negb_true_iff. apply not_true_iff_false. intros He.
    apply existsb_exists in He as (x & Hx & Hex).
    apply String.eqb_eq in Hex. subst x. contradiction.
Qed.

Lemma split_on_head_no_char c s : has_char c (hd "" (split_on c s)) = false.
Proof.
  induction s as [|a rest IH]; [reflexivity|].
  cbn [split_on]. pose proof (split_on_nonempty c rest) as Hne.
  destruct (Ascii.eqb a c) eqn:E; [reflexivity|].
  destruct (split_on c rest) as [|x xs]; [congruence|].
  cbn [hd has_char] in *. now rewrite E.
Qed.

(** X10.  [getFirstCommit] never throws and leaves the world as it is;
    when [git rev-list] fails or prints nothing there is no first commit,
    and otherwise the commit is the first line of the trimmed output: it
    is not empty and has no line break. *)
Theorem getFirstCommit_first_line w :
  exists first,
    getFirstCommit w = (Returned first, w) /\
    (forall e, git_raw ["rev-list"; "--max-parents=0"; "HEAD"] (repo w) = inl e ->
               first = None) /\
    (forall hash, first = Some hash ->
       hash <> "" /\ has_char (ascii_of_nat 10) hash = false /\
       exists out, git_raw ["rev-list"; "--max-parents=0"; "HEAD"] (repo w) = inr out /\
                   hash = hd "" (split_on (ascii_of_nat 10) (trim out))).
Proof.
  eexists. split; [apply getFirstCommit_run|]. unfold first_commit. split.
  - intros e ->. reflexivity.
  - intros hash. destruct (git_raw _ (repo w)) as [e|out]; [discriminate|].
    cbv zeta.
    destruct (String.eqb_spec (hd "" (split_on (ascii_of_nat 10) (trim out))) "")
      as [E|E]; [discriminate|].
    intros Hh. injection Hh as <-. split; [exact E|].
    split; [apply split_on_head_no_char|]. now exists out.
Qed.

(** *** The files of the configuration directory *)

Lemma getChangelogPrompt_returns w :
  exists text w1, getChangelogPrompt w = (Returned text, w1).
Proof.
  unfold getChangelogPrompt. run.
  destruct (changelogPromptFile (files w)); do 2 eexists; reflexivity.
Qed.

Lemma getCommitPrompt_returns w :
  exists text w1, getCommitPrompt w = (Returned text, w1).
Proof.
  unfold getCommitPrompt. run.
  destruct (commitPromptFile (files w)); do 2 eexists; reflexivity.
Qed.

(** X11.  A prompt template is created once: the first read of an absent
    template writes the built-in default and returns it, an existing
    template is returned as it is and never overwritten, and a second read
    returns the same text and changes nothing. *)
Theorem prompt_templates_created_once w :
  (exists text w1,
      getChangelogPrompt w = (Returned text, w1) /\
      text = match changelogPromptFile (files w) with
             | Some existing => existing
             | None => DEFAULT_CHANGELOG_PROMPT
             end /\
      changelogPromptFile (files w1) = Some text /\
      commitPromptFile (files w1) = commitPromptFile (files w) /\
      getChangelogPrompt w1 = (Returned text, w1)) /\
  (exists text w1,
      getCommitPrompt w = (Returned text, w1) /\
      text = match commitPromptFile (files w) with
             | Some existing => existing
             | None => DEFAULT_COMMIT_PROMPT
             end /\
      commitPromptFile (files w1) = Some text /\
      changelogPromptFile (files w1) = changelogPromptFile (files w) /\
      getCommitPrompt w1 = (Returned text, w1)).
Proof.
  split.
  - unfold getChangelogPrompt. run.
    destruct (changelogPromptFile (files w)) as [existing|] eqn:E;
      do 2 eexists; (split; [reflexivity|]); cbn [files changelogPromptFile
        commitPromptFile set_files]; rewrite ?E; repeat split; reflexivity.
  - unfold getCommitPrompt. run.
    destruct (commitPromptFile (files w)) as [existing|] eqn:E;
      do 2 eexists; (split; [reflexivity|]); cbn [files changelogPromptFile
        commitPromptFile set_files]; rewrite ?E; repeat split; reflexivity.
Qed.

(** X12.  Loading the configuration never throws and never overwrites a
    configuration file, even one that does not parse (the defaults are
    returned for it); an absent file is created with the defaults; and a
    second load returns the same configuration and changes nothing. *)
Theorem getConfig_loads_without_overwriting w :
  exists config w1,
    getConfig w = (Returned config, w1) /\
    (forall content, configFile (files w) = Some content ->
                     configFile (files w1) = Some content) /\
    (configFile (files w) = None ->
     config = DEFAULT_CONFIG /\
     configFile (files w1) = Some (Wellformed DEFAULT_CONFIG)) /\
    (forall raw, configFile (files w) = Some (Malformed raw) ->
                 config = DEFAULT_CONFIG) /\
    getConfig w1 = (Returned config, w1).
Proof.
  do 2 eexists. split; [apply getConfig_run|].
  rewrite getConfig_run. unfold loaded_config, after_getConfig.
  cbn [files set_files configFile].
  destruct (configFile (files w)) as [[raw|v]|]; repeat split; try discriminate;
    try (intros ? E; exact E).
Qed.

Lemma assoc_set_keys_in {A : Type} (k k' : string) (v : A) fs :
  In k' (map fst (assoc_set k v fs)) <-> k' = k \/ In k' (map fst fs).
Proof.
  induction fs as [|[k1 v1] fs IH]; cbn.
  - intuition.
  - destruct (String.eqb_spec k k1) as [->|Hne]; cbn; [intuition|].
    rewrite IH. intuition.
Qed.

Lemma assoc_set_NoDup {A : Type} (k : string) (v : A) fs :
  NoDup (map fst fs) -> NoDup (map fst (assoc_set k v fs)).
Proof.
  induction fs as [|[k1 v1] fs IH]; cbn; intros H.
  - constructor; [intros []|constructor].
  - inversion H as [|? ? Hn Hd]; subst.
    destruct (String.eqb_spec k k1) as [->|Hne]; cbn; [now constructor|].
    constructor; [|auto]. rewrite assoc_set_keys_in. intuition.
Qed.

Lemma fold_assoc_set_NoDup (props : list (string * json)) : forall fs,
  NoDup (map fst fs) ->
  NoDup (map fst (fold_left (fun acc kv => assoc_set (fst kv) (snd kv) acc) props fs)).
Proof.
  induction props as [|[k v] props IH]; intros fs H; [exact H|].
  cbn [fold_left]. apply IH. now apply assoc_set_NoDup.
Qed.

(** The configuration that a load gives is an object with one property
    per name. *)
Lemma loaded_config_object (f : FileSystem) :
  exists fields, loaded_config f = JObj fields /\ NoDup (map fst fields).
Proof.
  assert (Hd : NoDup (map fst DEFAULT_CONFIG_fields)).
  { cbn. constructor; [intros []|constructor]. }
  unfold loaded_config.
  destruct (configFile f) as [[raw|v]|]; cbn [JSON_parse];
    try (exists DEFAULT_CONFIG_fields; split; [reflexivity|exact Hd]).
  unfold spread. eexists. split; [reflexivity|].
  now apply fold_assoc_set_NoDup.
Qed.

(** X13.  A model chosen with [config --commit-model] (or
    [--changelog-model]) survives the round trip through the file: when
    the string is well formed and the configuration has a [models] object,
    the command returns, and the configuration loaded afterwards has the
    chosen provider and model under that purpose and every other entry of
    [models] as before. *)
Theorem configCommand_saves_the_chosen_model options w key s parsed models :
  listModels options = false ->
  (key = "commit" /\ commitModel options = Some s /\
   str_truthy (changelogModel options) = false) \/
  (key = "changelog" /\ changelogModel options = Some s /\
   str_truthy (commitModel options) = false) ->
  parseModelString s = Some parsed ->
  get_prop (loaded_config (files w)) "models" = inr (VJson (JObj models)) ->
  exists w',
    configCommand options w = (Returned tt, w') /\
    fst (getConfig w') = Returned (loaded_config (files w')) /\
    get_prop (loaded_config (files w')) "models"
    = inr (VJson (JObj (assoc_set key (model_json parsed) models))) /\
    fst (model_for (loaded_config (files w')) key w')
    = Returned (VJson (model_json parsed)) /\
    (forall other, other <> key ->
       fst (model_for (loaded_config (files w')) other w')
       = fst (model_for (loaded_config (files w)) other w)).
Proof.
  intros Hl Hcase Hp Hm.
  assert (Hs : str_truthy (Some s) = true).
  { destruct s; [discriminate|reflexivity]. }
  destruct (loaded_config_object (files w)) as (cfs & Hc & Hnd).
  assert (Ha : assign_model (loaded_config (files w)) key parsed
               = inr (JObj (assoc_set "models"
                              (JObj (assoc_set key (model_json parsed) models)) cfs))).
  { unfold assign_model. rewrite Hm, Hc. reflexivity. }
  set (saved := JObj (assoc_set "models"
                        (JObj (assoc_set key (model_json parsed) models)) cfs)) in *.
  assert (Hrun : exists w',
    configCommand options w = (Returned tt, w') /\
    configFile (files w') = Some (Wellformed saved)).
  { unfold configCommand. rewrite Hl. unfold intro, say, modify.
    unfold bind at 1. cbv beta iota.
    destruct Hcase as [(-> & Hopt & Hother)|(-> & Hopt & Hother)].
    - rewrite Hopt, Hs. cbn [orb]. unfold updateModels.
      unfold bind at 1. unfold bind at 1. rewrite getConfig_run.
      unfold update_model. rewrite Hopt, Hs, Hp, Hother.
      cbn [files set_files print] in *. run. rewrite Ha. run.
      eexists. split; reflexivity.
    - rewrite Hopt, Hs, Hother. cbn [orb]. unfold updateModels.
      unfold bind at 1. unfold bind at 1. rewrite getConfig_run.
      unfold update_model. rewrite Hopt, Hs, Hp, Hother.
      cbn [files set_files print] in *. run. rewrite Ha. run.
      eexists. split; reflexivity. }
  destruct Hrun as (w' & Hcmd & Hfile).
  assert (Hloaded : get_prop (loaded_config (files w')) "models"
                    = inr (VJson (JObj (assoc_set key (model_json parsed) models)))).
  { unfold loaded_config. rewrite Hfile. cbn [JSON_parse]. unfold spread, saved.
    cbn [get_prop own_props].
    rewrite spread_fields_lookup by now apply assoc_set_NoDup.
    now rewrite assoc_get_set_same. }
  exists w'. split; [exact Hcmd|]. split; [now rewrite getConfig_run|].
  split; [exact Hloaded|]. split.
  - unfold model_for. run. rewrite Hloaded. cbn [get_prop].
    now rewrite assoc_get_set_same.
  - intros other Hne. unfold model_for. run. rewrite Hloaded, Hm. cbn [get_prop].
    now rewrite assoc_get_set_other.
Qed.

(** *** What a computation leaves untouched *)

Section Frames.

Context {X : Type} (obs : @World Repo -> X).

Lemma preserves_unchanged {A : Type} (m : @M Repo A) :
  (forall w, snd (m w) = w) -> preserves obs m.
Proof. intros H w. now rewrite H. Qed.

Lemma preserves_ret {A : Type} (a : A) : preserves obs (@ret Repo A a).
Proof. now apply preserves_unchanged. Qed.

Lemma preserves_throw {A : Type} (e : exn) : preserves obs (@throw Repo A e).
Proof. now apply preserves_unchanged. Qed.

Lemma preserves_exit {A : Type} (c : Z) : preserves obs (@process_exit Repo A c).
Proof. now apply preserves_unchanged. Qed.

Lemma preserves_lift {A : Type} (r : result A) : preserves obs (@lift Repo A r).
Proof. destruct r; now apply preserves_unchanged. Qed.

Lemma preserves_gets {A : Type} (f : @World Repo -> A) : preserves obs (gets f).
Proof. now apply preserves_unchanged. Qed.

Lemma preserves_git_query {A : Type} (f : Repo -> result A) :
  preserves obs (git_query f).
Proof.
  apply preserves_unchanged. intros w. unfold git_query.
  destruct (f (repo w)); reflexivity.
Qed.

Lemma preserves_modify (f : @World Repo -> @World Repo) :
  (forall w, obs (f w) = obs w) -> preserves obs (modify f).
Proof. intros H w. apply H. Qed.

Lemma preserves_git_update (f : Repo -> result Repo) :
  (forall r w, obs (set_repo r w) = obs w) -> preserves obs (git_update f).
Proof.
  intros H w. unfold git_update. destruct (f (repo w)); [reflexivity|apply H].
Qed.

Lemma preserves_next_confirm :
  (forall u w, obs (set_user u w) = obs w) -> preserves obs next_confirm.
Proof.
  intros H w. unfold next_confirm. destruct (confirms (user w)); [reflexivity|apply H].
Qed.

Lemma preserves_next_select :
  (forall u w, obs (set_user u w) = obs w) -> preserves obs next_select.
Proof.
  intros H w. unfold next_select. destruct (selects (user w)); [reflexivity|apply H].
Qed.

Lemma preserves_next_text :
  (forall u w, obs (set_user u w) = obs w) -> preserves obs next_text.
Proof.
  intros H w. unfold next_text. destruct (texts (user w)); [reflexivity|apply H].
Qed.

Lemma preserves_bind {A B : Type} (m : @M Repo A) (k : A -> M B) :
  preserves obs m -> (forall a, preserves obs (k a)) -> preserves obs (bind m k).
Proof.
  intros Hm Hk w. unfold bind. specialize (Hm w).
  destruct (m w) as [[a|e|c] w1]; cbn [snd] in *; auto.
  now rewrite Hk.
Qed.

Lemma preserves_try_catch {A : Type} (m : @M Repo A) (h : exn -> M A) :
  preserves obs m -> (forall e, preserves obs (h e)) -> preserves obs (try_catch m h).
Proof.
  intros Hm Hh w. unfold try_catch. specialize (Hm w).
  destruct (m w) as [[a|e|c] w1]; cbn [snd] in *; auto.
  now rewrite Hh.
Qed.

(** Stepping over a computation that preserves the observation. *)
Lemma preserved_through_bind {A B : Type} (m : @M Repo A) (k : A -> M B) w :
  preserves obs m ->
  (forall a w1, obs w1 = obs w -> obs (snd (k a w1)) = obs w) ->
  obs (snd (bind m k w)) = obs w.
Proof.
  intros Hm Hk. unfold bind. specialize (Hm w).
  destruct (m w) as [[a|e|c] w1]; cbn [snd] in *; auto.
Qed.

Lemma preserves_resolve_tags names : preserves obs (resolve_tags names).
Proof. apply preserves_unchanged. intros w. now rewrite resolve_tags_run. Qed.

Lemma preserves_print_lines lines :
  (forall l w, obs (print l w) = obs w) -> preserves obs (print_lines lines).
Proof.
  intros H. induction lines as [|l lines IH]; cbn [print_lines].
  - apply preserves_ret.
  - apply preserves_bind; [|intros; exact IH].
    unfold console_log, say. apply preserves_modify. intros; apply H.
Qed.

End Frames.

(** Proves [preserves obs m] when [m] is built from the primitives and
    [obs] computes to the same value on the worlds they make. *)
Ltac frame :=
  repeat first
    [ apply preserves_bind; [|intros]
    | apply preserves_try_catch; [|intros]
    | apply preserves_ret
    | apply preserves_throw
    | apply preserves_exit
    | apply preserves_lift
    | apply preserves_gets
    | apply preserves_git_query
    | apply preserves_resolve_tags
    | apply preserves_modify; intros; reflexivity
    | apply preserves_git_update; intros; reflexivity
    | apply preserves_next_confirm; intros; reflexivity
    | apply preserves_next_select; intros; reflexivity
    | apply preserves_next_text; intros; reflexivity
    | apply preserves_print_lines; intros; reflexivity
    | match goal with
      | |- preserves _ (if ?b then _ else _) => destruct b
      | |- preserves _ (match ?x with _ => _ end) => destruct x
      | |- preserves _ (let _ := _ in _) => cbv zeta
      end
    | progress unfold
        say, info, warn, error, success, step, intro, outro, message, console_log,
        displayError, displayCommitMessage, displayChangelog, handleCancel,
        confirm, select, text, withSpinner, update_files, ensureConfigDir,
        write_config, write_commitPrompt, write_changelogPrompt, write_history,
        writeChangelog, readChangelog, saveConfig, getConfig, getCommitPrompt,
        getChangelogPrompt, getHistory, getLastChangelogRef, isGitRepo,
        ensureGitRepo, getStatus, getStagedDiff, stageAll, commit,
        getRecentCommits, getCommitsBetween, getTags, getLatestTag, resolveRef,
        getFileAtRef, manifest_version, detectVersionChange, createTag, push,
        getFirstCommit, hasRemote, prompt, model_for, generateCommitMessage,
        generateChangelog, mergeChangelog, listProviders, detectTagPrefix,
        copyToClipboard ].

(** *** Saving the changelog *)

(** X14.  [saveChangelog] writes a new changelog as it is, without a
    question, when there is no changelog yet (or an empty one).  When
    there is one and the user declines the merge, the file is replaced by
    the new text if the user accepts to overwrite, and left as it was if
    not. *)
Theorem saveChangelog_without_merge newContent w :
  (str_truthy (changelogFile (files w)) = false ->
   exists w',
     saveChangelog newContent w = (Returned tt, w') /\
     changelogFile (files w') = Some newContent /\
     user w' = user w /\
     printed w' = (printed w ++ [LSuccess "Saved to CHANGELOG.md"])%list) /\
  (forall overwrite more,
      str_truthy (changelogFile (files w)) = true ->
      confirms (user w) = Some false :: Some overwrite :: more ->
      exists w',
        saveChangelog newContent w = (Returned tt, w') /\
        changelogFile (files w')
        = (if overwrite then Some newContent else changelogFile (files w)) /\
        confirms (user w') = more /\
        last (printed w') LIntro
        = (if overwrite then LSuccess "Saved to CHANGELOG.md (overwritten)"
           else LWarn "Changelog not saved.")).
Proof.
  split.
  - intros H. unfold saveChangelog. run. rewrite H.
    eexists. split; [reflexivity|]. repeat split.
  - intros overwrite more H Hc. unfold saveChangelog, confirm, next_confirm,
      handleCancel. run. rewrite H, Hc. cbv beta iota. run.
    destruct overwrite; eexists; (split; [reflexivity|]);
      cbn [files changelogFile set_files user confirms printed];
      repeat split; apply last_last.
Qed.

Lemma preserves_mergeChangelog {X : Type} (obs : @World Repo -> X) existing newEntry :
  (forall f w, changelogFile f = changelogFile (files w) -> obs (set_files f w) = obs w) ->
  preserves obs (mergeChangelog existing newEntry).
Proof.
  intros H. unfold mergeChangelog. apply preserves_bind.
  - intros w. rewrite getConfig_run. cbn [snd]. apply H. reflexivity.
  - intros config. frame.
Qed.

(** X15.  When the user accepts the merge, the changelog becomes what
    the backend returns for the merge; when the merge fails nothing is
    written: the error is thrown on and the changelog is as it was. *)
Theorem saveChangelog_merge newContent w existing more :
  changelogFile (files w) = Some existing ->
  existing <> "" ->
  confirms (user w) = Some true :: more ->
  let asked :=
    print (LSpinnerStart "Merging changelog...")
      (answered_confirm more
         (print (LAsk "CHANGELOG.md exists. Merge new content?") w)) in
  (forall merged w2,
      mergeChangelog existing newContent asked = (Returned merged, w2) ->
      fst (saveChangelog newContent w) = Returned tt /\
      changelogFile (files (snd (saveChangelog newContent w))) = Some merged) /\
  (forall e w2,
      mergeChangelog existing newContent asked = (Thrown e, w2) ->
      saveChangelog newContent w = (Thrown e, print (LSpinnerStop "Failed") w2) /\
      changelogFile (files (snd (saveChangelog newContent w))) = Some existing).
Proof.
  intros Hf Hne Hc asked.
  assert (Ht : str_truthy (Some existing) = true).
  { cbn. now apply negb_true_iff, String.eqb_neq. }
  assert (Hrun : saveChangelog newContent w
    = match mergeChangelog existing newContent asked with
      | (Returned merged, w2) =>
          (Returned tt,
           print (LSuccess "Saved to CHANGELOG.md (merged)")
             (set_files
                {| configDir := configDir (files w2);
                   configFile := configFile (files w2);
                   commitPromptFile := commitPromptFile (files w2);
                   changelogPromptFile := changelogPromptFile (files w2);
                   historyFile := historyFile (files w2);
                   changelogFile := Some merged |}
                (print (LSpinnerStop "Merged changelog") w2)))
      | (Thrown e, w2) => (Thrown e, print (LSpinnerStop "Failed") w2)
      | (Exited c, w2) => (Exited c, w2)
      end).
  { unfold saveChangelog, confirm, next_confirm, handleCancel, withSpinner. run.
    rewrite Hf, Ht, Hc. cbv beta iota. run. subst asked.
    unfold answered_confirm. cbn [user set_user print confirms selects texts].
    destruct (mergeChangelog existing newContent _) as [[merged|e|c] w2];
      reflexivity. }
  split.
  - intros merged w2 Hm. rewrite Hrun, Hm. split; reflexivity.
  - intros e w2 Hm. rewrite Hrun, Hm. split; [reflexivity|].
    cbn [snd files print].
    pose proof (@preserves_mergeChangelog _ (fun w => changelogFile (files w))
                  existing newContent) as Hp.
    specialize (Hp (fun f w H => H) asked). rewrite Hm in Hp. cbn [snd] in Hp.
    rewrite Hp. subst asked. exact Hf.
Qed.

(** *** Failures of the generation backend *)

Lemma model_then_prompt_never_exits config purpose text w c :
  fst (bind (model_for config purpose) (prompt text) w) <> Exited c.
Proof.
  unfold model_for, prompt. run.
  destruct (get_prop config "models") as [e|models]; [discriminate|].
  cbv beta iota. destruct (get_prop models purpose) as [e|mc]; [discriminate|].
  cbv beta iota. destruct (session_reply (backend w)) as [e|[]]; [discriminate|].
  cbv beta iota. destruct (get_prop mc "provider") as [e|pr]; [discriminate|].
  cbv beta iota. destruct (get_prop mc "model") as [e|mo]; [discriminate|].
  cbv beta iota. destruct (prompt_reply (backend w) text pr mo); discriminate.
Qed.

Lemma wrapped_failure {A : Type} (body : @M Repo A) (prefix : string)
  (detail : exn -> string) w :
  (forall c, fst (body w) <> Exited c) ->
  match fst (try_catch body (fun err => throw (QuillError (prefix ++ detail err))) w)
  with
  | Returned _ => True
  | Thrown e => exists m, e = QuillError (prefix ++ m)
  | Exited _ => False
  end.
Proof.
  intros H. unfold try_catch. destruct (body w) as [[a|e|c] w1] eqn:E; cbn.
  - exact I.
  - eexists. reflexivity.
  - apply (H c). reflexivity.
Qed.

(** X16.  The three generation functions never end the process and never
    let another kind of error out: whatever goes wrong (no server, a
    failed prompt, a configuration without the model), they throw a
    [QuillError] whose message says which generation failed. *)
Theorem generation_failures_are_QuillErrors w :
  (forall commits version fromRef toRef,
      match fst (generateChangelog commits version fromRef toRef w) with
      | Returned _ => True
      | Thrown e => exists m, e = QuillError ("AI changelog generation failed: " ++ m)
      | Exited _ => False
      end) /\
  (forall existing newEntry,
      match fst (mergeChangelog existing newEntry w) with
      | Returned _ => True
      | Thrown e => exists m, e = QuillError ("AI changelog merge failed: " ++ m)
      | Exited _ => False
      end) /\
  (forall diff,
      match fst (generateCommitMessage diff w) with
      | Returned _ => True
      | Thrown e => exists m, e = QuillError ("AI generation failed: " ++ m)
      | Exited _ => False
      end).
Proof.
  split; [|split].
  - intros commits version fromRef toRef. unfold generateChangelog.
    unfold bind at 1. rewrite getConfig_run.
    destruct (getChangelogPrompt_returns (set_files (after_getConfig (files w)) w))
      as (text & w1 & Hp).
    unfold bind at 1. rewrite Hp. cbv zeta.
    apply wrapped_failure with (detail := exn_message).
    intros c. apply model_then_prompt_never_exits.
  - intros existing newEntry. unfold mergeChangelog.
    unfold bind at 1. rewrite getConfig_run. cbv zeta.
    apply wrapped_failure with (detail := exn_message).
    intros c. apply model_then_prompt_never_exits.
  - intros diff. unfold generateCommitMessage.
    unfold bind at 1. rewrite getConfig_run.
    destruct (getCommitPrompt_returns (set_files (after_getConfig (files w)) w))
      as (text & w1 & Hp).
    unfold bind at 1. rewrite Hp. cbv zeta.
    apply wrapped_failure with
      (detail := fun err =>
         exn_message err ++ nl ++ nl
         ++ "Try again or provide a manual commit message:" ++ nl
         ++ "  quill commit " ++ dq ++ "your message here" ++ dq).
    intros c. apply model_then_prompt_never_exits.
Qed.

(** *** What is written, and when *)

Lemma unless_returned_bind {X A B : Type} (obs : @World Repo -> X)
  (m : @M Repo A) (k : A -> M B) w :
  preserves obs m ->
  (forall a w1, obs w1 = obs w ->
     (forall r, fst (k a w1) <> Returned r) -> obs (snd (k a w1)) = obs w) ->
  (forall r, fst (bind m k w) <> Returned r) ->
  obs (snd (bind m k w)) = obs w.
Proof.
  intros Hm Hk. unfold bind. specialize (Hm w).
  destruct (m w) as [[a|e|c] w1]; cbn [snd] in *; auto.
Qed.

Lemma addHistoryEntry_unless_returned e w :
  (forall r, fst (addHistoryEntry e w) <> Returned r) ->
  historyFile (files (snd (addHistoryEntry e w))) = historyFile (files w).
Proof.
  intros H. destruct (stored_entries w) as [l|] eqn:E.
  - destruct (@addHistoryEntry_stored _ w l e E) as (w' & Hrun & _).
    exfalso. apply (H tt). now rewrite Hrun.
  - now apply addHistoryEntry_throws.
Qed.

(** X17.  The history records only generations that were carried
    through: whenever [generateAndSaveChangelog] does not return (the
    backend fails, a reference does not resolve, the history cannot be
    read), the history file is as it was. *)
Theorem history_written_only_on_return fromRef toRef version w :
  (forall r, fst (generateAndSaveChangelog fromRef toRef version w) <> Returned r) ->
  historyFile (files (snd (generateAndSaveChangelog fromRef toRef version w)))
  = historyFile (files w).
Proof.
  unfold generateAndSaveChangelog.
  apply unless_returned_bind with (obs := fun w => historyFile (files w)); [frame|].
  intros commits w1 H1. cbv beta in H1. rewrite <- H1. clear H1.
  destruct commits as [|c commits]; [reflexivity|].
  apply unless_returned_bind with (obs := fun w => historyFile (files w)); [frame|].
  intros changelog w2 H2. cbv beta in H2. rewrite <- H2. clear H2.
  apply unless_returned_bind with (obs := fun w => historyFile (files w)); [frame|].
  intros existing w3 H3. cbv beta in H3. rewrite <- H3. clear H3.
  apply unless_returned_bind with (obs := fun w => historyFile (files w)); [frame|].
  intros u w4 H4. cbv beta in H4. rewrite <- H4. clear H4.
  apply unless_returned_bind with (obs := fun w => historyFile (files w)); [frame|].
  intros toHash w5 H5. cbv beta in H5. rewrite <- H5. clear H5.
  apply unless_returned_bind with (obs := fun w => historyFile (files w)); [frame|].
  intros now w6 H6. cbv beta in H6. rewrite <- H6. clear H6.
  intros Hn. unfold bind in *.
  match goal with
  | |- context [addHistoryEntry ?e w6] =>
      pose proof (@addHistoryEntry_unless_returned e w6) as Ha;
      destruct (addHistoryEntry e w6) as [[[]|err|code] w7] eqn:E
  end; cbn [fst snd] in *.
  - exfalso. apply (Hn changelog). reflexivity.
  - apply Ha. discriminate.
  - apply Ha. discriminate.
Qed.

(** X18.  Only the action [save] of the changelog menu writes: as long
    as the user chooses to copy, to be done, or cancels, [CHANGELOG.md]
    and the history file are as they were, whatever the number of
    turns. *)
Theorem changelog_menu_writes_only_on_save changelog fromRef toRef count :
  forall fuel w,
    avoids_first 3 (selects (user w)) ->
    changelogFile (files (snd (changelog_menu fuel changelog fromRef toRef count w)))
    = changelogFile (files w) /\
    historyFile (files (snd (changelog_menu fuel changelog fromRef toRef count w)))
    = historyFile (files w).
Proof.
  set (docs := fun w : @World Repo =>
                 (changelogFile (files w), historyFile (files w))).
  assert (Hdocs : forall fuel w,
    avoids_first 3 (selects (user w)) ->
    docs (snd (changelog_menu fuel changelog fromRef toRef count w)) = docs w).
  { induction fuel as [|fuel IH]; intros w Ha.
    - cbn [changelog_menu]. unfold bind at 1. rewrite select_run.
      destruct (selects (user w)) as [|a more]; [reflexivity|].
      inversion Ha as [|? ? Hk Hmore]; subst. cbv zeta.
      destruct a as [k|]; [|reflexivity]. cbn [List.length] in *.
      destruct (Nat.modulo k 3) as [|[|[|n]]] eqn:Ek; try congruence;
        try (pose proof (Nat.mod_upper_bound k 3); lia);
        cbn [nth_error]; try reflexivity.
      cbn [String.eqb Ascii.eqb Bool.eqb]. cbv beta iota.
      unfold copyToClipboard, gets, bind.
      cbn [clipboard set_user print].
      destruct (clipboard w); reflexivity.
    - cbn [changelog_menu]. unfold bind at 1. rewrite select_run.
      destruct (selects (user w)) as [|a more] eqn:Es; [reflexivity|].
      inversion Ha as [|? ? Hk Hmore]; subst. cbv zeta.
      destruct a as [k|]; [|reflexivity]. cbn [List.length] in *.
      destruct (Nat.modulo k 3) as [|[|[|n]]] eqn:Ek; try congruence;
        try (pose proof (Nat.mod_upper_bound k 3); lia);
        cbn [nth_error]; try reflexivity.
      cbn [String.eqb Ascii.eqb Bool.eqb]. cbv beta iota.
      unfold copyToClipboard, gets. unfold bind at 1 2.
      cbn [clipboard set_user print].
      destruct (clipboard w); unfold success, warn, say, modify; cbv beta iota;
        (rewrite IH; [reflexivity | exact Hmore]). }
  intros fuel w Ha. specialize (Hdocs fuel w Ha). unfold docs in Hdocs.
  injection Hdocs as H1 H2. split; assumption.
Qed.

(** *** Outside a repository *)

Lemma ensureGitRepo_refuses w :
  (git_checkIsRepo (repo w) = inr false \/
   exists e, git_checkIsRepo (repo w) = inl e) ->
  ensureGitRepo w
  = (Thrown (QuillError ("Not a git repository." ++ nl
       ++ "Please run this command from within a git repository.")), w).
Proof.
  intros H. unfold ensureGitRepo, isGitRepo, git_query, try_catch, bind, lift.
  destruct H as [H|[e H]]; rewrite H; reflexivity.
Qed.

(** X19.  Outside a git repository (the check answers no, or fails) every
    command that needs one stops at once: the process exits with code 1
    after the banner and the error, and nothing else has happened: no
    file is written, no question asked, the repository is not queried
    further. *)
Theorem not_a_repository_stops_every_command w :
  (git_checkIsRepo (repo w) = inr false \/
   exists e, git_checkIsRepo (repo w) = inl e) ->
  let refused : outcome unit * World :=
    (Exited 1,
     print (LError ("Not a git repository." ++ nl
              ++ "Please run this command from within a git repository."))
       (print LIntro w)) in
  (forall options, main (Changelog options) w = refused) /\
  (forall options, main (Release options) w = refused) /\
  (forall message options, main_commit message options w = refused).
Proof.
  intros H refused.
  assert (Hr : ensureGitRepo (print LIntro w)
               = (Thrown (QuillError ("Not a git repository." ++ nl
                    ++ "Please run this command from within a git repository.")),
                  print LIntro w))
    by (apply ensureGitRepo_refuses; exact H).
  repeat split; intros.
  - unfold main, parseAsync, changelogCommand, changelogCommand_fromRef,
      try_catch, intro, say, modify.
    unfold bind at 1 2 3. rewrite Hr. reflexivity.
  - unfold main, parseAsync, releaseCommand, try_catch, intro, say, modify.
    unfold bind at 1 2. rewrite Hr. reflexivity.
  - unfold main_commit, commitCommand, commitCommand_staged, try_catch,
      intro, say, modify.
    unfold bind at 1 2 3. rewrite Hr. reflexivity.
Qed.

(** *** The steps of a release *)

Lemma detectTagPrefix_world w : snd (detectTagPrefix w) = w.
Proof.
  assert (H : preserves (fun w : @World Repo => w) detectTagPrefix) by frame.
  apply H.
Qed.

(** X20.  The tag of a release is the detected prefix followed by the
    version without its leading [v]: a version given as [1.2.3] and one
    given as [v1.2.3] create the same tag.  With [--tag] or [--yes] no
    question is asked. *)
Theorem handleTag_names_the_tag v options w prefix r' :
  fst (detectTagPrefix w) = Returned prefix ->
  rel_tag options || rel_yes options = true ->
  git_addTag (prefix ++ stripVersionPrefix v) (repo w) = inr r' ->
  handleTag (JStr v) options w
  = (Returned tt,
     print (LSuccess ("Created tag: " ++ prefix ++ stripVersionPrefix v))
       (set_repo r' w)) /\
  handleTag (JStr (formatVersion v)) options w = handleTag (JStr v) options w.
Proof.
  intros Hp Hy Ht.
  assert (Hv : replace_leading_v (JStr (formatVersion v))
               = replace_leading_v (JStr v)).
  { unfold replace_leading_v, formatVersion.
    destruct (startsWith "v" v) eqn:E; [now rewrite E|].
    destruct v; reflexivity. }
  split.
  - unfold handleTag. unfold bind at 1.
    pose proof (detectTagPrefix_world w) as Hw.
    destruct (detectTagPrefix w) as [o w1]. cbn [fst snd] in *. subst o w1.
    unfold replace_leading_v, lift. unfold bind at 1. unfold ret at 1.
    rewrite Hy. unfold bind at 1. unfold ret at 1. cbv beta iota.
    fold (stripVersionPrefix v).
    unfold createTag, git_update, bind. rewrite Ht. reflexivity.
  - unfold handleTag. now rewrite Hv.
Qed.

(** X21.  Without a remote (none is configured, or they cannot be listed)
    the push step only warns: nothing is pushed and no question is asked,
    whatever the options. *)
Theorem handlePush_without_remote options w :
  (git_getRemotes (repo w) = inr 0%nat \/
   exists e, git_getRemotes (repo w) = inl e) ->
  handlePush options w
  = (Returned tt, print (LWarn "No remote configured. Skipping push.") w).
Proof.
  intros H. unfold handlePush, hasRemote, git_query, try_catch, lift.
  unfold bind at 1 2.
  destruct H as [H|[e H]]; rewrite H; reflexivity.
Qed.

(** X22.  [releaseCommand], called with options whose [yes] is set and
    whose [version] is a non-empty string, asks nothing: whatever the
    repository, the files and the backend do, no answer of the user is
    consumed.  (How the command line fills the options is the argument
    parser's, and is not part of the statement.) *)
Theorem release_yes_version_asks_nothing options w :
  rel_yes options = true ->
  str_truthy (rel_version options) = true ->
  user (snd (releaseCommand options w)) = user w.
Proof.
  intros Hy Hv.
  assert (H : preserves (fun w : @World Repo => user w) (releaseCommand options)).
  { unfold releaseCommand, handleCommit, handleChangelog, handleChangelog_fromRef,
      handleChangelog_version, handleChangelog_save, handleTag, handlePush,
      generateAndSaveChangelog, addHistoryEntry.
    rewrite Hy, Hv, !orb_true_r. cbn [negb]. cbv iota. frame. }
  apply H.
Qed.

(** *** The commit command *)

Lemma through_bind {X Y A B : Type} (obs : @World Repo -> X)
  (goal : @World Repo -> Y) (m : @M Repo A) (k : A -> M B) w y :
  preserves obs m ->
  (forall w1, obs w1 = obs w -> goal w1 = y) ->
  (forall a w1, obs w1 = obs w -> goal (snd (k a w1)) = y) ->
  goal (snd (bind m k w)) = y.
Proof.
  intros Hm Hg Hk. unfold bind. specialize (Hm w).
  destruct (m w) as [[a|e|c] w1]; cbn [snd] in *; auto.
Qed.

Lemma text_keeps_selects msg :
  preserves (fun w : @World Repo => (repo w, selects (user w))) (text msg).
Proof.
  intros w. unfold text, next_text, handleCancel. run.
  destruct (texts (user w)) as [|[t|] rest]; reflexivity.
Qed.

(** X23.  In the menu of the commit command only the action [commit]
    commits: as long as the user edits, regenerates, cancels or leaves,
    the repository is as it was, whatever the number of turns and
    whatever the backend answers. *)
Theorem commit_menu_commits_only_on_commit :
  forall fuel finalMessage w,
    avoids_first 4 (selects (user w)) ->
    repo (snd (commit_menu fuel finalMessage w)) = repo w.
Proof.
  set (obs := fun w : @World Repo => (repo w, selects (user w))).
  assert (Hstep : forall (again : string -> @M Repo unit) more w0 w1,
    obs w1 = (repo w0, more) ->
    (forall m w2, obs w2 = obs w1 -> repo (snd (again m w2)) = repo w0) ->
    forall k finalMessage,
      Nat.modulo k 4 <> 0%nat ->
      repo (snd ((match nth_error ["commit"; "edit"; "regenerate"; "cancel"]
                          (Nat.modulo k 4) with
                  | Some action =>
                      if String.eqb action "commit" then
                        bind (commit finalMessage)
                          (fun _ => success ("Committed: " ++ first_line finalMessage))
                      else if String.eqb action "edit" then
                        bind (text "Edit commit message:")
                          (fun edited => bind (displayCommitMessage edited)
                                              (fun _ => again edited))
                      else if String.eqb action "regenerate" then
                        bind getStagedDiff (fun diff =>
                          bind (withSpinner "Regenerating commit message..."
                                  (generateCommitMessage diff)
                                  "Regenerated commit message")
                            (fun regenerated =>
                               bind (displayCommitMessage regenerated)
                                    (fun _ => again regenerated)))
                      else if String.eqb action "cancel" then warn "Commit cancelled."
                      else again finalMessage
                  | None => bind (say (LCancel "Operation cancelled."))
                                 (fun _ => process_exit 0)
                  end) w1)) = repo w0).
  { intros again more w0 w1 H1 Hagain k finalMessage Hk.
    assert (Hr : forall w2, obs w2 = obs w1 -> repo w2 = repo w0).
    { intros w2 E. rewrite H1 in E. now injection E. }
    pose proof (Nat.mod_upper_bound k 4) as Hlt.
    destruct (Nat.modulo k 4) as [|[|[|[|n]]]]; try congruence; try lia;
      cbn [nth_error String.eqb Ascii.eqb Bool.eqb]; cbv iota.
    - apply through_bind with (obs := obs); [apply text_keeps_selects|exact Hr|].
      intros edited w2 E2.
      apply through_bind with (obs := obs); [frame| |].
      + intros w3 E3. apply Hr. congruence.
      + intros u w3 E3. apply Hagain. congruence.
    - apply through_bind with (obs := obs); [frame|exact Hr|].
      intros diff w2 E2.
      apply through_bind with (obs := obs); [frame| |].
      + intros w3 E3. apply Hr. congruence.
      + intros regenerated w3 E3.
        apply through_bind with (obs := obs); [frame| |].
        * intros w4 E4. apply Hr. congruence.
        * intros u w4 E4. apply Hagain. congruence.
    - cbn. apply Hr. reflexivity. }
  induction fuel as [|fuel IH]; intros finalMessage w Ha;
    cbn [commit_menu]; unfold bind at 1; rewrite select_run;
    (destruct (selects (user w)) as [|a more] eqn:Es; [reflexivity|]);
    inversion Ha as [|? ? Hk Hmore]; subst; cbv zeta;
    (destruct a as [k|]; [|reflexivity]); cbn [List.length].
  - pose proof (Hstep (fun _ => ret tt) more w
      (set_user {| confirms := confirms (user w); selects := more;
                   texts := texts (user w) |}
         (print (LAsk "What would you like to do?") w)) eq_refl) as H.
    specialize (H (fun m w2 E => ltac:(injection E as E1 E2; exact E1))
                  k finalMessage Hk).
    destruct (nth_error _ _); exact H.
  - pose proof (Hstep (fun m => commit_menu fuel m) more w
      (set_user {| confirms := confirms (user w); selects := more;
                   texts := texts (user w) |}
         (print (LAsk "What would you like to do?") w)) eq_refl) as H.
    assert (Hagain : forall m w2,
      obs w2 = obs (set_user {| confirms := confirms (user w); selects := more;
                                texts := texts (user w) |}
                      (print (LAsk "What would you like to do?") w)) ->
      repo (snd (commit_menu fuel m w2)) = repo w).
    { intros m w2 E. injection E as E1 E2. rewrite IH; [exact E1|].
      rewrite E2. exact Hmore. }
    specialize (H Hagain k finalMessage Hk).
    destruct (nth_error _ _); exact H.
Qed.

(** X24.  A commit with a message given on the command line and [--yes]
    commits exactly that message when something is staged; the backend is
    not called, no file is written and no question is asked. *)
Theorem commitCommand_explicit_message message options w st r' :
  git_checkIsRepo (repo w) = inr true ->
  git_status (repo w) = inr st ->
  st_staged st <> [] ->
  commit_all options = false ->
  commit_yes options = true ->
  message <> "" ->
  git_commit message (repo w) = inr r' ->
  exists w',
    commitCommand (Some message) options w = (Returned tt, w') /\
    repo w' = r' /\ files w' = files w /\ user w' = user w /\
    backend w' = backend w /\
    last (printed w') LIntro = LOutro "Done!".
Proof.
  intros Hrepo Hst Hstaged Hall Hyes Hmsg Hcommit.
  assert (Htruthy : str_truthy (Some message) = true).
  { cbn. destruct (String.eqb message "") eqn:E; [|reflexivity].
    apply String.eqb_eq in E. contradiction. }
  unfold commitCommand, commitCommand_staged, commitCommand_message,
    commitCommand_commit, ensureGitRepo, isGitRepo, getStatus, commit,
    displayCommitMessage.
  rewrite Hall, Hyes, Htruthy.
  unfold git_query, git_update, try_catch, lift. run.
  rewrite Hrepo. cbn [negb]. run. rewrite Hst. run.
  destruct (st_staged st) as [|f fs]; [contradiction|].
  cbn [List.length Nat.eqb staged]. run. rewrite Hcommit. run.
  eexists; split; [reflexivity|]. cbn [repo files user backend printed].
  repeat split. apply last_last.
Qed.

(** X25.  With nothing staged, nothing modified and nothing untracked the
    commit command says that the tree is clean and returns, also when a
    message was given: nothing is committed, and the backend and the user
    are not called. *)
Theorem commitCommand_clean_tree message options w st :
  git_checkIsRepo (repo w) = inr true ->
  git_status (repo w) = inr st ->
  st_staged st = [] -> st_modified st = [] -> st_not_added st = [] ->
  commit_all options = false ->
  commitCommand message options w
  = (Returned tt,
     print (LInfo "Nothing to commit, working tree clean.") (print LIntro w)).
Proof.
  intros Hrepo Hst H1 H2 H3 Hall.
  unfold commitCommand, commitCommand_staged, ensureGitRepo, isGitRepo, getStatus.
  rewrite Hall. unfold git_query, try_catch, lift. run.
  rewrite Hrepo. cbn [negb]. run. rewrite Hst. run. rewrite H1, H2, H3. reflexivity.
Qed.

(** X26.  What is committed from the menu is the message as last edited:
    after [edit] with a text and then [commit], the repository receives
    the commit of that text, not of the message first proposed. *)
Theorem commit_menu_commits_the_edited_message
  fuel finalMessage w k1 k2 more edited rest r' :
  selects (user w) = Some k1 :: Some k2 :: more ->
  Nat.modulo k1 4 = 1%nat -> Nat.modulo k2 4 = 0%nat ->
  texts (user w) = Some edited :: rest ->
  git_commit edited (repo w) = inr r' ->
  exists w',
    commit_menu (S fuel) finalMessage w = (Returned tt, w') /\
    repo w' = r' /\
    last (printed w') LIntro = LSuccess ("Committed: " ++ first_line edited).
Proof.
  intros Hs H1 H2 Ht Hc.
  cbn [commit_menu]. unfold bind at 1. rewrite select_run, Hs. cbv zeta.
  cbn [List.length]. rewrite H1. cbn [nth_error String.eqb Ascii.eqb Bool.eqb].
  cbv iota. unfold text, next_text, handleCancel, displayCommitMessage. run.
  rewrite Ht. run.
  assert (Hmenu : forall w1,
    selects (user w1) = Some k2 :: more -> repo w1 = repo w ->
    exists w', commit_menu fuel edited w1 = (Returned tt, w') /\
      repo w' = r' /\
      last (printed w') LIntro = LSuccess ("Committed: " ++ first_line edited)).
  { intros w1 Hs1 Hr1.
    destruct fuel; cbn [commit_menu]; unfold bind at 1;
      rewrite select_run, Hs1; cbv zeta; cbn [List.length]; rewrite H2;
      cbn [nth_error String.eqb Ascii.eqb Bool.eqb]; cbv iota;
      unfold commit, git_update; run; rewrite Hr1, Hc; run;
      (eexists; split; [reflexivity|]); cbn [repo printed];
      (split; [reflexivity|apply last_last]). }
  apply Hmenu; reflexivity.
Qed.

(** *** Choosing the starting reference *)

Lemma split_on_no_char c s : has_char c s = false -> split_on c s = [s].
Proof.
  induction s as [|a rest IH]; [reflexivity|].
  cbn [has_char split_on]. destruct (Ascii.eqb a c); [discriminate|].
  intros H. now rewrite IH.
Qed.

Lemma split_on_colon_tag name :
  nth_error (split_on ":" ("tag:" ++ name)) 1 = Some (hd "" (split_on ":" name)).
Proof.
  pose proof (split_on_nonempty ":" name) as Hne.
  cbn. destruct (split_on ":" name); [congruence|reflexivity].
Qed.

Lemma getLastChangelogRef_empty w :
  stored_entries w = Some [] ->
  exists w1,
    getLastChangelogRef w = (Returned (VJson JNull), w1) /\
    repo w1 = repo w /\ user w1 = user w.
Proof.
  unfold stored_entries, getLastChangelogRef, getHistory. intros H. run.
  destruct (historyFile (files w)) as [[raw|v]|] eqn:Hh.
  - eexists; split; [reflexivity|]. split; reflexivity.
  - destruct v as [| | | | |fs]; try discriminate.
    destruct (assoc_get "entries" fs) as [[| | | |old|]|] eqn:He; try discriminate.
    injection H as ->. cbn [JSON_parse get_prop]. rewrite He.
    eexists; split; [reflexivity|]. split; reflexivity.
  - eexists; split; [reflexivity|]. split; reflexivity.
Qed.

Lemma pick_among_the_first {A : Type} (f : A -> string) (first : list A)
  (rest : list string) i t :
  nth_error first i = Some t ->
  nth_error (map f first ++ rest)%list
            (Nat.modulo i (List.length (map f first ++ rest)%list))
  = Some (f t).
Proof.
  intros H.
  assert (Hlt : (i < List.length first)%nat)
    by (apply nth_error_Some; congruence).
  rewrite Nat.mod_small by (rewrite length_app, length_map; lia).
  rewrite nth_error_app1 by (rewrite length_map; exact Hlt).
  now apply map_nth_error.
Qed.

(** X27.  Without a history, the choice of one of the (at most ten) tags
    offered as starting reference returns the name of that tag, up to its
    first colon: the whole name when it has none. *)
Theorem selectFromRef_returns_the_chosen_tag w tags log i more t :
  stored_entries w = Some [] ->
  tags_of (repo w) = inr tags ->
  git_log ["-n"; "20"] (repo w) = inr log ->
  selects (user w) = Some i :: more ->
  nth_error (firstn 10 tags) i = Some t ->
  fst (selectFromRef w) = Returned (Some (hd "" (split_on ":" (tag_name t)))) /\
  (has_char ":" (tag_name t) = false ->
   fst (selectFromRef w) = Returned (Some (tag_name t))).
Proof.
  intros Hh Htags Hlog Hs Ht.
  assert (Hmain : fst (selectFromRef w)
                  = Returned (Some (hd "" (split_on ":" (tag_name t))))).
  { destruct (getLastChangelogRef_empty w Hh) as (w1 & E & Hr & Hu).
    unfold selectFromRef. unfold bind at 1. rewrite E.
    unfold bind at 1. rewrite getTags_run, Hr, Htags.
    unfold getRecentCommits, git_query.
    change (nat_to_string 20) with "20".
    unfold bind at 1 2. rewrite Hr, Hlog. unfold lift, ret at 1 2.
    cbn [truthy]. unfold bind at 1. unfold ret at 1. cbv zeta.
    cbn [app].
    pose proof (@pick_among_the_first _
                  (fun tag => "tag:" ++ tag_name tag)
                  (firstn 10 tags)
                  (map (fun c => "commit:" ++ commit_hash c)
                       (firstn 10 (map to_GitCommit log)))
                  i t Ht) as Hpick.
    revert Hpick.
    match goal with
    | |- nth_error ?l _ = _ -> _ => destruct l as [|o options]
    end; intros Hpick.
    { destruct i; discriminate. }
    unfold bind at 1. rewrite select_run, Hu, Hs. cbv zeta.
    rewrite Hpick. unfold ret. cbn [fst].
    now rewrite split_on_colon_tag. }
  split; [exact Hmain|].
  intros Hc. rewrite Hmain, split_on_no_char by exact Hc. reflexivity.
Qed.

(** *** The list of models *)


End Further.

(** ** The further properties on concrete inputs *)

Lemma cleanupResponse_fenced_block_witness :
  cleanupResponse ("```" ++ "markdown" ++ nl ++ "feat: add picker" ++ nl ++ "```")
  = "feat: add picker".
Proof.
  exact (@cleanupResponse_fenced_block "markdown" "feat: add picker" eq_refl).
Defined.

Lemma getTags_keeps_every_name_witness :
  exists tags,
    getTags tagged_world = (Returned tags, tagged_world) /\
    map tag_name tags = ["1.0.0"; "v1.0.0"].
Proof.
  destruct (@getTags_keeps_every_name Scripted _ tagged_world ["1.0.0"; "v1.0.0"])
    as (tags & H1 & H2 & _); [reflexivity|].
  exists tags. split; assumption.
Defined.

Lemma getCommitsBetween_short_hashes_witness :
  exists commits,
    getCommitsBetween "v1.0.0" "HEAD" bumped_world = (Returned commits, bumped_world) /\
    map commit_hash commits = ["2222222bbbb"; "1111111aaaa"].
Proof.
  destruct (@getCommitsBetween_short_hashes Scripted _ "v1.0.0" "HEAD" bumped_world
              [{| log_hash := "2222222bbbb"; log_message := "chore: bump version";
                  log_author_name := "dev"; log_date := "2026-01-02" |};
               {| log_hash := "1111111aaaa"; log_message := "feat: add picker";
                  log_author_name := "dev"; log_date := "2026-01-01" |}])
    as (commits & H1 & H2 & _); [reflexivity|].
  exists commits. split; assumption.
Defined.

Lemma getStatus_unstaged_not_staged_witness :
  exists status,
    getStatus (staged_world no_answers) = (Returned status, staged_world no_answers) /\
    (In "README.md" (unstaged status) /\ ~ In "src/index.ts" (unstaged status)).
Proof.
  destruct (@getStatus_unstaged_not_staged Scripted _ (staged_world no_answers)
              staged_status)
    as (status & H1 & H2 & _ & H3); [reflexivity|].
  exists status. split; [exact H1|]. split.
  - apply H3. rewrite H2. split; [right; left; reflexivity|].
    intros [H|[]]. discriminate.
  - intros H. apply H3 in H. destruct H as [_ H]. apply H. rewrite H2.
    left. reflexivity.
Defined.

Lemma configCommand_saves_the_chosen_model_witness :
  exists w',
    configCommand (config_commit_model "anthropic/claude-opus-4") sample_world
    = (Returned tt, w') /\
    fst (model_for (loaded_config (files w')) "commit" w')
    = Returned (VJson (model_json ("anthropic", "claude-opus-4"))).
Proof.
  edestruct (@configCommand_saves_the_chosen_model Scripted
               (config_commit_model "anthropic/claude-opus-4") sample_world
               "commit" "anthropic/claude-opus-4" ("anthropic", "claude-opus-4"))
    as (w' & H1 & _ & _ & H2 & _).
  - reflexivity.
  - left. repeat split; reflexivity.
  - reflexivity.
  - reflexivity.
  - exists w'. split; assumption.
Defined.

Lemma saveChangelog_merge_witness :
  exists merged,
    fst (saveChangelog "## [1.1.0]" merging_world) = Returned tt /\
    changelogFile (files (snd (saveChangelog "## [1.1.0]" merging_world)))
    = Some merged.
Proof.
  destruct (@saveChangelog_merge Scripted "## [1.1.0]" merging_world
              "# Changelog" [])
    as [H _]; [reflexivity|discriminate|reflexivity|].
  cbv zeta in H.
  destruct (mergeChangelog "# Changelog" "## [1.1.0]"
              (print (LSpinnerStart "Merging changelog...")
                 (answered_confirm []
                    (print (LAsk "CHANGELOG.md exists. Merge new content?")
                       merging_world))))
    as [[merged| |] w2] eqn:E; try (vm_compute in E; discriminate).
  exists merged. exact (H merged w2 eq_refl).
Defined.

Lemma history_written_only_on_return_witness :
  historyFile (files (snd (generateAndSaveChangelog "v0.1.0" "HEAD" JNull sample_world)))
  = None.
Proof.
  apply (@history_written_only_on_return Scripted _ "v0.1.0" "HEAD" JNull sample_world).
  intros r. vm_compute. discriminate.
Defined.

Lemma changelog_menu_writes_only_on_save_witness :
  changelogFile
    (files (snd (changelog_menu 2 "## [1.1.0]" "v1.0.0" "HEAD" 2
                   (menu_world [1; 2]%nat []))))
  = None.
Proof.
  apply (@changelog_menu_writes_only_on_save Scripted _ "## [1.1.0]" "v1.0.0" "HEAD"
           2%nat 2%nat (menu_world [1; 2]%nat [])).
  apply Forall_cons; [simpl; lia|]. apply Forall_cons; [simpl; lia|].
  apply Forall_nil.
Defined.

Lemma not_a_repository_stops_every_command_witness :
  exit_code (fst (main (Release release_plain) outside_world)) = 1%Z /\
  files (snd (main (Release release_plain) outside_world)) = empty_files /\
  exit_code (fst (main_commit None commit_plain outside_world)) = 1%Z.
Proof.
  pose proof (@not_a_repository_stops_every_command Scripted _ outside_world
                (or_introl eq_refl)) as H.
  cbv zeta in H. destruct H as (_ & H2 & H3).
  rewrite H2, H3. repeat split.
Defined.

Lemma handleTag_names_the_tag_witness :
  repo (snd (handleTag (JStr "v1.1.0") (release_yes_version "v1.1.0") tagged_world))
  = journal "tag v1.1.0" tagged_repo.
Proof.
  destruct (@handleTag_names_the_tag Scripted _ "v1.1.0"
              (release_yes_version "v1.1.0") tagged_world "v"
              (journal "tag v1.1.0" tagged_repo))
    as [H _]; [reflexivity|reflexivity|reflexivity|].
  rewrite H. reflexivity.
Defined.

Lemma handlePush_without_remote_witness :
  handlePush release_plain sample_world
  = (Returned tt, print (LWarn "No remote configured. Skipping push.") sample_world).
Proof.
  apply (@handlePush_without_remote Scripted _ release_plain sample_world).
  left. reflexivity.
Defined.

Lemma release_yes_version_asks_nothing_witness :
  confirms (user (snd (releaseCommand (release_yes_version "1.1.0") bumped_world)))
  = [Some true; Some true].
Proof.
  rewrite (@release_yes_version_asks_nothing Scripted _
             (release_yes_version "1.1.0") bumped_world eq_refl eq_refl).
  reflexivity.
Defined.

Lemma commit_menu_commits_only_on_commit_witness :
  s_journal (repo (snd (commit_menu 2 "feat: add picker"
                          (menu_world [1; 3]%nat ["fix: typo"]))))
  = [].
Proof.
  rewrite (@commit_menu_commits_only_on_commit Scripted _ 2%nat "feat: add picker"
             (menu_world [1; 3]%nat ["fix: typo"])).
  - reflexivity.
  - apply Forall_cons; [simpl; lia|]. apply Forall_cons; [simpl; lia|].
    apply Forall_nil.
Defined.

Lemma commitCommand_explicit_message_witness :
  exists w',
    commitCommand (Some "feat: add picker") commit_yes_only (staged_world no_answers)
    = (Returned tt, w') /\
    s_journal (repo w') = ["commit feat: add picker"] /\
    files w' = empty_files.
Proof.
  destruct (@commitCommand_explicit_message Scripted _ "feat: add picker"
              commit_yes_only (staged_world no_answers) staged_status
              (journal "commit feat: add picker" staged_repo))
    as (w' & H1 & H2 & H3 & _);
    [reflexivity|reflexivity|discriminate|reflexivity|reflexivity|discriminate
    |reflexivity|].
  exists w'. split; [exact H1|]. rewrite H2, H3. split; reflexivity.
Defined.

Lemma commitCommand_clean_tree_witness :
  commitCommand (Some "feat: add picker") commit_plain sample_world
  = (Returned tt,
     print (LInfo "Nothing to commit, working tree clean.")
       (print LIntro sample_world)).
Proof.
  apply (@commitCommand_clean_tree Scripted _ (Some "feat: add picker") commit_plain
           sample_world clean_status); reflexivity.
Defined.

Lemma commit_menu_commits_the_edited_message_witness :
  exists w',
    commit_menu 2 "feat: add picker" (menu_world [1; 0]%nat ["fix: typo"])
    = (Returned tt, w') /\
    s_journal (repo w') = ["commit fix: typo"].
Proof.
  destruct (@commit_menu_commits_the_edited_message Scripted _ 1%nat
              "feat: add picker" (menu_world [1; 0]%nat ["fix: typo"])
              1%nat 0%nat [] "fix: typo" []
              (journal "commit fix: typo" staged_repo))
    as (w' & H1 & H2 & _);
    [reflexivity|reflexivity|reflexivity|reflexivity|reflexivity|].
  exists w'. split; [exact H1|]. rewrite H2. reflexivity.
Defined.

Lemma selectFromRef_returns_the_chosen_tag_witness :
  fst (selectFromRef picking_world) = Returned (Some "v0.9.0").
Proof.
  edestruct (@selectFromRef_returns_the_chosen_tag Scripted _ picking_world)
    as [_ H].
  - reflexivity.
  - reflexivity.
  - reflexivity.
  - reflexivity.
  - reflexivity.
  - apply H. reflexivity.
Defined.

